(** * Narrative-Planner: the interview-progress graph

    A shallow embedding of the core of the repository:
    - [core/node_status.py]   the status and domain vocabularies,
    - [core/theme_node.py]    [ThemeNode],
    - [core/event_node.py]    [EventNode],
    - [core/theme_loader.py]  [ThemeLoader],
    - [core/graph_manager.py] [GraphManager], with the plain in-memory graph
      structure ([use_networkx = False], the representation whose code is in
      the repository and the one its test-suite constructs).

    Conventions of the embedding.
    - Python [int] is [Z]; [str] is [string]; [Optional[T]] is [option T].
    - A Python [dict] keeps its keys in insertion order, and that order decides
      ties in [min]; it is an association list, see [Dict].
    - A Python [float] that the code computes as a quotient of two integers
      (completion ratios) is the exact rational [Q].  Both [a / b] and
      [d / 5.0] are correctly rounded, so equal rationals are equal floats
      and the order is kept; two different ratios could only round to one
      float for slot maps or depths beyond 2^50.
    - A [datetime] is an opaque instant ([Z]).  The string a record holds
      under a timestamp key is an [isostring]: the [isoformat] of an instant,
      which [fromisoformat] reads back, or any other string, which
      [fromisoformat] rejects with a [ValueError].  Reading the clock
      ([datetime.now()]) is an explicit argument [now].
    - A method that mutates [self] is a function to the new object; a
      container holding the object is updated under the same key.
    - A [dict] read from JSON or handed to [from_dict] is a record whose
      fields are options: [None] is an absent key.
    - An exception is a value of [exn]; a call that can raise returns a
      [result].
    - The log of [ThemeLoader.load] is part of its result; the log lines of
      [GraphManager] are left out. *)

From Stdlib Require Import List String ZArith QArith Qminmax Bool Lia.
Import ListNotations.
Open Scope string_scope.
Open Scope list_scope.
Open Scope Z_scope.

(** ** Exceptions and results *)

Inductive exn : Type :=
| KeyError (key : string)
| ValueError (what : string)
| AttributeError (what : string)
| FileNotFoundError
| JSONDecodeError
| OSError.

Inductive result (A : Type) : Type :=
| Ok (a : A)
| Raise (e : exn).
Arguments Ok {A} a.
Arguments Raise {A} e.

Definition bind {A B : Type} (r : result A) (k : A -> result B) : result B :=
  match r with
  | Ok a => k a
  | Raise e => Raise e
  end.

Notation "x <- r ;; k" := (bind r (fun x => k))
  (at level 61, r at next level, right associativity).

(** [d[key]] on a record field: [KeyError] when the key is absent. *)
Definition subscript {A : Type} (key : string) (field : option A) : result A :=
  match field with
  | Some a => Ok a
  | None => Raise (KeyError key)
  end.

(** [d.get(key, default)]. *)
Definition get_default {A : Type} (field : option A) (default : A) : A :=
  match field with
  | Some a => a
  | None => default
  end.

Definition datetime : Type := Z.

(** The string under a timestamp key of a record: [d.isoformat()] for an
    instant [d], or a string that is not in ISO format. *)
Inductive isostring : Type :=
| IsoFormat (d : datetime)
| Malformed (s : string).

(** [d.isoformat()] *)
Definition isoformat (d : datetime) : isostring := IsoFormat d.

(** [datetime.fromisoformat(s)] *)
Definition fromisoformat (s : isostring) : result datetime :=
  match s with
  | IsoFormat d => Ok d
  | Malformed s => Raise (ValueError s)
  end.

(** Truth value of the string: non-empty. *)
Definition isostring_truthy (s : isostring) : bool :=
  match s with
  | IsoFormat _ => true
  | Malformed s => negb (String.eqb s "")
  end.

(** [datetime.fromisoformat(data[key]) if data.get(key) else None]; the
    field is [None] for an absent key and for a null value. *)
Definition parse_timestamp (field : option isostring)
  : result (option datetime) :=
  match field with
  | Some s =>
      if isostring_truthy s then d <- fromisoformat s ;; Ok (Some d)
      else Ok None
  | None => Ok None
  end.

(** An opaque structured value ([trigger_logic], [metadata] entries). *)
#[local] Unset Elimination Schemes.
Inductive json : Type :=
| JNull
| JBool (b : bool)
| JInt (z : Z)
| JStr (s : string)
| JList (l : list json)
| JDict (l : list (string * json)).
#[local] Set Elimination Schemes.

(** ** Insertion-ordered dictionaries *)

Module Dict.
Section WithValue.
Context {V : Type}.

Definition t : Type := list (string * V).

Definition empty : t := [].

Fixpoint get (d : t) (k : string) : option V :=
  match d with
  | [] => None
  | (k', v) :: r => if String.eqb k k' then Some v else get r k
  end.

(** [k in d] *)
Definition contains (d : t) (k : string) : bool :=
  match get d k with
  | Some _ => true
  | None => false
  end.

(** [d[k] = v]: an existing key keeps its position, a new key goes last. *)
Fixpoint set (d : t) (k : string) (v : V) : t :=
  match d with
  | [] => [(k, v)]
  | (k', v') :: r =>
      if String.eqb k k' then (k', v) :: r else (k', v') :: set r k v
  end.

Definition keys (d : t) : list string := map fst d.
Definition values (d : t) : list V := map snd d.
Definition items (d : t) : list (string * V) := d.
Definition len (d : t) : Z := Z.of_nat (List.length d).

(** Truth value of a dict: non-empty. *)
Definition truthy (d : t) : bool :=
  match d with
  | [] => false
  | _ :: _ => true
  end.
End WithValue.
Arguments t V : clear implicits.
End Dict.

(** [x in l] for a list of strings. *)
Definition str_in (x : string) (l : list string) : bool :=
  existsb (String.eqb x) l.

(** [min(l, key=...)] on a non-empty list [x :: l]: the first element whose
    key is minimal; the running best is replaced only by a strictly smaller
    key. *)
Fixpoint min_from {A K : Type} (ltb : K -> K -> bool) (key : A -> K)
    (best : A) (l : list A) : A :=
  match l with
  | [] => best
  | x :: r =>
      if ltb (key x) (key best) then min_from ltb key x r
      else min_from ltb key best r
  end.

Definition Qltb (a b : Q) : bool :=
  match Qcompare a b with
  | Lt => true
  | _ => false
  end.

(** ** core/node_status.py *)

Inductive NodeStatus : Type := PENDING | MENTIONED | EXHAUSTED.

Definition NodeStatus_value (s : NodeStatus) : string :=
  match s with
  | PENDING => "pending"
  | MENTIONED => "mentioned"
  | EXHAUSTED => "exhausted"
  end.

(** [NodeStatus(value)] *)
Definition NodeStatus_of_value (v : string) : result NodeStatus :=
  if String.eqb v "pending" then Ok PENDING
  else if String.eqb v "mentioned" then Ok MENTIONED
  else if String.eqb v "exhausted" then Ok EXHAUSTED
  else Raise (ValueError v).

Definition NodeStatus_eqb (a b : NodeStatus) : bool :=
  match a, b with
  | PENDING, PENDING | MENTIONED, MENTIONED | EXHAUSTED, EXHAUSTED => true
  | _, _ => false
  end.

(** Position of a status on the path PENDING --> MENTIONED --> EXHAUSTED. *)
Definition status_rank (s : NodeStatus) : Z :=
  match s with
  | PENDING => 0
  | MENTIONED => 1
  | EXHAUSTED => 2
  end.

Inductive Domain : Type :=
| LIFE_CHAPTERS
| KEY_SCENES
| FUTURE_SCRIPTS
| CHALLENGES
| PERSONAL_IDEOLOGY
| CONTEXT_MANAGEMENT.

Definition Domain_value (d : Domain) : string :=
  match d with
  | LIFE_CHAPTERS => "life_chapters"
  | KEY_SCENES => "key_scenes"
  | FUTURE_SCRIPTS => "future_scripts"
  | CHALLENGES => "challenges"
  | PERSONAL_IDEOLOGY => "personal_ideology"
  | CONTEXT_MANAGEMENT => "context_management"
  end.

(** [Domain(value)] *)
Definition Domain_of_value (v : string) : result Domain :=
  if String.eqb v "life_chapters" then Ok LIFE_CHAPTERS
  else if String.eqb v "key_scenes" then Ok KEY_SCENES
  else if String.eqb v "future_scripts" then Ok FUTURE_SCRIPTS
  else if String.eqb v "challenges" then Ok CHALLENGES
  else if String.eqb v "personal_ideology" then Ok PERSONAL_IDEOLOGY
  else if String.eqb v "context_management" then Ok CONTEXT_MANAGEMENT
  else Raise (ValueError v).

Definition Domain_eqb (a b : Domain) : bool :=
  String.eqb (Domain_value a) (Domain_value b).

(** [for domain in Domain]: the members in definition order. *)
Definition all_domains : list Domain :=
  [LIFE_CHAPTERS; KEY_SCENES; FUTURE_SCRIPTS; CHALLENGES; PERSONAL_IDEOLOGY;
   CONTEXT_MANAGEMENT].

(** ** core/theme_node.py *)

Module ThemeNode.

(** The dataclass.  [domain] is [None] only for a node that [from_dict]
    built from a record without a ["domain"] key. *)
Record t : Type := mk {
  theme_id : string;
  domain : option Domain;
  title : string;
  description : string;
  seed_questions : list string;
  current_question_index : Z;
  status : NodeStatus;
  exploration_depth : Z;
  slots_filled : Dict.t bool;
  extracted_events : list string;
  trigger_logic : option json;
  priority : Z;
  depends_on : list string;
  created_at : datetime;
  first_mentioned_at : option datetime;
  exhausted_at : option datetime;
  metadata : Dict.t json
}.

Definition with_status (n : t) (s : NodeStatus) : t :=
  mk (theme_id n) (domain n) (title n) (description n) (seed_questions n)
     (current_question_index n) s (exploration_depth n) (slots_filled n)
     (extracted_events n) (trigger_logic n) (priority n) (depends_on n)
     (created_at n) (first_mentioned_at n) (exhausted_at n) (metadata n).

Definition with_first_mentioned_at (n : t) (d : option datetime) : t :=
  mk (theme_id n) (domain n) (title n) (description n) (seed_questions n)
     (current_question_index n) (status n) (exploration_depth n)
     (slots_filled n) (extracted_events n) (trigger_logic n) (priority n)
     (depends_on n) (created_at n) d (exhausted_at n) (metadata n).

Definition with_exhausted_at (n : t) (d : option datetime) : t :=
  mk (theme_id n) (domain n) (title n) (description n) (seed_questions n)
     (current_question_index n) (status n) (exploration_depth n)
     (slots_filled n) (extracted_events n) (trigger_logic n) (priority n)
     (depends_on n) (created_at n) (first_mentioned_at n) d (metadata n).

Definition with_current_question_index (n : t) (i : Z) : t :=
  mk (theme_id n) (domain n) (title n) (description n) (seed_questions n)
     i (status n) (exploration_depth n) (slots_filled n)
     (extracted_events n) (trigger_logic n) (priority n) (depends_on n)
     (created_at n) (first_mentioned_at n) (exhausted_at n) (metadata n).

Definition with_exploration_depth (n : t) (d : Z) : t :=
  mk (theme_id n) (domain n) (title n) (description n) (seed_questions n)
     (current_question_index n) (status n) d (slots_filled n)
     (extracted_events n) (trigger_logic n) (priority n) (depends_on n)
     (created_at n) (first_mentioned_at n) (exhausted_at n) (metadata n).

Definition with_slots_filled (n : t) (s : Dict.t bool) : t :=
  mk (theme_id n) (domain n) (title n) (description n) (seed_questions n)
     (current_question_index n) (status n) (exploration_depth n) s
     (extracted_events n) (trigger_logic n) (priority n) (depends_on n)
     (created_at n) (first_mentioned_at n) (exhausted_at n) (metadata n).

Definition with_extracted_events (n : t) (l : list string) : t :=
  mk (theme_id n) (domain n) (title n) (description n) (seed_questions n)
     (current_question_index n) (status n) (exploration_depth n)
     (slots_filled n) l (trigger_logic n) (priority n) (depends_on n)
     (created_at n) (first_mentioned_at n) (exhausted_at n) (metadata n).

Definition mark_mentioned (now : datetime) (self : t) : t :=
  if NodeStatus_eqb (status self) PENDING
  then with_first_mentioned_at (with_status self MENTIONED) (Some now)
  else self.

Definition mark_exhausted (now : datetime) (self : t) : t :=
  with_exhausted_at (with_status self EXHAUSTED) (Some now).

(** [min(self.exploration_depth / 5.0, 1.0)] *)
Definition depth_ratio (self : t) : Q :=
  Qmin (Qmake (exploration_depth self) 5) 1.

Definition filled_count (self : t) : nat :=
  List.length (filter (fun v : bool => v) (Dict.values (slots_filled self))).

Definition get_completion_ratio (self : t) : Q :=
  if negb (Dict.truthy (slots_filled self)) then depth_ratio self
  else
    let total_count := List.length (slots_filled self) in
    if (0 <? Z.of_nat (filled_count self))
    then Qmake (Z.of_nat (filled_count self)) (Pos.of_nat total_count)
    else depth_ratio self.

Definition is_ready_to_explore (self : t) (graph_state : option (Dict.t t))
  : bool :=
  match depends_on self with
  | [] => true
  | _ :: _ =>
      match graph_state with
      | None => false
      | Some gs =>
          forallb
            (fun dep_id =>
               match Dict.get gs dep_id with
               | Some dep => NodeStatus_eqb (status dep) EXHAUSTED
               | None => false
               end)
            (depends_on self)
      end
  end.

Definition get_next_seed_question (self : t) : t * option string :=
  let i := current_question_index self in
  if (0 <=? i) && (i <? Z.of_nat (List.length (seed_questions self)))
  then (with_current_question_index self (i + 1),
        nth_error (seed_questions self) (Z.to_nat i))
  else (self, None).

Definition reset_question_index (self : t) : t :=
  with_current_question_index self 0.

Definition has_more_questions (self : t) : bool :=
  current_question_index self <? Z.of_nat (List.length (seed_questions self)).

Definition increment_depth (self : t) : t :=
  with_exploration_depth self (Z.min (exploration_depth self + 1) 5).

Definition update_slot (slot_name : string) (filled : bool) (self : t) : t :=
  with_slots_filled self (Dict.set (slots_filled self) slot_name filled).

Definition add_extracted_event (event_id : string) (self : t) : t :=
  if negb (str_in event_id (extracted_events self))
  then with_extracted_events self (extracted_events self ++ [event_id])
  else self.

(** The record [to_dict] returns: exactly the keys it writes. *)
Record dict : Type := mk_dict {
  d_theme_id : option string;
  d_domain : option string;
  d_title : option string;
  d_description : option string;
  d_seed_questions : option (list string);
  d_status : option string;
  d_exploration_depth : option Z;
  d_slots_filled : option (Dict.t bool);
  d_extracted_events_count : option Z;
  d_priority : option Z;
  d_depends_on : option (list string);
  d_completion_ratio : option Q;
  d_created_at : option isostring;
  d_first_mentioned_at : option isostring;
  d_exhausted_at : option isostring;
  (* keys that [from_dict] reads and [to_dict] never writes *)
  d_trigger_logic : option json;
  d_metadata : option (Dict.t json);
  d_extracted_events : option (list string)
}.

Definition to_dict (self : t) : result dict :=
  domain_value <-
    match domain self with
    | Some d => Ok (Domain_value d)
    | None => Raise (AttributeError "value")
    end ;;
  Ok (mk_dict
        (Some (theme_id self))
        (Some domain_value)
        (Some (title self))
        (Some (description self))
        (Some (seed_questions self))
        (Some (NodeStatus_value (status self)))
        (Some (exploration_depth self))
        (Some (slots_filled self))
        (Some (Z.of_nat (List.length (extracted_events self))))
        (Some (priority self))
        (Some (depends_on self))
        (Some (get_completion_ratio self))
        (Some (isoformat (created_at self)))
        (option_map isoformat (first_mentioned_at self))
        (option_map isoformat (exhausted_at self))
        None None None).

Definition from_dict (now : datetime) (data : dict) : result t :=
  domain <-
    match d_domain data with
    | Some v => d <- Domain_of_value v ;; Ok (Some d)
    | None => Ok None
    end ;;
  status <-
    match d_status data with
    | Some v => NodeStatus_of_value v
    | None => Ok PENDING
    end ;;
  created <- parse_timestamp (d_created_at data) ;;
  let created_at := get_default created now in
  first_mentioned_at <- parse_timestamp (d_first_mentioned_at data) ;;
  exhausted_at <- parse_timestamp (d_exhausted_at data) ;;
  theme_id <- subscript "theme_id" (d_theme_id data) ;;
  title <- subscript "title" (d_title data) ;;
  description <- subscript "description" (d_description data) ;;
  let node :=
    mk theme_id domain title description
       (get_default (d_seed_questions data) [])
       0
       status
       (get_default (d_exploration_depth data) 0)
       (get_default (d_slots_filled data) Dict.empty)
       []
       (d_trigger_logic data)
       (get_default (d_priority data) 5)
       (get_default (d_depends_on data) [])
       created_at first_mentioned_at exhausted_at
       (get_default (d_metadata data) Dict.empty) in
  let extracted_events := get_default (d_extracted_events data) [] in
  Ok (match extracted_events with
      | [] => node
      | _ :: _ => with_extracted_events node extracted_events
      end).

End ThemeNode.

(** ** core/event_node.py *)

Module EventNode.

Record t : Type := mk {
  event_id : string;
  theme_id : string;
  title : string;
  description : string;
  time_anchor : option string;
  location : option string;
  people_involved : list string;
  slots : Dict.t (option string);
  emotional_score : Q;
  information_density : Q;
  depth_level : Z;
  related_events : list string;
  created_at : datetime
}.

Definition default_slots : Dict.t (option string) :=
  [("time", None); ("location", None); ("people", None); ("cause", None);
   ("result", None); ("emotion", None); ("reflection", None)].

(** [__post_init__]; [uuid_hex] is [uuid.uuid4().hex[:12]]. *)
Definition __post_init__ (uuid_hex : string) (self : t) : t :=
  mk (if String.eqb (event_id self) "" then ("evt_" ++ uuid_hex)%string
      else event_id self)
     (theme_id self) (title self) (description self) (time_anchor self)
     (location self) (people_involved self)
     (if negb (Dict.truthy (slots self)) then default_slots
      else slots self)
     (emotional_score self) (information_density self) (depth_level self)
     (related_events self) (created_at self).

Definition with_slots (self : t) (s : Dict.t (option string)) : t :=
  mk (event_id self) (theme_id self) (title self) (description self)
     (time_anchor self) (location self) (people_involved self) s
     (emotional_score self) (information_density self) (depth_level self)
     (related_events self) (created_at self).

Definition with_people_involved (self : t) (l : list string) : t :=
  mk (event_id self) (theme_id self) (title self) (description self)
     (time_anchor self) (location self) l (slots self)
     (emotional_score self) (information_density self) (depth_level self)
     (related_events self) (created_at self).

Definition with_depth_level (self : t) (d : Z) : t :=
  mk (event_id self) (theme_id self) (title self) (description self)
     (time_anchor self) (location self) (people_involved self) (slots self)
     (emotional_score self) (information_density self) d
     (related_events self) (created_at self).

Definition with_related_events (self : t) (l : list string) : t :=
  mk (event_id self) (theme_id self) (title self) (description self)
     (time_anchor self) (location self) (people_involved self) (slots self)
     (emotional_score self) (information_density self) (depth_level self)
     l (created_at self).

(** Truth value of a slot: a non-empty string. *)
Definition slot_truthy (v : option string) : bool :=
  match v with
  | Some s => negb (String.eqb s "")
  | None => false
  end.

Definition get_slot_completion_ratio (self : t) : Q :=
  if negb (Dict.truthy (slots self)) then 0%Q
  else
    let filled := List.length (filter slot_truthy (Dict.values (slots self))) in
    Qmake (Z.of_nat filled) (Pos.of_nat (List.length (slots self))).

(** [value] is [None] or the string [str(value)]; both branches of the
    source store the same thing. *)
Definition update_slot (slot_name : string) (value : option string)
    (self : t) : t :=
  if Dict.contains (slots self) slot_name
  then with_slots self (Dict.set (slots self) slot_name value)
  else with_slots self (Dict.set (slots self) slot_name value).

Definition add_person (person_name : string) (self : t) : t :=
  if negb (String.eqb person_name "")
     && negb (str_in person_name (people_involved self))
  then with_people_involved self (people_involved self ++ [person_name])
  else self.

Definition increment_depth (self : t) : t :=
  with_depth_level self (Z.min (depth_level self + 1) 5).

Definition is_exhausted (self : t) : bool :=
  (4 <=? depth_level self)
  || Qle_bool (8 # 10) (get_slot_completion_ratio self).

Definition add_related_event (event_id : string) (self : t) : t :=
  if negb (str_in event_id (related_events self))
  then with_related_events self (related_events self ++ [event_id])
  else self.

Record dict : Type := mk_dict {
  d_event_id : option string;
  d_theme_id : option string;
  d_title : option string;
  d_description : option string;
  d_time_anchor : option string;
  d_location : option string;
  d_people_involved : option (list string);
  d_slots : option (Dict.t (option string));
  d_emotional_score : option Q;
  d_information_density : option Q;
  d_depth_level : option Z;
  d_slot_completion_ratio : option Q;
  d_related_events : option (list string);
  d_is_exhausted : option bool;
  d_created_at : option isostring
}.

Definition with_d_depth_level (d : dict) (v : option Z) : dict :=
  mk_dict (d_event_id d) (d_theme_id d) (d_title d) (d_description d)
    (d_time_anchor d) (d_location d) (d_people_involved d) (d_slots d)
    (d_emotional_score d) (d_information_density d) v
    (d_slot_completion_ratio d) (d_related_events d) (d_is_exhausted d)
    (d_created_at d).

Definition to_dict (self : t) : dict :=
  mk_dict
    (Some (event_id self))
    (Some (theme_id self))
    (Some (title self))
    (Some (description self))
    (time_anchor self)
    (location self)
    (Some (people_involved self))
    (Some (slots self))
    (Some (emotional_score self))
    (Some (information_density self))
    (Some (depth_level self))
    (Some (get_slot_completion_ratio self))
    (Some (related_events self))
    (Some (is_exhausted self))
    (Some (isoformat (created_at self))).

Definition from_dict (now : datetime) (uuid_hex : string) (data : dict)
  : result t :=
  created <- parse_timestamp (d_created_at data) ;;
  let created_at := get_default created now in
  event_id <- subscript "event_id" (d_event_id data) ;;
  theme_id <- subscript "theme_id" (d_theme_id data) ;;
  title <- subscript "title" (d_title data) ;;
  description <- subscript "description" (d_description data) ;;
  Ok (__post_init__ uuid_hex
        (mk event_id theme_id title description
            (d_time_anchor data)
            (d_location data)
            (get_default (d_people_involved data) [])
            (get_default (d_slots data) Dict.empty)
            (get_default (d_emotional_score data) 0%Q)
            (get_default (d_information_density data) 0%Q)
            (get_default (d_depth_level data) 0)
            (get_default (d_related_events data) [])
            created_at)).

End EventNode.

(** ** Files and logging *)

(** What reading a JSON file yields. *)
Inductive file_read (A : Type) : Type :=
| Missing
| Unreadable (e : exn)
| Parsed (a : A).
Arguments Missing {A}.
Arguments Unreadable {A} e.
Arguments Parsed {A} a.

Inductive log_level : Type := DEBUG | INFO | WARNING | ERROR.

Inductive log_message : Type :=
| MsgThemesFileMissing
| MsgJSONDecodeFailed
| MsgReadFailed
| MsgUnknownDomain (domain_id : string)
| MsgThemesLoaded (theme_count : Z).

Definition log_entry : Type := (log_level * log_message)%type.

Definition is_warning_or_error (e : log_entry) : bool :=
  match fst e with
  | WARNING | ERROR => true
  | _ => false
  end.

(** ** core/theme_loader.py *)

Module ThemeLoader.

(** One theme definition of the catalog. *)
Record theme_def : Type := mk_def {
  def_theme_id : option string;
  def_title : option string;
  def_description : option string;
  def_seed_questions : option (list string);
  def_priority : option Z;
  def_depends_on : option (list string);
  def_trigger_logic : option json;
  def_slots : option (list string);
  def_expected_depth : option Z
}.

Record domain_data : Type := mk_domain_data {
  dd_themes : option (list theme_def)
}.

Record catalog : Type := mk_catalog {
  cat_domains : option (Dict.t domain_data)
}.

Record t : Type := mk {
  _theme_definitions : catalog;
  _theme_nodes : Dict.t ThemeNode.t
}.

(** [ThemeLoader(themes_file)] *)
Definition __init__ : t := mk (mk_catalog None) Dict.empty.

(** [{slot: False for slot in slots}] *)
Definition all_false (slot_names : list string) : Dict.t bool :=
  fold_left (fun d slot => Dict.set d slot false) slot_names Dict.empty.

Definition _create_theme_node (now : datetime) (theme_def : theme_def)
    (domain : Domain) : result ThemeNode.t :=
  theme_id <- subscript "theme_id" (def_theme_id theme_def) ;;
  title <- subscript "title" (def_title theme_def) ;;
  description <- subscript "description" (def_description theme_def) ;;
  Ok (ThemeNode.mk theme_id (Some domain) title description
        (get_default (def_seed_questions theme_def) [])
        0
        PENDING
        0
        (all_false (get_default (def_slots theme_def) []))
        []
        (def_trigger_logic theme_def)
        (get_default (def_priority theme_def) 5)
        (get_default (def_depends_on theme_def) [])
        now None None
        [("expected_depth",
          JInt (get_default (def_expected_depth theme_def) 3))]).

(** The state of the two nested loops of [load]. *)
Record loop_state : Type := mk_loop {
  ls_nodes : Dict.t ThemeNode.t;
  ls_theme_count : Z;
  ls_log : list log_entry
}.

(** The inner loop, over the themes of one domain. *)
Fixpoint load_themes (now : datetime) (domain : Domain)
    (defs : list theme_def) (st : loop_state) : loop_state * option exn :=
  match defs with
  | [] => (st, None)
  | theme_def :: rest =>
      match _create_theme_node now theme_def domain with
      | Raise e => (st, Some e)
      | Ok theme_node =>
          load_themes now domain rest
            (mk_loop
               (Dict.set (ls_nodes st) (ThemeNode.theme_id theme_node)
                  theme_node)
               (ls_theme_count st + 1)
               (ls_log st))
      end
  end.

(** The outer loop, over the domains. *)
Fixpoint load_domains (now : datetime)
    (domains : list (string * domain_data)) (st : loop_state)
  : loop_state * option exn :=
  match domains with
  | [] => (st, None)
  | (domain_id, domain_data) :: rest =>
      match Domain_of_value domain_id with
      | Raise _ =>
          load_domains now rest
            (mk_loop (ls_nodes st) (ls_theme_count st)
               (ls_log st ++ [(WARNING, MsgUnknownDomain domain_id)]))
      | Ok domain =>
          match load_themes now domain
                  (get_default (dd_themes domain_data) []) st with
          | (st', Some e) => (st', Some e)
          | (st', None) => load_domains now rest st'
          end
      end
  end.

(** [load]: the loader afterwards, what the call returns or raises, and
    what it logged. *)
Definition load (now : datetime) (themes_file : file_read catalog)
    (self : t) : t * result (Dict.t ThemeNode.t) * list log_entry :=
  match themes_file with
  | Missing =>
      (self, Raise FileNotFoundError, [(ERROR, MsgThemesFileMissing)])
  | Unreadable JSONDecodeError =>
      (self, Raise JSONDecodeError, [(ERROR, MsgJSONDecodeFailed)])
  | Unreadable e => (self, Raise e, [(ERROR, MsgReadFailed)])
  | Parsed definitions =>
      match load_domains now
              (Dict.items (get_default (cat_domains definitions) Dict.empty))
              (mk_loop Dict.empty 0 []) with
      | (st, Some e) => (mk definitions (ls_nodes st), Raise e, ls_log st)
      | (st, None) =>
          (mk definitions (ls_nodes st),
           Ok (ls_nodes st),
           ls_log st ++ [(INFO, MsgThemesLoaded (ls_theme_count st))])
      end
  end.

Definition get_theme_by_id (self : t) (theme_id : string)
  : option ThemeNode.t :=
  Dict.get (_theme_nodes self) theme_id.

Definition get_theme_count (self : t) : Z := Dict.len (_theme_nodes self).

(** The definitions [load] turns into nodes, in the order it does, each
    with the domain it is listed under. *)
Definition processed_defs (c : catalog) : list (Domain * theme_def) :=
  flat_map
    (fun '(domain_id, domain_data) =>
       match Domain_of_value domain_id with
       | Ok domain => map (pair domain) (get_default (dd_themes domain_data) [])
       | Raise _ => []
       end)
    (get_default (cat_domains c) Dict.empty).

(** The domain keys that [Domain(...)] rejects. *)
Definition unknown_domains (c : catalog) : list string :=
  filter
    (fun domain_id =>
       match Domain_of_value domain_id with
       | Ok _ => false
       | Raise _ => true
       end)
    (Dict.keys (get_default (cat_domains c) Dict.empty)).

(** The keys [_create_theme_node] subscripts are there. *)
Definition has_required (d : theme_def) : bool :=
  match def_theme_id d, def_title d, def_description d with
  | Some _, Some _, Some _ => true
  | _, _, _ => false
  end.

Definition defines (theme_id : string) (pd : Domain * theme_def) : bool :=
  match def_theme_id (snd pd) with
  | Some i => String.eqb i theme_id
  | None => false
  end.

(** The last definition of [theme_id] among [defs]. *)
Definition last_definition (theme_id : string)
    (defs : list (Domain * theme_def)) : option (Domain * theme_def) :=
  find (defines theme_id) (rev defs).

(** [node.domain == domain] *)
Definition in_domain (domain : Domain) (node : ThemeNode.t) : bool :=
  match ThemeNode.domain node with
  | Some d => Domain_eqb d domain
  | None => false
  end.

Definition get_themes_by_domain (self : t) (domain : Domain)
  : list ThemeNode.t :=
  filter (in_domain domain) (Dict.values (_theme_nodes self)).

(** [graph_state or self._theme_nodes]: an absent or empty [graph_state]
    gives way to the loader's own map. *)
Definition state_or_own (self : t) (graph_state : option (Dict.t ThemeNode.t))
  : Dict.t ThemeNode.t :=
  match graph_state with
  | Some gs => if Dict.truthy gs then gs else _theme_nodes self
  | None => _theme_nodes self
  end.

Definition get_pending_themes (self : t)
    (graph_state : option (Dict.t ThemeNode.t)) : list ThemeNode.t :=
  filter
    (fun node =>
       NodeStatus_eqb (ThemeNode.status node) PENDING
       && ThemeNode.is_ready_to_explore node
            (Some (state_or_own self graph_state)))
    (Dict.values (_theme_nodes self)).

Definition get_mentioned_themes (self : t) : list ThemeNode.t :=
  filter (fun node => NodeStatus_eqb (ThemeNode.status node) MENTIONED)
    (Dict.values (_theme_nodes self)).

Definition get_exhausted_themes (self : t) : list ThemeNode.t :=
  filter (fun node => NodeStatus_eqb (ThemeNode.status node) EXHAUSTED)
    (Dict.values (_theme_nodes self)).

(** [sort_key] of [get_next_priority_theme], and [<] on such tuples. *)
Definition sort_key (node : ThemeNode.t) : Z * Z :=
  (ThemeNode.priority node,
   if NodeStatus_eqb (ThemeNode.status node) MENTIONED then 0 else 1).

Definition tuple_ltb (a b : Z * Z) : bool :=
  (fst a <? fst b) || ((fst a =? fst b) && (snd a <? snd b)).

(** The list [candidates] of [get_next_priority_theme]. *)
Definition candidates (self : t) (graph_state : option (Dict.t ThemeNode.t))
  : list ThemeNode.t :=
  filter
    (fun node =>
       (NodeStatus_eqb (ThemeNode.status node) PENDING
        || NodeStatus_eqb (ThemeNode.status node) MENTIONED)
       && ThemeNode.is_ready_to_explore node
            (Some (state_or_own self graph_state)))
    (Dict.values (_theme_nodes self)).

Definition get_next_priority_theme (self : t)
    (graph_state : option (Dict.t ThemeNode.t)) : option ThemeNode.t :=
  match candidates self graph_state with
  | [] => None
  | c :: cs => Some (min_from tuple_ltb sort_key c cs)
  end.

(** [self._theme_nodes.copy()] *)
Definition get_all_themes (self : t) : Dict.t ThemeNode.t :=
  _theme_nodes self.

Record domain_summary : Type := mk_summary {
  label : string;
  count : Z;
  theme_ids : list string
}.

Definition get_domains_summary (self : t) : Dict.t domain_summary :=
  fold_left
    (fun summary domain =>
       let themes := get_themes_by_domain self domain in
       Dict.set summary (Domain_value domain)
         (mk_summary (Domain_value domain)
            (Z.of_nat (List.length themes))
            (map ThemeNode.theme_id themes)))
    all_domains Dict.empty.

Definition reload (now : datetime) (themes_file : file_read catalog)
    (self : t) : t * result (Dict.t ThemeNode.t) * list log_entry :=
  load now themes_file (mk (_theme_definitions self) Dict.empty).

End ThemeLoader.

(** ** core/graph_manager.py *)

Module GraphManager.

(** The ["data"] entry of a graph node: the [to_dict] record of a theme or
    of an event.  [update_event_depth] writes a ["depth_level"] key and
    [_update_node_status] a ["status"] key into whatever record sits under
    the id, so each kind carries the key that is foreign to it. *)
Inductive NodeData : Type :=
| ThemeData (d : ThemeNode.dict) (depth_level : option Z)
| EventData (d : EventNode.dict) (status : option string).

Record GraphNode : Type := mk_node {
  node_type : string;
  status : string;
  data : NodeData
}.

(** [self.graph] of the plain structure: [{"nodes": ..., "edges": ...}]. *)
Record Graph : Type := mk_graph {
  nodes : Dict.t GraphNode;
  edges : Dict.t (list string)
}.

(** The object.  [theme_loader._theme_nodes] and [theme_nodes] are one and
    the same dict after a successful [load]; the operations below read and
    write [theme_nodes] only. *)
Record t : Type := mk {
  theme_loader : ThemeLoader.t;
  graph : Graph;
  theme_nodes : Dict.t ThemeNode.t;
  event_nodes : Dict.t EventNode.t
}.

(** The three files of a session directory, as a reader finds them. *)
Record checkpoint : Type := mk_checkpoint {
  graph_state_json : file_read Graph;
  themes_state_json : file_read (Dict.t ThemeNode.dict);
  events_json : file_read (Dict.t EventNode.dict)
}.

Definition no_checkpoint : checkpoint := mk_checkpoint Missing Missing Missing.

(** What the file system does to one [open(..., "w")] / [json.dump]. *)
Inductive write_outcome : Type :=
| Written
| OpenFailed (e : exn)
| DumpFailed (e : exn).

(** What the file system does during one [save_checkpoint]. *)
Record write_env : Type := mk_env {
  mkdir : option exn;
  write_graph_state : write_outcome;
  write_themes_state : write_outcome;
  write_events : write_outcome
}.

Definition all_written : write_env := mk_env None Written Written Written.

(** What a call does: returns a value or lets an exception escape. *)
Inductive outcome (A : Type) : Type :=
| Returns (a : A)
| Propagates (e : exn).
Arguments Returns {A} a.
Arguments Propagates {A} e.

Definition with_graph (self : t) (g : Graph) : t :=
  mk (theme_loader self) g (theme_nodes self) (event_nodes self).

Definition with_theme_nodes (self : t) (d : Dict.t ThemeNode.t) : t :=
  mk (theme_loader self) (graph self) d (event_nodes self).

Definition with_event_nodes (self : t) (d : Dict.t EventNode.t) : t :=
  mk (theme_loader self) (graph self) (theme_nodes self) d.

Definition with_theme_loader (self : t) (l : ThemeLoader.t) : t :=
  mk l (graph self) (theme_nodes self) (event_nodes self).

(** [edges[src].append(dst)], creating the list when [src] is new. *)
Definition add_dependency_edge (edges : Dict.t (list string))
    (src dst : string) : Dict.t (list string) :=
  Dict.set edges src (get_default (Dict.get edges src) [] ++ [dst]).

(** The loop of [_initialize_graph] over the themes. *)
Fixpoint initialize_nodes (themes : list (string * ThemeNode.t))
    (g : Graph) : Graph * option exn :=
  match themes with
  | [] => (g, None)
  | (theme_id, theme_node) :: rest =>
      match ThemeNode.to_dict theme_node with
      | Raise e => (g, Some e)
      | Ok d =>
          initialize_nodes rest
            (mk_graph
               (Dict.set (nodes g) theme_id
                  (mk_node "theme" (NodeStatus_value PENDING)
                     (ThemeData d None)))
               (fold_left
                  (fun es dep_id => add_dependency_edge es dep_id theme_id)
                  (ThemeNode.depends_on theme_node) (edges g)))
      end
  end.

Definition _initialize_graph (now : datetime)
    (themes_file : file_read ThemeLoader.catalog) (self : t)
  : t * option exn :=
  match ThemeLoader.load now themes_file (theme_loader self) with
  | (loader, Raise e, _) => (with_theme_loader self loader, Some e)
  | (loader, Ok themes, _) =>
      let self := with_theme_nodes (with_theme_loader self loader) themes in
      let (g, raised) :=
        initialize_nodes (Dict.items themes)
          (mk_graph Dict.empty Dict.empty) in
      (with_graph self g, raised)
  end.

(** [GraphManager(theme_loader, use_networkx=False)] *)
Definition __init__ (now : datetime)
    (themes_file : file_read ThemeLoader.catalog)
    (theme_loader : ThemeLoader.t) : result t :=
  match _initialize_graph now themes_file
          (mk theme_loader (mk_graph Dict.empty Dict.empty)
              Dict.empty Dict.empty) with
  | (self, None) => Ok self
  | (_, Some e) => Raise e
  end.

Definition set_data_status (d : NodeData) (v : string) : NodeData :=
  match d with
  | ThemeData td dl =>
      ThemeData
        (ThemeNode.mk_dict
           (ThemeNode.d_theme_id td) (ThemeNode.d_domain td)
           (ThemeNode.d_title td) (ThemeNode.d_description td)
           (ThemeNode.d_seed_questions td) (Some v)
           (ThemeNode.d_exploration_depth td) (ThemeNode.d_slots_filled td)
           (ThemeNode.d_extracted_events_count td) (ThemeNode.d_priority td)
           (ThemeNode.d_depends_on td) (ThemeNode.d_completion_ratio td)
           (ThemeNode.d_created_at td) (ThemeNode.d_first_mentioned_at td)
           (ThemeNode.d_exhausted_at td) (ThemeNode.d_trigger_logic td)
           (ThemeNode.d_metadata td) (ThemeNode.d_extracted_events td))
        dl
  | EventData ed _ => EventData ed (Some v)
  end.

Definition set_data_depth_level (d : NodeData) (v : Z) : NodeData :=
  match d with
  | ThemeData td _ => ThemeData td (Some v)
  | EventData ed st => EventData (EventNode.with_d_depth_level ed (Some v)) st
  end.

Definition _update_node_status (node_id : string) (st : NodeStatus)
    (g : Graph) : Graph :=
  match Dict.get (nodes g) node_id with
  | Some n =>
      mk_graph
        (Dict.set (nodes g) node_id
           (mk_node (node_type n) (NodeStatus_value st)
              (set_data_status (data n) (NodeStatus_value st))))
        (edges g)
  | None => g
  end.

Definition add_event_node (now : datetime) (event : EventNode.t)
    (theme_id : string) (self : t) : t * bool :=
  if negb (Dict.contains (theme_nodes self) theme_id) then (self, false)
  else
    let event_id := EventNode.event_id event in
    let self := with_event_nodes self
                  (Dict.set (event_nodes self) event_id event) in
    let g := graph self in
    let contained := get_default (Dict.get (edges g) theme_id) [] in
    let g :=
      mk_graph
        (Dict.set (nodes g) event_id
           (mk_node "event" "active"
              (EventData (EventNode.to_dict event) None)))
        (Dict.set (edges g) theme_id
           (if negb (str_in event_id contained)
            then contained ++ [event_id] else contained)) in
    let self := with_graph self g in
    match Dict.get (theme_nodes self) theme_id with
    | Some theme =>
        let theme := ThemeNode.add_extracted_event event_id theme in
        let theme := ThemeNode.increment_depth theme in
        if NodeStatus_eqb (ThemeNode.status theme) PENDING
        then
          let theme := ThemeNode.mark_mentioned now theme in
          (with_graph
             (with_theme_nodes self
                (Dict.set (theme_nodes self) theme_id theme))
             (_update_node_status theme_id MENTIONED (graph self)),
           true)
        else
          (with_theme_nodes self
             (Dict.set (theme_nodes self) theme_id theme),
           true)
    | None => (self, true)
    end.

Definition update_event_depth (event_id : string) (new_depth : Z)
    (self : t) : t * bool :=
  match Dict.get (event_nodes self) event_id with
  | Some event =>
      let event := EventNode.with_depth_level event (Z.min new_depth 5) in
      let self := with_event_nodes self
                    (Dict.set (event_nodes self) event_id event) in
      let g := graph self in
      match Dict.get (nodes g) event_id with
      | Some n =>
          (with_graph self
             (mk_graph
                (Dict.set (nodes g) event_id
                   (mk_node (node_type n) (status n)
                      (set_data_depth_level (data n)
                         (EventNode.depth_level event))))
                (edges g)),
           true)
      | None => (self, true)
      end
  | None => (self, false)
  end.

Definition mark_theme_exhausted (now : datetime) (theme_id : string)
    (self : t) : t * bool :=
  match Dict.get (theme_nodes self) theme_id with
  | Some theme =>
      let theme := ThemeNode.mark_exhausted now theme in
      (with_graph
         (with_theme_nodes self (Dict.set (theme_nodes self) theme_id theme))
         (_update_node_status theme_id EXHAUSTED (graph self)),
       true)
  | None => (self, false)
  end.

Definition nodes_with_status (st : NodeStatus) (self : t)
  : list ThemeNode.t :=
  filter (fun node => NodeStatus_eqb (ThemeNode.status node) st)
    (Dict.values (theme_nodes self)).

Definition get_pending_theme_nodes : t -> list ThemeNode.t :=
  nodes_with_status PENDING.

Definition get_mentioned_theme_nodes : t -> list ThemeNode.t :=
  nodes_with_status MENTIONED.

Definition get_exhausted_theme_nodes : t -> list ThemeNode.t :=
  nodes_with_status EXHAUSTED.

(** The list [pending] of [get_next_candidate_theme]. *)
Definition ready_pending (self : t) : list ThemeNode.t :=
  filter
    (fun node =>
       NodeStatus_eqb (ThemeNode.status node) PENDING
       && ThemeNode.is_ready_to_explore node (Some (theme_nodes self)))
    (Dict.values (theme_nodes self)).

Definition get_next_candidate_theme (current_focus : option string)
    (self : t) : option ThemeNode.t :=
  match get_mentioned_theme_nodes self with
  | m :: mentioned =>
      Some (min_from Qltb ThemeNode.get_completion_ratio m mentioned)
  | [] =>
      match ready_pending self with
      | [] => None
      | p :: pending => Some (min_from Z.ltb ThemeNode.priority p pending)
      end
  end.

(** One [with open(path, "w") as f: json.dump(content, f)]: the file
    afterwards, and the exception raised if any. *)
Definition write_file {A : Type} (o : write_outcome) (content : A)
    (old : file_read A) : file_read A * option exn :=
  match o with
  | Written => (Parsed content, None)
  | OpenFailed e => (old, Some e)
  | DumpFailed e => (Unreadable JSONDecodeError, Some e)
  end.

(** [{theme_id: node.to_dict() for theme_id, node in ...items()}] *)
Fixpoint themes_data (items : list (string * ThemeNode.t))
    (acc : Dict.t ThemeNode.dict) : result (Dict.t ThemeNode.dict) :=
  match items with
  | [] => Ok acc
  | (theme_id, node) :: rest =>
      d <- ThemeNode.to_dict node ;;
      themes_data rest (Dict.set acc theme_id d)
  end.

(** [{event_id: node.to_dict() for event_id, node in ...items()}] *)
Definition events_data (items : list (string * EventNode.t))
  : Dict.t EventNode.dict :=
  fold_left (fun acc '(event_id, node) =>
               Dict.set acc event_id (EventNode.to_dict node))
    items Dict.empty.

(** [save_checkpoint(session_id, output_dir)]: [dir] is the content of the
    session directory before the call; the result is what the call does and
    the content of the directory afterwards.  The object is not changed. *)
Definition save_checkpoint (env : write_env) (dir : checkpoint) (self : t)
  : outcome bool * checkpoint :=
  match mkdir env with
  | Some e => (Propagates e, dir)
  | None =>
      (* try: *)
      match write_file (write_graph_state env) (graph self)
              (graph_state_json dir) with
      | (f1, Some _) =>
          (Returns false,
           mk_checkpoint f1 (themes_state_json dir) (events_json dir))
      | (f1, None) =>
          match themes_data (Dict.items (theme_nodes self)) Dict.empty with
          | Raise _ =>
              (Returns false,
               mk_checkpoint f1 (themes_state_json dir) (events_json dir))
          | Ok td =>
              match write_file (write_themes_state env) td
                      (themes_state_json dir) with
              | (f2, Some _) =>
                  (Returns false, mk_checkpoint f1 f2 (events_json dir))
              | (f2, None) =>
                  match write_file (write_events env)
                          (events_data (Dict.items (event_nodes self)))
                          (events_json dir) with
                  | (f3, Some _) => (Returns false, mk_checkpoint f1 f2 f3)
                  | (f3, None) => (Returns true, mk_checkpoint f1 f2 f3)
                  end
              end
          end
      end
  end.

(** The loop of [load_checkpoint] over [themes_data.items()]. *)
Fixpoint restore_themes (themes_data : list (string * ThemeNode.dict))
    (theme_nodes : Dict.t ThemeNode.t)
  : Dict.t ThemeNode.t * option exn :=
  match themes_data with
  | [] => (theme_nodes, None)
  | (theme_id, theme_dict) :: rest =>
      match Dict.get theme_nodes theme_id with
      | Some theme =>
          match (v <- subscript "status" (ThemeNode.d_status theme_dict) ;;
                 NodeStatus_of_value v) with
          | Raise e => (theme_nodes, Some e)
          | Ok st =>
              let theme := ThemeNode.with_status theme st in
              let theme :=
                ThemeNode.with_exploration_depth theme
                  (get_default (ThemeNode.d_exploration_depth theme_dict) 0)
              in
              let theme :=
                ThemeNode.with_slots_filled theme
                  (get_default (ThemeNode.d_slots_filled theme_dict)
                     Dict.empty) in
              restore_themes rest (Dict.set theme_nodes theme_id theme)
          end
      | None => restore_themes rest theme_nodes
      end
  end.

(** The loop of [load_checkpoint] over [events_data.items()]; [uuid i] is
    the identifier [uuid4] would give to the [i]-th event. *)
Fixpoint restore_events (now : datetime) (uuid : nat -> string) (i : nat)
    (events_data : list (string * EventNode.dict))
    (event_nodes : Dict.t EventNode.t)
  : Dict.t EventNode.t * option exn :=
  match events_data with
  | [] => (event_nodes, None)
  | (event_id, event_dict) :: rest =>
      match EventNode.from_dict now (uuid i) event_dict with
      | Raise e => (event_nodes, Some e)
      | Ok event =>
          restore_events now uuid (S i) rest
            (Dict.set event_nodes event_id event)
      end
  end.

(** [load_checkpoint(session_id, input_dir)]: every exception of the body
    is caught, by [except FileNotFoundError] or by [except Exception], and
    the call returns [False]; what was assigned before stays assigned. *)
Definition load_checkpoint (now : datetime) (uuid : nat -> string)
    (dir : checkpoint) (self : t) : t * bool :=
  match graph_state_json dir with
  | Missing | Unreadable _ => (self, false)
  | Parsed graph_data =>
      let self := with_graph self graph_data in
      match themes_state_json dir with
      | Missing | Unreadable _ => (self, false)
      | Parsed themes_data =>
          let (themes, raised) :=
            restore_themes (Dict.items themes_data) (theme_nodes self) in
          let self := with_theme_nodes self themes in
          match raised with
          | Some _ => (self, false)
          | None =>
              match events_json dir with
              | Missing | Unreadable _ => (self, false)
              | Parsed events_data =>
                  let (events, raised) :=
                    restore_events now uuid 0 (Dict.items events_data)
                      (event_nodes self) in
                  let self := with_event_nodes self events in
                  match raised with
                  | Some _ => (self, false)
                  | None => (self, true)
                  end
              end
          end
      end
  end.

Definition reset (now : datetime)
    (themes_file : file_read ThemeLoader.catalog) (self : t)
  : t * option exn :=
  _initialize_graph now themes_file (with_event_nodes self Dict.empty).

(** *** Sequences of calls *)

(** A method of [ThemeNode] that changes the object. *)
Inductive theme_method : Type :=
| MarkMentioned (now : datetime)
| MarkExhausted (now : datetime)
| GetNextSeedQuestion
| ResetQuestionIndex
| IncrementDepth
| UpdateSlot (slot_name : string) (filled : bool)
| AddExtractedEvent (event_id : string).

Definition call_theme_method (m : theme_method) (n : ThemeNode.t)
  : ThemeNode.t :=
  match m with
  | MarkMentioned now => ThemeNode.mark_mentioned now n
  | MarkExhausted now => ThemeNode.mark_exhausted now n
  | GetNextSeedQuestion => fst (ThemeNode.get_next_seed_question n)
  | ResetQuestionIndex => ThemeNode.reset_question_index n
  | IncrementDepth => ThemeNode.increment_depth n
  | UpdateSlot slot_name filled => ThemeNode.update_slot slot_name filled n
  | AddExtractedEvent event_id => ThemeNode.add_extracted_event event_id n
  end.

(** One call on a live manager, or on one of the theme objects it holds. *)
Inductive op : Type :=
| AddEventNode (now : datetime) (event : EventNode.t) (theme_id : string)
| UpdateEventDepth (event_id : string) (new_depth : Z)
| MarkThemeExhausted (now : datetime) (theme_id : string)
| SaveCheckpoint (env : write_env) (dir : checkpoint)
| LoadCheckpoint (now : datetime) (uuid : nat -> string) (dir : checkpoint)
| Reset (now : datetime) (themes_file : file_read ThemeLoader.catalog)
| OnTheme (theme_id : string) (m : theme_method).

(** The manager after the call, whatever the call returned or raised. *)
Definition step (self : t) (o : op) : t :=
  match o with
  | AddEventNode now event theme_id =>
      fst (add_event_node now event theme_id self)
  | UpdateEventDepth event_id new_depth =>
      fst (update_event_depth event_id new_depth self)
  | MarkThemeExhausted now theme_id =>
      fst (mark_theme_exhausted now theme_id self)
  | SaveCheckpoint _ _ => self
  | LoadCheckpoint now uuid dir => fst (load_checkpoint now uuid dir self)
  | Reset now themes_file => fst (reset now themes_file self)
  | OnTheme theme_id m =>
      match Dict.get (theme_nodes self) theme_id with
      | Some n =>
          with_theme_nodes self
            (Dict.set (theme_nodes self) theme_id (call_theme_method m n))
      | None => self
      end
  end.

Definition run (ops : list op) (self : t) : t := fold_left step ops self.

(** The calls that put stored or initial state back. *)
Definition restores (o : op) : bool :=
  match o with
  | LoadCheckpoint _ _ _ | Reset _ _ => true
  | _ => false
  end.

(** A state a session can be in: a constructed manager, then calls. *)
Definition reachable (gm : t) : Prop :=
  exists now themes_file loader gm0 ops,
    __init__ now themes_file loader = Ok gm0 /\ run ops gm0 = gm.

(** The ids of the events of the collection whose [theme_id] is [tid]. *)
Definition events_owned_by (tid : string) (self : t) : list string :=
  map fst
    (filter (fun '(_, e) => String.eqb (EventNode.theme_id e) tid)
       (Dict.items (event_nodes self))).

(** Lists as sets of ids. *)
Definition same_ids (a b : list string) : bool :=
  forallb (fun x => str_in x b) a && forallb (fun x => str_in x a) b.

(** The bidirectional consistency of themes and events, as a check. *)
Definition consistent (self : t) : bool :=
  forallb
    (fun '(tid, theme) =>
       same_ids (ThemeNode.extracted_events theme) (events_owned_by tid self))
    (Dict.items (theme_nodes self)).

(** The record [get_theme_status] returns. *)
Record theme_status : Type := mk_status {
  ts_theme_id : string;
  ts_title : string;
  ts_status : string;
  ts_completion_ratio : Q;
  ts_exploration_depth : Z;
  ts_slots_filled : Dict.t bool;
  ts_extracted_events_count : Z;
  ts_has_more_questions : bool
}.

Definition get_theme_status (theme_id : string) (self : t)
  : option theme_status :=
  match Dict.get (theme_nodes self) theme_id with
  | None => None
  | Some theme =>
      Some (mk_status
              (ThemeNode.theme_id theme)
              (ThemeNode.title theme)
              (NodeStatus_value (ThemeNode.status theme))
              (ThemeNode.get_completion_ratio theme)
              (ThemeNode.exploration_depth theme)
              (ThemeNode.slots_filled theme)
              (Z.of_nat (List.length (ThemeNode.extracted_events theme)))
              (ThemeNode.has_more_questions theme))
  end.

End GraphManager.

(** ** A small session

    A catalog of three themes in one domain, ["T"] depending on ["X"], and
    the states of a session on it; the examples below run the code on
    them. *)

Module Sample.

Definition theme (theme_id : string) (priority : Z)
    (depends_on : list string) : ThemeLoader.theme_def :=
  ThemeLoader.mk_def (Some theme_id) (Some "title") (Some "description")
    (Some ["q1"; "q2"]) (Some priority) (Some depends_on) None None None.

Definition catalog : ThemeLoader.catalog :=
  ThemeLoader.mk_catalog
    (Some [("life_chapters",
            ThemeLoader.mk_domain_data
              (Some [theme "X" 1 []; theme "T" 2 ["X"]; theme "A" 3 []]))]).

(** [EventNode(event_id=..., theme_id=..., title=..., description=...)] *)
Definition event (event_id theme_id : string) : EventNode.t :=
  EventNode.__post_init__ "0123456789ab"
    (EventNode.mk event_id theme_id "title" "description" None None []
       Dict.empty 0%Q 0%Q 0 [] 0).

Definition uuid (i : nat) : string := "0123456789ab".

(** The node the loader builds for ["A"] at time 0. *)
Definition node_A : ThemeNode.t :=
  ThemeNode.mk "A" (Some LIFE_CHAPTERS) "title" "description" ["q1"; "q2"]
    0 PENDING 0 Dict.empty [] None 3 [] 0 None None
    [("expected_depth", JInt 3)].

(** [GraphManager(use_networkx=False)] on the catalog. *)
Definition fresh : GraphManager.t :=
  Eval vm_compute in
    match GraphManager.__init__ 0 (Parsed catalog) ThemeLoader.__init__ with
    | Ok gm => gm
    | Raise _ =>
        GraphManager.mk ThemeLoader.__init__
          (GraphManager.mk_graph Dict.empty Dict.empty)
          Dict.empty Dict.empty
    end.

End Sample.

(** ** Vocabulary of the statements *)

(** [x] is the first element of [l] whose key is minimal. *)
Definition first_min {A K : Type} (lt le : K -> K -> Prop) (key : A -> K)
    (l : list A) (x : A) : Prop :=
  exists before after,
    l = before ++ x :: after
    /\ (forall y, In y before -> lt (key x) (key y))
    /\ (forall y, In y after -> le (key x) (key y)).

(** Number of events recorded for a theme, and its depth. *)
Definition extracted_count (tid : string) (gm : GraphManager.t) : option Z :=
  option_map (fun n => Z.of_nat (List.length (ThemeNode.extracted_events n)))
    (Dict.get (GraphManager.theme_nodes gm) tid).

Definition depth_of (tid : string) (gm : GraphManager.t) : option Z :=
  option_map ThemeNode.exploration_depth
    (Dict.get (GraphManager.theme_nodes gm) tid).

(** Every theme of [d] is in [d'], at a status that is not earlier. *)
Definition advanced (d d' : Dict.t ThemeNode.t) : Prop :=
  forall k n, Dict.get d k = Some n ->
    exists n', Dict.get d' k = Some n'
      /\ status_rank (ThemeNode.status n)
         <= status_rank (ThemeNode.status n').

(** The file could not be opened or parsed. *)
Definition read_fails {A : Type} (f : file_read A) : Prop :=
  match f with
  | Parsed _ => False
  | _ => True
  end.

(** [NodeStatus(theme_dict["status"])], the first thing the loop of
    [load_checkpoint] computes from the record of a known theme. *)
Definition stored_status (theme_dict : ThemeNode.dict) : result NodeStatus :=
  v <- subscript "status" (ThemeNode.d_status theme_dict) ;;
  NodeStatus_of_value v.

(** The theme [n] once the loop of [load_checkpoint] has been through the
    record [d]. *)
Definition after_record (d : ThemeNode.dict) (n : ThemeNode.t) : ThemeNode.t :=
  match stored_status d with
  | Ok st =>
      ThemeNode.with_slots_filled
        (ThemeNode.with_exploration_depth (ThemeNode.with_status n st)
           (get_default (ThemeNode.d_exploration_depth d) 0))
        (get_default (ThemeNode.d_slots_filled d) Dict.empty)
  | Raise _ => n
  end.

(** [themes] is [old] with every theme that has a record among [records]
    taken through that record, and the other themes as they were. *)
Definition themes_restored (records : Dict.t ThemeNode.dict)
    (old themes : Dict.t ThemeNode.t) : Prop :=
  forall k,
    Dict.get themes k
    = match Dict.get old k with
      | None => None
      | Some n =>
          Some (match Dict.get records k with
                | Some d => after_record d n
                | None => n
                end)
      end.

(** The first key a theme definition lacks among those that
    [_create_theme_node] subscripts, in the order it subscripts them. *)
Definition missing_key (d : ThemeLoader.theme_def) : option string :=
  match ThemeLoader.def_theme_id d, ThemeLoader.def_title d,
        ThemeLoader.def_description d with
  | None, _, _ => Some "theme_id"
  | Some _, None, _ => Some "title"
  | Some _, Some _, None => Some "description"
  | Some _, Some _, Some _ => None
  end.

(** No entry of the log is an error. *)
Definition no_error (log : list log_entry) : bool :=
  forallb (fun e => match fst e with ERROR => false | _ => true end) log.

(** The timestamp key can be read: it is absent, or its string is empty or
    in ISO format. *)
Definition parses (field : option isostring) : Prop :=
  match field with
  | Some (Malformed s) => s = ""
  | _ => True
  end.

(** The map the two loops build, as one pass over the definitions. *)
Definition insert_defs (now : datetime)
    (defs : list (Domain * ThemeLoader.theme_def))
    (nodes : Dict.t ThemeNode.t) : Dict.t ThemeNode.t :=
  fold_left
    (fun acc pd =>
       match ThemeLoader._create_theme_node now (snd pd) (fst pd) with
       | Ok n => Dict.set acc (ThemeNode.theme_id n) n
       | Raise _ => acc
       end)
    defs nodes.

(** [k] calls of [get_next_seed_question] in a row: the answers, in order,
    and the theme afterwards. *)
Fixpoint ask (k : nat) (n : ThemeNode.t)
  : list (option string) * ThemeNode.t :=
  match k with
  | O => ([], n)
  | S k' =>
      let (n', q) := ThemeNode.get_next_seed_question n in
      let (qs, n'') := ask k' n' in
      (q :: qs, n'')
  end.

(** [<] and [<=] on the tuples [(priority, rank)] that
    [get_next_priority_theme] sorts by. *)
Definition tuple_lt (a b : Z * Z) : Prop :=
  fst a < fst b \/ (fst a = fst b /\ snd a < snd b).

Definition tuple_le (a b : Z * Z) : Prop :=
  fst a < fst b \/ (fst a = fst b /\ snd a <= snd b).

(** A theme as the loader builds it at time [now], under the key [k]. *)
Definition fresh_theme (now : datetime) (k : string) (n : ThemeNode.t)
  : Prop :=
  ThemeNode.theme_id n = k
  /\ ThemeNode.domain n <> None
  /\ ThemeNode.status n = PENDING
  /\ ThemeNode.exploration_depth n = 0
  /\ ThemeNode.current_question_index n = 0
  /\ ThemeNode.extracted_events n = []
  /\ (forall v, In v (Dict.values (ThemeNode.slots_filled n)) -> v = false)
  /\ ThemeNode.created_at n = now
  /\ ThemeNode.first_mentioned_at n = None
  /\ ThemeNode.exhausted_at n = None
  /\ (ThemeNode.get_completion_ratio n == 0)%Q.

(** Every entry of the map is a theme as the loader builds it. *)
Definition built (now : datetime) (nodes : Dict.t ThemeNode.t) : Prop :=
  forall k n, In (k, n) nodes -> fresh_theme now k n.

(** The graph node [_initialize_graph] stores for a theme. *)
Definition theme_graph_node (n : ThemeNode.t) : option GraphManager.GraphNode :=
  match ThemeNode.to_dict n with
  | Ok d =>
      Some (GraphManager.mk_node "theme" "pending"
              (GraphManager.ThemeData d None))
  | Raise _ => None
  end.

(** [dst] is in the adjacency list of [src]. *)
Definition has_edge (g : GraphManager.Graph) (src dst : string) : Prop :=
  In dst (get_default (Dict.get (GraphManager.edges g) src) []).

Definition is_reset (o : GraphManager.op) : bool :=
  match o with
  | GraphManager.Reset _ _ => true
  | _ => false
  end.

(** The theme [n'] with the status, depth and slots of [n]: what
    [load_checkpoint] makes of [n'] from the record of [n]. *)
Definition restored (n n' : ThemeNode.t) : ThemeNode.t :=
  ThemeNode.with_slots_filled
    (ThemeNode.with_exploration_depth
       (ThemeNode.with_status n' (ThemeNode.status n))
       (ThemeNode.exploration_depth n))
    (ThemeNode.slots_filled n).

(** An event as the constructor leaves it. *)
Definition constructed (e : EventNode.t) : Prop :=
  EventNode.event_id e <> "" /\ EventNode.slots e <> [].

(** The pairs of a theme map and the records [to_dict] gives for them. *)
Definition serialized (kn : string * ThemeNode.t)
    (kd : string * ThemeNode.dict) : Prop :=
  fst kn = fst kd /\ ThemeNode.to_dict (snd kn) = Ok (snd kd).

(** Theme [k] of the manager is EXHAUSTED. *)
Definition exhausted_in (gm : GraphManager.t) (k : string) : Prop :=
  exists n, Dict.get (GraphManager.theme_nodes gm) k = Some n
            /\ ThemeNode.status n = EXHAUSTED.

(** Every theme of [d] is in [d'], related by [R] to what it was. *)
Definition related (R : ThemeNode.t -> ThemeNode.t -> Prop)
    (d d' : Dict.t ThemeNode.t) : Prop :=
  forall k n, Dict.get d k = Some n ->
    exists n', Dict.get d' k = Some n' /\ R n n'.

(** The depth stays within the cap and does not go down. *)
Definition deepened (n n' : ThemeNode.t) : Prop :=
  ThemeNode.exploration_depth n <= 5 ->
  ThemeNode.exploration_depth n <= ThemeNode.exploration_depth n' <= 5.

(** * Properties *)

(** ** Dictionaries *)

Section DictFacts.
Context {V : Type}.
Implicit Types (d : Dict.t V) (k : string) (v : V).

Lemma get_set_same d k v : Dict.get (Dict.set d k v) k = Some v.
Proof.
  induction d as [|[k' v'] r IH]; simpl.
  - now rewrite String.eqb_refl.
  - destruct (String.eqb k k') eqn:E; simpl; rewrite E; auto.
Qed.

Lemma get_set_other d k k' v :
  k <> k' -> Dict.get (Dict.set d k v) k' = Dict.get d k'.
Proof.
  intros N. induction d as [|[k0 v0] r IH]; simpl.
  - destruct (String.eqb k' k) eqn:E; auto.
    apply String.eqb_eq in E. congruence.
  - destruct (String.eqb k k0) eqn:E; simpl.
    + apply String.eqb_eq in E. subst k0.
      destruct (String.eqb k' k) eqn:E'; auto.
      apply String.eqb_eq in E'. congruence.
    + now rewrite IH.
Qed.

Lemma get_None_notin d k : Dict.get d k = None <-> ~ In k (Dict.keys d).
Proof.
  induction d as [|[k' v'] r IH]; simpl.
  - tauto.
  - destruct (String.eqb k k') eqn:E.
    + apply String.eqb_eq in E. subst. split; [discriminate | tauto].
    + apply String.eqb_neq in E. rewrite IH. split.
      * intros H [H1 | H1]; [congruence | tauto].
      * tauto.
Qed.

Lemma get_Some_in d k v : Dict.get d k = Some v -> In k (Dict.keys d).
Proof.
  intros H. destruct (in_dec string_dec k (Dict.keys d)) as [I | N]; auto.
  apply get_None_notin in N. congruence.
Qed.

Lemma keys_set_in d k v : In k (Dict.keys d) ->
  Dict.keys (Dict.set d k v) = Dict.keys d.
Proof.
  induction d as [|[k' v'] r IH]; simpl; [tauto |].
  intros H. destruct (String.eqb k k') eqn:E; simpl; auto.
  apply String.eqb_neq in E. f_equal. apply IH.
  destruct H; [congruence | auto].
Qed.

Lemma keys_set_notin d k v : ~ In k (Dict.keys d) ->
  Dict.keys (Dict.set d k v) = Dict.keys d ++ [k].
Proof.
  induction d as [|[k' v'] r IH]; simpl; auto.
  intros H. destruct (String.eqb k k') eqn:E; simpl.
  - apply String.eqb_eq in E. exfalso. apply H. now left.
  - f_equal. apply IH. tauto.
Qed.

Lemma length_set_in d k v : In k (Dict.keys d) ->
  List.length (Dict.set d k v) = List.length d.
Proof.
  intros H.
  pose proof (keys_set_in d k v H) as E.
  apply (f_equal (@List.length _)) in E.
  unfold Dict.keys in E. now rewrite !length_map in E.
Qed.

Lemma keys_set_NoDup d k v :
  NoDup (Dict.keys d) -> NoDup (Dict.keys (Dict.set d k v)).
Proof.
  intros H. destruct (in_dec string_dec k (Dict.keys d)) as [I | N].
  - now rewrite keys_set_in.
  - rewrite keys_set_notin by assumption.
    apply NoDup_app; auto.
    + constructor; [simpl; tauto | constructor].
    + intros x Hx [<- | []]. tauto.
Qed.

Lemma keys_set_iff d k v x :
  In x (Dict.keys (Dict.set d k v)) <-> x = k \/ In x (Dict.keys d).
Proof.
  destruct (in_dec string_dec k (Dict.keys d)) as [I | N].
  - rewrite keys_set_in by assumption. split; [tauto |].
    intros [-> | H]; auto.
  - rewrite keys_set_notin by assumption. rewrite in_app_iff. simpl.
    split; [intros [H | [H | []]]; auto | intros [H | H]; auto].
Qed.

Lemma contains_true d k :
  Dict.contains d k = true <-> exists v, Dict.get d k = Some v.
Proof.
  unfold Dict.contains. destruct (Dict.get d k).
  - split; eauto.
  - split; [discriminate | intros [? ?]; discriminate].
Qed.
End DictFacts.

(** ** [min] with a key *)

Section MinFrom.
Context {A K : Type} (ltb : K -> K -> bool) (lt le : K -> K -> Prop)
  (key : A -> K).
Hypothesis ltb_lt : forall a b, ltb a b = true <-> lt a b.
Hypothesis ltb_ge : forall a b, ltb a b = false <-> le b a.
Hypothesis lt_trans : forall a b c, lt a b -> lt b c -> lt a c.
Hypothesis lt_le_trans : forall a b c, lt a b -> le b c -> lt a c.

Lemma min_from_first_min l : forall best,
  first_min lt le key (best :: l) (min_from ltb key best l).
Proof.
  induction l as [|x r IH]; intros best; simpl.
  - exists [], []. simpl. repeat split; intros ? [].
  - destruct (ltb (key x) (key best)) eqn:E.
    + specialize (IH x). remember (min_from ltb key x r) as m.
      destruct IH as (bf & af & Heq & Hbf & Haf).
      exists (best :: bf), af. rewrite Heq. repeat split; auto.
      intros y [<- | Hy]; auto.
      apply ltb_lt in E. destruct bf as [|b0 bf]; simpl in Heq.
      * injection Heq as Hx _. now rewrite <- Hx.
      * injection Heq as Hx _. eapply lt_trans; [| exact E].
        rewrite Hx. apply Hbf. now left.
    + specialize (IH best). remember (min_from ltb key best r) as m.
      destruct IH as (bf & af & Heq & Hbf & Haf).
      apply ltb_ge in E. destruct bf as [|b0 bf]; simpl in Heq.
      * injection Heq as Hm Hr. exists [], (x :: af).
        rewrite <- Hm, Hr. simpl. repeat split; [intros ? [] |].
        intros y [<- | Hy]; [exact E | rewrite Hm; auto].
      * injection Heq as Hb Hr. exists (best :: x :: bf), af.
        rewrite Hr. repeat split; auto.
        intros y [<- | [<- | Hy]].
        -- rewrite Hb. apply Hbf. now left.
        -- eapply lt_le_trans; [| exact E]. rewrite Hb.
           apply Hbf. now left.
        -- apply Hbf. now right.
Qed.

Lemma min_from_keeps best : forall after,
  (forall y, In y after -> le (key best) (key y)) ->
  min_from ltb key best after = best.
Proof.
  induction after as [|x r IH]; intros H; simpl; auto.
  assert (E : ltb (key x) (key best) = false)
    by (apply ltb_ge, H; now left).
  rewrite E. apply IH. intros y Hy. apply H. now right.
Qed.

Lemma min_from_reaches x after : forall before best,
  lt (key x) (key best) ->
  (forall y, In y before -> lt (key x) (key y)) ->
  (forall y, In y after -> le (key x) (key y)) ->
  min_from ltb key best (before ++ x :: after) = x.
Proof.
  induction before as [|b r IH]; intros best Hb Hbf Haf; simpl.
  - apply ltb_lt in Hb. rewrite Hb. now apply min_from_keeps.
  - destruct (ltb (key b) (key best)); apply IH; auto.
    + apply Hbf. now left.
    + intros y Hy. apply Hbf. now right.
    + intros y Hy. apply Hbf. now right.
Qed.
End MinFrom.

Lemma Qltb_lt (a b : Q) : Qltb a b = true <-> (a < b)%Q.
Proof.
  unfold Qltb. rewrite Qlt_alt. destruct (a ?= b)%Q; split; congruence.
Qed.

Lemma Qltb_ge (a b : Q) : Qltb a b = false <-> (b <= a)%Q.
Proof.
  split; intros H.
  - apply Qnot_lt_le. intros L. apply Qltb_lt in L. congruence.
  - destruct (Qltb a b) eqn:E; auto.
    apply Qltb_lt in E. apply Qlt_not_le in E. tauto.
Qed.

Lemma Zltb_ge (a b : Z) : (a <? b) = false <-> b <= a.
Proof. rewrite Z.ltb_ge. tauto. Qed.

(** ** The selection policy *)

Lemma status_eqb_eq (a b : NodeStatus) : NodeStatus_eqb a b = true <-> a = b.
Proof. destruct a, b; simpl; split; congruence. Qed.

Lemma nodes_with_status_In st gm n :
  In n (GraphManager.nodes_with_status st gm) <->
  In n (Dict.values (GraphManager.theme_nodes gm))
  /\ ThemeNode.status n = st.
Proof.
  unfold GraphManager.nodes_with_status. rewrite filter_In.
  destruct (ThemeNode.status n), st; simpl; intuition congruence.
Qed.

(** C1.  [get_next_candidate_theme] is the two-phase greedy policy.  With
    [mentioned] the themes of status MENTIONED in the insertion order of the
    theme map, and [pending] the PENDING themes that are ready to explore
    against the live theme map, in the same order: when [mentioned] is not
    empty the result is its first element of least completion ratio;
    otherwise, when [pending] is not empty, the result is its first element of
    least priority number; otherwise the result is absent.  It is absent
    exactly when both lists are empty, and [current_focus] plays no part. *)
Theorem get_next_candidate_theme_policy :
  forall (gm : GraphManager.t) (current_focus : option string),
    let themes := Dict.values (GraphManager.theme_nodes gm) in
    let mentioned :=
      filter (fun n => NodeStatus_eqb (ThemeNode.status n) MENTIONED) themes in
    let pending :=
      filter
        (fun n =>
           NodeStatus_eqb (ThemeNode.status n) PENDING
           && ThemeNode.is_ready_to_explore n
                (Some (GraphManager.theme_nodes gm)))
        themes in
    let next := GraphManager.get_next_candidate_theme current_focus gm in
    match mentioned, pending with
    | _ :: _, _ =>
        exists n, next = Some n
          /\ first_min Qlt Qle ThemeNode.get_completion_ratio mentioned n
    | [], _ :: _ =>
        exists n, next = Some n
          /\ first_min Z.lt Z.le ThemeNode.priority pending n
    | [], [] => next = None
    end
    /\ (forall n, In n mentioned <->
          In n themes /\ ThemeNode.status n = MENTIONED)
    /\ (forall n, In n pending <->
          In n themes /\ ThemeNode.status n = PENDING
          /\ ThemeNode.is_ready_to_explore n
               (Some (GraphManager.theme_nodes gm)) = true)
    /\ (next = None <-> mentioned = [] /\ pending = [])
    /\ next = GraphManager.get_next_candidate_theme None gm.
Proof.
  intros gm current_focus themes mentioned pending next.
  subst next. unfold GraphManager.get_next_candidate_theme.
  change (GraphManager.get_mentioned_theme_nodes gm) with mentioned.
  change (GraphManager.ready_pending gm) with pending.
  split; [| split; [| split; [| split]]].
  - destruct mentioned as [|m ms].
    + destruct pending as [|p ps]; [reflexivity |].
      eexists; split; [reflexivity |].
      apply (min_from_first_min Z.ltb Z.lt Z.le); intros.
      * apply Z.ltb_lt.
      * apply Zltb_ge.
      * lia.
      * lia.
    + eexists; split; [reflexivity |].
      apply (min_from_first_min Qltb Qlt Qle); intros.
      * apply Qltb_lt.
      * apply Qltb_ge.
      * eapply Qlt_trans; eauto.
      * eapply Qlt_le_trans; eauto.
  - intros n. apply (nodes_with_status_In MENTIONED gm n).
  - intros n. subst pending. rewrite filter_In, andb_true_iff, status_eqb_eq.
    tauto.
  - split.
    + destruct mentioned; [| discriminate].
      destruct pending; [| discriminate]. auto.
    + intros [-> ->]. reflexivity.
  - reflexivity.
Qed.

Lemma min_from_In {A K : Type} (ltb : K -> K -> bool) (key : A -> K)
    (l : list A) : forall best, In (min_from ltb key best l) (best :: l).
Proof.
  induction l as [|x r IH]; intros best; simpl; auto.
  destruct (ltb (key x) (key best)).
  - right. apply IH.
  - destruct (IH best) as [H | H]; auto.
Qed.

Lemma sample_fresh_constructed :
  GraphManager.__init__ 0 (Parsed Sample.catalog) ThemeLoader.__init__
  = Ok Sample.fresh.
Proof. vm_compute. reflexivity. Qed.

(** ** The dependency gate *)

(** A session in which an event is filed under ["T"] before its prerequisite
    ["X"] was explored. *)
Lemma dependent_theme_returned_while_blocked :
  let gm :=
    GraphManager.run
      [GraphManager.AddEventNode 1 (Sample.event "e1" "T") "T"]
      Sample.fresh in
  GraphManager.reachable gm
  /\ (exists x, Dict.get (GraphManager.theme_nodes gm) "X" = Some x
        /\ ThemeNode.status x = PENDING)
  /\ (exists T, GraphManager.get_next_candidate_theme None gm = Some T
        /\ ThemeNode.theme_id T = "T"
        /\ ThemeNode.depends_on T = ["X"]).
Proof.
  split; [| split].
  - exists 0, (Parsed Sample.catalog), ThemeLoader.__init__, Sample.fresh.
    eexists. split; [apply sample_fresh_constructed | reflexivity].
  - vm_compute. eexists. split; reflexivity.
  - vm_compute. eexists. repeat split; reflexivity.
Qed.

Lemma mark_theme_exhausted_get now X gm x :
  Dict.get (GraphManager.theme_nodes gm) X = Some x ->
  Dict.get
    (GraphManager.theme_nodes (fst (GraphManager.mark_theme_exhausted now X gm)))
    X
  = Some (ThemeNode.mark_exhausted now x).
Proof.
  intros H. unfold GraphManager.mark_theme_exhausted. rewrite H. simpl.
  apply get_set_same.
Qed.

(** C2, as the code has it.  The dependency gate is on the PENDING phase
    only.  A theme [T] with [depends_on = [X]] that the call returns while
    [X] is not EXHAUSTED is a MENTIONED theme, so a PENDING one is never
    returned then.  And right after [mark_theme_exhausted X], a PENDING [T]
    is returned provided no theme is MENTIONED, every ready PENDING theme
    before [T] in the theme map has a strictly greater priority number, and
    every one after [T] has a greater or equal one. *)
Theorem dependency_gate :
  forall (gm : GraphManager.t) (current_focus : option string) (X : string),
    (forall T,
        GraphManager.get_next_candidate_theme current_focus gm = Some T ->
        ThemeNode.depends_on T = [X] ->
        (forall x, Dict.get (GraphManager.theme_nodes gm) X = Some x ->
                   ThemeNode.status x <> EXHAUSTED) ->
        ThemeNode.status T = MENTIONED)
    /\ (forall now before k T after,
          let gm' := fst (GraphManager.mark_theme_exhausted now X gm) in
          let ready n :=
            ThemeNode.status n = PENDING
            /\ ThemeNode.is_ready_to_explore n
                 (Some (GraphManager.theme_nodes gm')) = true in
          Dict.contains (GraphManager.theme_nodes gm) X = true ->
          GraphManager.theme_nodes gm' = before ++ (k, T) :: after ->
          ThemeNode.status T = PENDING ->
          ThemeNode.depends_on T = [X] ->
          GraphManager.get_mentioned_theme_nodes gm' = [] ->
          (forall m, In m (Dict.values before) -> ready m ->
                     ThemeNode.priority T < ThemeNode.priority m) ->
          (forall m, In m (Dict.values after) -> ready m ->
                     ThemeNode.priority T <= ThemeNode.priority m) ->
          GraphManager.get_next_candidate_theme current_focus gm' = Some T).
Proof.
  intros gm current_focus X. split.
  - intros T Hnext Hdep Hx.
    unfold GraphManager.get_next_candidate_theme in Hnext.
    destruct (GraphManager.get_mentioned_theme_nodes gm) as [|m ms] eqn:Em.
    + exfalso.
      destruct (GraphManager.ready_pending gm) as [|p ps] eqn:Ep;
        [discriminate |].
      injection Hnext as <-.
      pose proof (min_from_In Z.ltb ThemeNode.priority ps p) as I.
      rewrite <- Ep in I. unfold GraphManager.ready_pending in I.
      apply filter_In in I as [_ I]. apply andb_true_iff in I as [_ I].
      unfold ThemeNode.is_ready_to_explore in I. rewrite Hdep in I.
      simpl in I. rewrite andb_true_r in I.
      destruct (Dict.get (GraphManager.theme_nodes gm) X) as [x|] eqn:Ex;
        [| discriminate].
      apply status_eqb_eq in I. exact (Hx x eq_refl I).
    + injection Hnext as <-.
      pose proof (min_from_In Qltb ThemeNode.get_completion_ratio ms m) as I.
      rewrite <- Em in I. now apply nodes_with_status_In in I.
  - intros now before k T after gm' ready HX Hmap HT Hdep Hno Hbf Haf.
    apply contains_true in HX as [x Hx].
    pose proof (mark_theme_exhausted_get now X gm x Hx) as HX'.
    fold gm' in HX'.
    assert (RT : ThemeNode.is_ready_to_explore T
                   (Some (GraphManager.theme_nodes gm')) = true).
    { unfold ThemeNode.is_ready_to_explore. rewrite Hdep. simpl.
      now rewrite HX'. }
    unfold GraphManager.get_next_candidate_theme. rewrite Hno.
    unfold GraphManager.ready_pending, Dict.values.
    set (f := fun node : ThemeNode.t => _).
    assert (FT : f T = true) by (subst f; cbv beta; rewrite HT; exact RT).
    assert (Fready : forall m, f m = true -> ready m).
    { intros m Hf. subst f. simpl in Hf.
      apply andb_true_iff in Hf as [Hs Hr].
      split; [now apply status_eqb_eq | exact Hr]. }
    rewrite Hmap, map_app, filter_app. cbn [map snd filter]. rewrite FT.
    assert (Fbf : forall m, In m (filter f (map snd before)) ->
                            ThemeNode.priority T < ThemeNode.priority m).
    { intros m Hm. apply filter_In in Hm as [Hm Hf]. apply Hbf; auto. }
    assert (Faf : forall m, In m (filter f (map snd after)) ->
                            ThemeNode.priority T <= ThemeNode.priority m).
    { intros m Hm. apply filter_In in Hm as [Hm Hf]. apply Haf; auto. }
    destruct (filter f (map snd before)) as [|b bs]; simpl; f_equal.
    + apply (min_from_keeps Z.ltb Z.le); auto. apply Zltb_ge.
    + apply (min_from_reaches Z.ltb Z.lt Z.le); auto.
      * apply Z.ltb_lt.
      * apply Zltb_ge.
      * apply Fbf. now left.
      * intros y Hy. apply Fbf. now right.
Qed.

Lemma dependency_gate_witness :
  (let gm :=
     GraphManager.run
       [GraphManager.AddEventNode 1 (Sample.event "e1" "T") "T"]
       Sample.fresh in
   forall T,
     GraphManager.get_next_candidate_theme None gm = Some T ->
     ThemeNode.status T = MENTIONED)
  /\ (exists T,
        GraphManager.get_next_candidate_theme None
          (fst (GraphManager.mark_theme_exhausted 2 "X" Sample.fresh))
        = Some T
        /\ ThemeNode.theme_id T = "T").
Proof.
  split.
  - intros gm T H.
    apply (proj1 (dependency_gate gm None "X") T H).
    + vm_compute in H. injection H as <-. reflexivity.
    + intros x Hx. vm_compute in Hx. injection Hx as <-. discriminate.
  - eexists. split.
    + eapply (proj2 (dependency_gate Sample.fresh None "X") 2
                [("X", _)] "T" _ [("A", _)]).
      * reflexivity.
      * vm_compute. reflexivity.
      * reflexivity.
      * reflexivity.
      * reflexivity.
      * intros m [<- | []] [Hs _]. vm_compute in Hs. discriminate.
      * intros m [<- | []] _. vm_compute. discriminate.
    + reflexivity.
Defined.

(** ** [add_event_node] *)

(** A theme with five events, at depth 5.  Filing a sixth event succeeds
    and leaves the depth at 5; filing the fifth event again succeeds and
    leaves the count at 5. *)
Lemma add_event_node_count_and_depth_stay :
  let gm :=
    GraphManager.run
      [GraphManager.AddEventNode 1 (Sample.event "e1" "A") "A";
       GraphManager.AddEventNode 2 (Sample.event "e2" "A") "A";
       GraphManager.AddEventNode 3 (Sample.event "e3" "A") "A";
       GraphManager.AddEventNode 4 (Sample.event "e4" "A") "A";
       GraphManager.AddEventNode 5 (Sample.event "e5" "A") "A"]
      Sample.fresh in
  let sixth := GraphManager.add_event_node 6 (Sample.event "e6" "A") "A" gm in
  let again := GraphManager.add_event_node 6 (Sample.event "e5" "A") "A" gm in
  Dict.contains (GraphManager.theme_nodes gm) "A" = true
  /\ extracted_count "A" gm = Some 5
  /\ depth_of "A" gm = Some 5
  /\ snd sixth = true
  /\ depth_of "A" (fst sixth) = Some 5
  /\ snd again = true
  /\ extracted_count "A" (fst again) = Some 5.
Proof. vm_compute. repeat split; reflexivity. Qed.

Lemma str_in_In (x : string) (l : list string) :
  str_in x l = true <-> In x l.
Proof.
  unfold str_in. rewrite existsb_exists. split.
  - intros (y & Hy & E). apply String.eqb_eq in E. now subst.
  - intros H. exists x. split; auto. apply String.eqb_refl.
Qed.

(** C3, as the code has it.  On an unknown [theme_id] the call returns
    [False] and changes nothing, so the event collection keeps its size.  On
    a known one it returns [True], stores the event under its id, and for
    that theme: the event id is appended to [extracted_events] unless it is
    already there (count + 1, or unchanged); the depth becomes
    [min(depth + 1, 5)] (+ 1 below the cap); a PENDING status becomes
    MENTIONED and any other status stays, so a second call leaves MENTIONED
    alone. *)
Theorem add_event_node_effect :
  forall (now : datetime) (event : EventNode.t) (theme_id : string)
         (gm : GraphManager.t),
    let r := GraphManager.add_event_node now event theme_id gm in
    match Dict.get (GraphManager.theme_nodes gm) theme_id with
    | None =>
        r = (gm, false)
        /\ List.length (GraphManager.event_nodes (fst r))
           = List.length (GraphManager.event_nodes gm)
    | Some theme =>
        snd r = true
        /\ Dict.get (GraphManager.event_nodes (fst r))
             (EventNode.event_id event) = Some event
        /\ exists theme',
            Dict.get (GraphManager.theme_nodes (fst r)) theme_id = Some theme'
            /\ ThemeNode.extracted_events theme'
               = (if str_in (EventNode.event_id event)
                       (ThemeNode.extracted_events theme)
                  then ThemeNode.extracted_events theme
                  else ThemeNode.extracted_events theme
                       ++ [EventNode.event_id event])
            /\ Z.of_nat (List.length (ThemeNode.extracted_events theme'))
               = Z.of_nat (List.length (ThemeNode.extracted_events theme))
                 + (if str_in (EventNode.event_id event)
                         (ThemeNode.extracted_events theme)
                    then 0 else 1)
            /\ ThemeNode.exploration_depth theme'
               = Z.min (ThemeNode.exploration_depth theme + 1) 5
            /\ (ThemeNode.exploration_depth theme < 5 ->
                ThemeNode.exploration_depth theme'
                = ThemeNode.exploration_depth theme + 1)
            /\ ThemeNode.status theme'
               = match ThemeNode.status theme with
                 | PENDING => MENTIONED
                 | MENTIONED => MENTIONED
                 | EXHAUSTED => EXHAUSTED
                 end
    end.
Proof.
  intros now event theme_id gm r. subst r.
  unfold GraphManager.add_event_node, Dict.contains.
  destruct (Dict.get (GraphManager.theme_nodes gm) theme_id)
    as [theme|] eqn:Eg; cbn [negb].
  2: { split; reflexivity. }
  cbn [GraphManager.with_event_nodes GraphManager.with_graph
       GraphManager.theme_nodes GraphManager.event_nodes GraphManager.graph].
  rewrite Eg.
  remember (ThemeNode.increment_depth
              (ThemeNode.add_extracted_event (EventNode.event_id event) theme))
    as theme1 eqn:Ht.
  assert (S1 : ThemeNode.status theme1 = ThemeNode.status theme).
  { subst theme1. unfold ThemeNode.add_extracted_event.
    destruct (str_in _ _); reflexivity. }
  assert (D1 : ThemeNode.exploration_depth theme1
               = Z.min (ThemeNode.exploration_depth theme + 1) 5).
  { subst theme1. unfold ThemeNode.add_extracted_event.
    destruct (str_in _ _); reflexivity. }
  assert (E1 : ThemeNode.extracted_events theme1
               = if str_in (EventNode.event_id event)
                      (ThemeNode.extracted_events theme)
                 then ThemeNode.extracted_events theme
                 else ThemeNode.extracted_events theme
                      ++ [EventNode.event_id event]).
  { subst theme1. unfold ThemeNode.add_extracted_event.
    destruct (str_in _ _); reflexivity. }
  assert (L1 : Z.of_nat (List.length (ThemeNode.extracted_events theme1))
               = Z.of_nat (List.length (ThemeNode.extracted_events theme))
                 + (if str_in (EventNode.event_id event)
                         (ThemeNode.extracted_events theme)
                    then 0 else 1)).
  { rewrite E1. destruct (str_in _ _); [lia |].
    rewrite length_app. simpl. lia. }
  rewrite S1.
  destruct (ThemeNode.status theme) eqn:Es; cbn [NodeStatus_eqb fst snd];
    cbn [GraphManager.with_event_nodes GraphManager.with_graph
         GraphManager.with_theme_nodes
         GraphManager.theme_nodes GraphManager.event_nodes GraphManager.graph];
    (split; [reflexivity |]); (split; [apply get_set_same |]);
    eexists; (split; [apply get_set_same |]).
  - unfold ThemeNode.mark_mentioned. rewrite S1. cbn.
    repeat split; auto. intros. lia.
  - repeat split; auto; try congruence. intros. lia.
  - repeat split; auto; try congruence. intros. lia.
Qed.

Lemma add_event_node_effect_witness :
  snd (GraphManager.add_event_node 1 (Sample.event "e1" "A") "A" Sample.fresh)
  = true.
Proof.
  exact (proj1 (add_event_node_effect 1 (Sample.event "e1" "A") "A"
                  Sample.fresh)).
Defined.

(** ** Themes and the events they own *)

(** C4.  One event is filed under ["A"], the session is checkpointed, the
    manager is reset and the checkpoint is loaded back.  Before the save the
    theme lists the event it owns; after the load the event is back in the
    collection, still owned by ["A"], and the theme lists nothing:
    [load_checkpoint] restores status, depth and slots of a theme, not its
    [extracted_events], which [to_dict] does not write either. *)
Theorem checkpoint_round_trip_breaks_consistency :
  let gm1 :=
    GraphManager.run
      [GraphManager.AddEventNode 1 (Sample.event "e1" "A") "A"]
      Sample.fresh in
  let saved :=
    GraphManager.save_checkpoint GraphManager.all_written
      GraphManager.no_checkpoint gm1 in
  let gm2 := GraphManager.run [GraphManager.Reset 2 (Parsed Sample.catalog)] gm1 in
  let loaded := GraphManager.load_checkpoint 3 Sample.uuid (snd saved) gm2 in
  GraphManager.consistent gm1 = true
  /\ fst saved = GraphManager.Returns true
  /\ GraphManager.consistent gm2 = true
  /\ snd loaded = true
  /\ GraphManager.events_owned_by "A" (fst loaded) = ["e1"]
  /\ option_map ThemeNode.extracted_events
       (Dict.get (GraphManager.theme_nodes (fst loaded)) "A") = Some []
  /\ GraphManager.consistent (fst loaded) = false.
Proof. vm_compute. repeat split; reflexivity. Qed.

(** ** Event depth *)

(** C6.  [update_event_depth] bounds the depth from above only
    ([min(new_depth, 5)]): on a known event and a negative [new_depth] it
    returns [True] and stores the negative depth. *)
Theorem update_event_depth_stores_negative :
  let gm :=
    GraphManager.run
      [GraphManager.AddEventNode 1 (Sample.event "e1" "A") "A"]
      Sample.fresh in
  let r := GraphManager.update_event_depth "e1" (-1) gm in
  snd r = true
  /\ option_map EventNode.depth_level
       (Dict.get (GraphManager.event_nodes (fst r)) "e1") = Some (-1).
Proof. vm_compute. split; reflexivity. Qed.

(** ** [save_checkpoint] *)

(** C8.  [output_dir.mkdir(parents=True, exist_ok=True)] stands before the
    [try]: when it raises, the exception leaves [save_checkpoint], whatever
    the state and the content of the directory. *)
Theorem save_checkpoint_mkdir_escapes :
  forall (gm : GraphManager.t) (dir : GraphManager.checkpoint),
    GraphManager.save_checkpoint
      (GraphManager.mk_env (Some OSError) GraphManager.Written
         GraphManager.Written GraphManager.Written)
      dir gm
    = (GraphManager.Propagates OSError, dir).
Proof. reflexivity. Qed.

Lemma save_checkpoint_returns_after_mkdir w1 w2 w3 dir gm :
  exists b, fst (GraphManager.save_checkpoint
                   (GraphManager.mk_env None w1 w2 w3) dir gm)
            = GraphManager.Returns b.
Proof.
  unfold GraphManager.save_checkpoint; cbn [GraphManager.mkdir
    GraphManager.write_graph_state GraphManager.write_themes_state
    GraphManager.write_events].
  destruct w1; cbn; eauto.
  destruct (GraphManager.themes_data _ _); cbn; eauto.
  destruct w2; cbn; eauto.
  destruct w3; cbn; eauto.
Qed.

(** ** Status along PENDING, MENTIONED, EXHAUSTED *)

(** A theme is marked EXHAUSTED, then a checkpoint written at the start of
    the session is loaded: the theme is PENDING again.  So it is after
    [reset]. *)
Lemma load_checkpoint_moves_status_back :
  let start :=
    snd (GraphManager.save_checkpoint GraphManager.all_written
           GraphManager.no_checkpoint Sample.fresh) in
  let gm1 :=
    GraphManager.run [GraphManager.MarkThemeExhausted 1 "A"] Sample.fresh in
  let gm2 :=
    GraphManager.run [GraphManager.LoadCheckpoint 2 Sample.uuid start] gm1 in
  let gm3 :=
    GraphManager.run [GraphManager.Reset 2 (Parsed Sample.catalog)] gm1 in
  option_map ThemeNode.status
    (Dict.get (GraphManager.theme_nodes gm1) "A") = Some EXHAUSTED
  /\ snd (GraphManager.load_checkpoint 2 Sample.uuid start gm1) = true
  /\ option_map ThemeNode.status
       (Dict.get (GraphManager.theme_nodes gm2) "A") = Some PENDING
  /\ option_map ThemeNode.status
       (Dict.get (GraphManager.theme_nodes gm3) "A") = Some PENDING.
Proof. vm_compute. repeat split; reflexivity. Qed.

Lemma call_theme_method_rank m n :
  status_rank (ThemeNode.status n)
  <= status_rank (ThemeNode.status (GraphManager.call_theme_method m n)).
Proof.
  destruct m; simpl.
  - unfold ThemeNode.mark_mentioned.
    destruct (ThemeNode.status n) eqn:E; simpl; rewrite ?E; simpl; lia.
  - destruct (ThemeNode.status n); simpl; lia.
  - unfold ThemeNode.get_next_seed_question.
    destruct (_ && _); simpl; lia.
  - lia.
  - lia.
  - lia.
  - unfold ThemeNode.add_extracted_event.
    destruct (negb _); simpl; lia.
Qed.

Section StatusOrder.
Implicit Types (d : Dict.t ThemeNode.t) (gm : GraphManager.t).

Lemma advanced_refl d : advanced d d.
Proof. intros k n H. exists n. split; [exact H | lia]. Qed.

Lemma advanced_trans d1 d2 d3 :
  advanced d1 d2 -> advanced d2 d3 -> advanced d1 d3.
Proof.
  intros H12 H23 k n H.
  destruct (H12 k n H) as (n2 & G2 & L2).
  destruct (H23 k n2 G2) as (n3 & G3 & L3).
  exists n3. split; [exact G3 | lia].
Qed.

Lemma advanced_set d tid old new :
  Dict.get d tid = Some old ->
  status_rank (ThemeNode.status old) <= status_rank (ThemeNode.status new) ->
  advanced d (Dict.set d tid new).
Proof.
  intros Hold Hle k n H.
  destruct (string_dec tid k) as [<- | N].
  - exists new. rewrite get_set_same. split; [reflexivity |].
    congruence.
  - exists n. rewrite get_set_other by assumption. split; [exact H | lia].
Qed.

Lemma add_event_node_theme_nodes now event tid gm :
  GraphManager.theme_nodes
    (fst (GraphManager.add_event_node now event tid gm))
  = match Dict.get (GraphManager.theme_nodes gm) tid with
    | Some theme =>
        let theme1 :=
          ThemeNode.increment_depth
            (ThemeNode.add_extracted_event (EventNode.event_id event) theme)
        in
        Dict.set (GraphManager.theme_nodes gm) tid
          (if NodeStatus_eqb (ThemeNode.status theme1) PENDING
           then ThemeNode.mark_mentioned now theme1 else theme1)
    | None => GraphManager.theme_nodes gm
    end.
Proof.
  unfold GraphManager.add_event_node, Dict.contains.
  destruct (Dict.get (GraphManager.theme_nodes gm) tid) as [theme|] eqn:E;
    cbn [negb]; [| reflexivity].
  cbn [GraphManager.with_event_nodes GraphManager.with_graph
       GraphManager.theme_nodes GraphManager.event_nodes GraphManager.graph].
  rewrite E. cbv zeta.
  destruct (NodeStatus_eqb _ PENDING); reflexivity.
Qed.

Lemma step_advanced gm o :
  GraphManager.restores o = false ->
  advanced (GraphManager.theme_nodes gm)
    (GraphManager.theme_nodes (GraphManager.step gm o)).
Proof.
  intros R. destruct o; try discriminate; cbn [GraphManager.step].
  - rewrite add_event_node_theme_nodes.
    destruct (Dict.get (GraphManager.theme_nodes gm) theme_id)
      as [theme|] eqn:E; [| apply advanced_refl].
    cbv zeta. eapply advanced_set; [exact E |].
    pose proof (call_theme_method_rank
                  (GraphManager.AddExtractedEvent (EventNode.event_id event))
                  theme) as H1.
    cbn [GraphManager.call_theme_method] in H1.
    set (t0 := ThemeNode.add_extracted_event _ theme) in *.
    pose proof (call_theme_method_rank GraphManager.IncrementDepth t0) as H2.
    cbn [GraphManager.call_theme_method] in H2.
    set (t1 := ThemeNode.increment_depth t0) in *.
    pose proof (call_theme_method_rank (GraphManager.MarkMentioned now) t1)
      as H3.
    cbn [GraphManager.call_theme_method] in H3.
    destruct (NodeStatus_eqb (ThemeNode.status t1) PENDING); lia.
  - unfold GraphManager.update_event_depth.
    destruct (Dict.get (GraphManager.event_nodes gm) event_id);
      [| apply advanced_refl].
    cbn. destruct (Dict.get _ event_id); apply advanced_refl.
  - unfold GraphManager.mark_theme_exhausted.
    destruct (Dict.get (GraphManager.theme_nodes gm) theme_id)
      as [theme|] eqn:E; [| apply advanced_refl].
    cbn. eapply advanced_set; [exact E |].
    apply (call_theme_method_rank (GraphManager.MarkExhausted now)).
  - apply advanced_refl.
  - destruct (Dict.get (GraphManager.theme_nodes gm) theme_id)
      as [theme|] eqn:E; [| apply advanced_refl].
    cbn. eapply advanced_set; [exact E |].
    apply call_theme_method_rank.
Qed.

Lemma run_advanced ops : forall gm,
  forallb (fun o => negb (GraphManager.restores o)) ops = true ->
  advanced (GraphManager.theme_nodes gm)
    (GraphManager.theme_nodes (GraphManager.run ops gm)).
Proof.
  induction ops as [|o ops IH]; intros gm H; simpl.
  - apply advanced_refl.
  - simpl in H. apply andb_true_iff in H as [Ho Hops].
    apply negb_true_iff in Ho.
    eapply advanced_trans; [apply step_advanced, Ho | apply IH, Hops].
Qed.
End StatusOrder.

(** C5, as the code has it.  [mark_mentioned] changes nothing on a theme
    that is not PENDING; no method of [ThemeNode] moves the status backwards;
    and along any sequence of calls of [add_event_node],
    [update_event_depth], [mark_theme_exhausted], [save_checkpoint] and of
    methods of the themes held, every theme stays in the map at a status
    that is not earlier, an EXHAUSTED theme staying EXHAUSTED.  The calls
    left out, [load_checkpoint] and [reset], put back the status of the
    checkpoint or of the catalog. *)
Theorem status_monotone_without_restore :
  (forall now n, ThemeNode.status n <> PENDING ->
                 ThemeNode.mark_mentioned now n = n)
  /\ (forall m n,
        status_rank (ThemeNode.status n)
        <= status_rank (ThemeNode.status (GraphManager.call_theme_method m n)))
  /\ (forall ops gm k n,
        forallb (fun o => negb (GraphManager.restores o)) ops = true ->
        Dict.get (GraphManager.theme_nodes gm) k = Some n ->
        exists n',
          Dict.get (GraphManager.theme_nodes (GraphManager.run ops gm)) k
          = Some n'
          /\ status_rank (ThemeNode.status n)
             <= status_rank (ThemeNode.status n')
          /\ (ThemeNode.status n = EXHAUSTED ->
              ThemeNode.status n' = EXHAUSTED)).
Proof.
  split; [| split].
  - intros now n H. unfold ThemeNode.mark_mentioned.
    destruct (ThemeNode.status n); simpl; congruence.
  - apply call_theme_method_rank.
  - intros ops gm k n Hops Hget.
    destruct (run_advanced ops gm Hops k n Hget) as (n' & G & L).
    exists n'. repeat split; auto.
    intros E. rewrite E in L.
    destruct (ThemeNode.status n'); simpl in L; try lia. reflexivity.
Qed.

Lemma status_monotone_without_restore_witness :
  exists n',
    Dict.get
      (GraphManager.theme_nodes
         (GraphManager.run
            [GraphManager.MarkThemeExhausted 1 "A";
             GraphManager.AddEventNode 2 (Sample.event "e1" "A") "A";
             GraphManager.OnTheme "A" (GraphManager.MarkMentioned 3)]
            Sample.fresh))
      "A" = Some n'
    /\ status_rank (ThemeNode.status Sample.node_A)
       <= status_rank (ThemeNode.status n')
    /\ (ThemeNode.status Sample.node_A = EXHAUSTED ->
        ThemeNode.status n' = EXHAUSTED).
Proof.
  apply (proj2 (proj2 status_monotone_without_restore)
           [GraphManager.MarkThemeExhausted 1 "A";
            GraphManager.AddEventNode 2 (Sample.event "e1" "A") "A";
            GraphManager.OnTheme "A" (GraphManager.MarkMentioned 3)]
           Sample.fresh "A" Sample.node_A).
  - reflexivity.
  - vm_compute. reflexivity.
Defined.

(** ** A failed [load_checkpoint] *)

(** A checkpoint directory that holds the graph file only (the write of the
    themes file failed), loaded into a session that has an event since: the
    call returns [False], and the graph is the stored one, without the
    event. *)
Lemma failed_load_replaces_graph :
  let dir :=
    snd (GraphManager.save_checkpoint
           (GraphManager.mk_env None GraphManager.Written
              (GraphManager.OpenFailed OSError) GraphManager.Written)
           GraphManager.no_checkpoint Sample.fresh) in
  let gm :=
    GraphManager.run
      [GraphManager.AddEventNode 1 (Sample.event "e1" "A") "A"]
      Sample.fresh in
  let r := GraphManager.load_checkpoint 2 Sample.uuid dir gm in
  GraphManager.themes_state_json dir = Missing
  /\ snd r = false
  /\ Dict.contains (GraphManager.nodes (GraphManager.graph gm)) "e1" = true
  /\ Dict.contains (GraphManager.nodes (GraphManager.graph (fst r))) "e1"
     = false
  /\ fst r <> gm.
Proof.
  repeat split; try (vm_compute; reflexivity).
  intros H.
  apply (f_equal (fun g =>
           Dict.contains (GraphManager.nodes (GraphManager.graph g)) "e1"))
    in H.
  vm_compute in H. discriminate.
Qed.

Lemma restore_themes_keys td : forall d,
  Dict.keys (fst (GraphManager.restore_themes td d)) = Dict.keys d.
Proof.
  induction td as [|[k dd] r IH]; intros d; [reflexivity |].
  cbn [GraphManager.restore_themes].
  destruct (Dict.get d k) as [theme|] eqn:G; [| apply IH].
  destruct (bind _ _) as [st|e]; [| reflexivity].
  rewrite IH. apply keys_set_in. eapply get_Some_in; eauto.
Qed.

Lemma contains_keys {V : Type} (d d' : Dict.t V) k :
  Dict.keys d' = Dict.keys d -> Dict.contains d' k = Dict.contains d k.
Proof.
  intros K. unfold Dict.contains.
  destruct (Dict.get d k) eqn:G, (Dict.get d' k) eqn:G'; auto.
  - apply get_Some_in in G. apply get_None_notin in G'. now rewrite K in G'.
  - apply get_Some_in in G'. apply get_None_notin in G. now rewrite K in G'.
Qed.

Ltac fold_stored_status d :=
  change (bind (subscript "status" (ThemeNode.d_status d))
            (fun v => NodeStatus_of_value v))
    with (stored_status d) in *.

Lemma restore_themes_app a : forall b tn,
  GraphManager.restore_themes (a ++ b) tn
  = match GraphManager.restore_themes a tn with
    | (tn', None) => GraphManager.restore_themes b tn'
    | (tn', Some e) => (tn', Some e)
    end.
Proof.
  induction a as [|[k d] r IH]; intros b tn; [reflexivity |].
  cbn [app GraphManager.restore_themes].
  destruct (Dict.get tn k); [| apply IH].
  destruct (bind _ _); [apply IH | reflexivity].
Qed.

(** The loop over the theme records stops at the first record of a known
    theme whose status cannot be read. *)
Lemma restore_themes_fails l : forall tn themes e,
  GraphManager.restore_themes l tn = (themes, Some e) ->
  exists before k bad after,
    l = before ++ (k, bad) :: after
    /\ GraphManager.restore_themes before tn = (themes, None)
    /\ Dict.contains tn k = true
    /\ stored_status bad = Raise e.
Proof.
  induction l as [|[k d] r IH]; intros tn themes e H; [discriminate |].
  cbn [GraphManager.restore_themes] in H.
  destruct (Dict.get tn k) as [theme|] eqn:G.
  - fold_stored_status d.
    destruct (stored_status d) as [st|e0] eqn:Es.
    + destruct (IH _ _ _ H) as (bf & k' & bad & af & -> & Hr & Hc & Hb).
      exists ((k, d) :: bf), k', bad, af. split; [reflexivity |].
      split; [| split; [| exact Hb]].
      * cbn [GraphManager.restore_themes]. rewrite G.
        fold_stored_status d.
        rewrite Es. exact Hr.
      * rewrite <- Hc. symmetry. apply contains_keys.
        apply keys_set_in. eapply get_Some_in; eauto.
    + injection H as <- <-. exists [], k, d, r.
      split; [reflexivity |]. split; [reflexivity |].
      split; [| exact Es]. unfold Dict.contains. now rewrite G.
  - destruct (IH _ _ _ H) as (bf & k' & bad & af & -> & Hr & Hc & Hb).
    exists ((k, d) :: bf), k', bad, af. split; [reflexivity |].
    split; [| split; assumption].
    cbn [GraphManager.restore_themes]. now rewrite G.
Qed.

Lemma restore_themes_bad before k bad after tn themes e :
  GraphManager.restore_themes before tn = (themes, None) ->
  Dict.contains tn k = true ->
  stored_status bad = Raise e ->
  GraphManager.restore_themes (before ++ (k, bad) :: after) tn
  = (themes, Some e).
Proof.
  intros Hr Hc Hb. rewrite restore_themes_app, Hr.
  cbn [GraphManager.restore_themes].
  pose proof (restore_themes_keys before tn) as K. rewrite Hr in K.
  rewrite <- (contains_keys tn themes k K) in Hc.
  apply contains_true in Hc as [theme ->].
  fold_stored_status bad.
  now rewrite Hb.
Qed.

(** What a pass of the loop over theme records leaves. *)
Lemma restore_themes_get l : forall d0 d',
  NoDup (Dict.keys l) ->
  GraphManager.restore_themes l d0 = (d', None) ->
  themes_restored l d0 d'.
Proof.
  induction l as [|[k d] r IH]; intros d0 d' ND H k'.
  - injection H as <-. cbn [Dict.get]. now destruct (Dict.get d0 k').
  - inversion ND as [|? ? Hk ND']; subst.
    assert (Gr : Dict.get r k = None) by now apply get_None_notin.
    cbn [GraphManager.restore_themes] in H. cbn [Dict.get].
    destruct (Dict.get d0 k) as [theme|] eqn:G.
    + fold_stored_status d.
      destruct (stored_status d) as [st|e0] eqn:Es; [| discriminate].
      rewrite (IH _ _ ND' H k').
      destruct (String.eqb k' k) eqn:E.
      * apply String.eqb_eq in E. subst k'.
        rewrite get_set_same, G, Gr. unfold after_record. now rewrite Es.
      * apply String.eqb_neq in E.
        rewrite get_set_other by congruence. reflexivity.
    + rewrite (IH _ _ ND' H k').
      destruct (String.eqb k' k) eqn:E; [| reflexivity].
      apply String.eqb_eq in E. subst k'. now rewrite G.
Qed.

Lemma restore_events_app now uuid a : forall i b d,
  GraphManager.restore_events now uuid i (a ++ b) d
  = match GraphManager.restore_events now uuid i a d with
    | (d', None) =>
        GraphManager.restore_events now uuid (i + List.length a) b d'
    | (d', Some e) => (d', Some e)
    end.
Proof.
  induction a as [|[k ed] r IH]; intros i b d.
  - cbn [app GraphManager.restore_events List.length].
    now rewrite Nat.add_0_r.
  - cbn [app GraphManager.restore_events List.length].
    destruct (EventNode.from_dict now (uuid i) ed); [| reflexivity].
    rewrite IH. now rewrite Nat.add_succ_r.
Qed.

(** The loop over the event records stops at the first record that
    [EventNode.from_dict] rejects. *)
Lemma restore_events_fails now uuid l : forall i d events e,
  GraphManager.restore_events now uuid i l d = (events, Some e) ->
  exists before k bad after,
    l = before ++ (k, bad) :: after
    /\ GraphManager.restore_events now uuid i before d = (events, None)
    /\ EventNode.from_dict now (uuid (i + List.length before)%nat) bad
       = Raise e.
Proof.
  induction l as [|[k ed] r IH]; intros i d events e H; [discriminate |].
  cbn [GraphManager.restore_events] in H.
  destruct (EventNode.from_dict now (uuid i) ed) as [ev|e0] eqn:Ef.
  - destruct (IH _ _ _ _ H) as (bf & k' & bad & af & -> & Hr & Hb).
    exists ((k, ed) :: bf), k', bad, af. split; [reflexivity |]. split.
    + cbn [GraphManager.restore_events]. now rewrite Ef.
    + cbn [List.length]. now rewrite Nat.add_succ_r.
  - injection H as <- <-. exists [], k, ed, r.
    split; [reflexivity |]. split; [reflexivity |].
    cbn [List.length]. now rewrite Nat.add_0_r.
Qed.

Lemma restore_events_other now uuid l : forall i d0 d' k,
  GraphManager.restore_events now uuid i l d0 = (d', None) ->
  ~ In k (Dict.keys l) ->
  Dict.get d' k = Dict.get d0 k.
Proof.
  induction l as [|[k0 ed] r IH]; intros i d0 d' k H N.
  - now injection H as <-.
  - cbn [GraphManager.restore_events] in H.
    destruct (EventNode.from_dict now (uuid i) ed) as [ev|]; [| discriminate].
    rewrite (IH _ _ _ k H) by (intros I; apply N; now right).
    apply get_set_other. intros ->. apply N. now left.
Qed.

(** What a pass of the loop over event records leaves. *)
Lemma restore_events_get now uuid l : forall i d0 d',
  NoDup (Dict.keys l) ->
  GraphManager.restore_events now uuid i l d0 = (d', None) ->
  forall j k ed, nth_error l j = Some (k, ed) ->
    exists ev,
      EventNode.from_dict now (uuid (i + j)%nat) ed = Ok ev
      /\ Dict.get d' k = Some ev.
Proof.
  induction l as [|[k0 ed0] r IH]; intros i d0 d' ND H j k ed Hj.
  - now destruct j.
  - inversion ND as [|? ? Hk ND']; subst.
    cbn [GraphManager.restore_events] in H.
    destruct (EventNode.from_dict now (uuid i) ed0) as [ev|] eqn:Ef;
      [| discriminate].
    destruct j as [|j]; cbn [nth_error] in Hj.
    + injection Hj as <- <-. exists ev. rewrite Nat.add_0_r.
      split; [exact Ef |].
      rewrite (restore_events_other _ _ _ _ _ _ k0 H Hk).
      apply get_set_same.
    + rewrite Nat.add_succ_r. apply (IH (S i) _ _ ND' H j k ed Hj).
Qed.

(** C7, as the code has it.  When [load_checkpoint] fails at the first file
    it reads, [graph_state.json], the object is what it was.  When it fails
    later, what was assigned before stays.  At [themes_state.json], whether
    the file cannot be read or the record of a known theme has no status
    that can be read, the graph is already the stored one, and in the second
    case the themes of the records before the bad one have been taken
    through their record.  At [events.json], whether the file cannot be read
    or [EventNode.from_dict] rejects a record, the themes have their stored
    status, depth and slots too, and in the second case the events of the
    records before the bad one are in the collection.  A failed load has one
    of these five causes.  The last two parts say what a pass over theme
    records, and over event records, leaves. *)
Theorem load_checkpoint_failure :
  forall (now : datetime) (uuid : nat -> string)
         (dir : GraphManager.checkpoint) (gm : GraphManager.t),
    let r := GraphManager.load_checkpoint now uuid dir gm in
    (read_fails (GraphManager.graph_state_json dir) -> r = (gm, false))
    /\ (forall g,
          GraphManager.graph_state_json dir = Parsed g ->
          read_fails (GraphManager.themes_state_json dir) ->
          r = (GraphManager.with_graph gm g, false))
    /\ (forall g td themes,
          GraphManager.graph_state_json dir = Parsed g ->
          GraphManager.themes_state_json dir = Parsed td ->
          GraphManager.restore_themes (Dict.items td)
            (GraphManager.theme_nodes gm) = (themes, None) ->
          read_fails (GraphManager.events_json dir) ->
          r = (GraphManager.with_theme_nodes (GraphManager.with_graph gm g)
                 themes,
               false))
    /\ (forall g td before k bad after themes e,
          GraphManager.graph_state_json dir = Parsed g ->
          GraphManager.themes_state_json dir = Parsed td ->
          Dict.items td = before ++ (k, bad) :: after ->
          GraphManager.restore_themes before (GraphManager.theme_nodes gm)
          = (themes, None) ->
          Dict.contains (GraphManager.theme_nodes gm) k = true ->
          stored_status bad = Raise e ->
          r = (GraphManager.with_theme_nodes (GraphManager.with_graph gm g)
                 themes,
               false))
    /\ (forall g td themes ed before k bad after events e,
          GraphManager.graph_state_json dir = Parsed g ->
          GraphManager.themes_state_json dir = Parsed td ->
          GraphManager.restore_themes (Dict.items td)
            (GraphManager.theme_nodes gm) = (themes, None) ->
          GraphManager.events_json dir = Parsed ed ->
          Dict.items ed = before ++ (k, bad) :: after ->
          GraphManager.restore_events now uuid 0 before
            (GraphManager.event_nodes gm) = (events, None) ->
          EventNode.from_dict now (uuid (List.length before)) bad = Raise e ->
          r = (GraphManager.with_event_nodes
                 (GraphManager.with_theme_nodes
                    (GraphManager.with_graph gm g) themes)
                 events,
               false))
    /\ (snd r = false ->
        read_fails (GraphManager.graph_state_json dir)
        \/ read_fails (GraphManager.themes_state_json dir)
        \/ read_fails (GraphManager.events_json dir)
        \/ (exists td before k bad after e,
              GraphManager.themes_state_json dir = Parsed td
              /\ Dict.items td = before ++ (k, bad) :: after
              /\ Dict.contains (GraphManager.theme_nodes gm) k = true
              /\ stored_status bad = Raise e)
        \/ (exists ed before k bad after e,
              GraphManager.events_json dir = Parsed ed
              /\ Dict.items ed = before ++ (k, bad) :: after
              /\ EventNode.from_dict now (uuid (List.length before)) bad
                 = Raise e))
    /\ (forall records old themes,
          NoDup (Dict.keys records) ->
          GraphManager.restore_themes records old = (themes, None) ->
          Dict.keys themes = Dict.keys old
          /\ themes_restored records old themes)
    /\ (forall records old events,
          NoDup (Dict.keys records) ->
          GraphManager.restore_events now uuid 0 records old
          = (events, None) ->
          (forall j k ed, nth_error records j = Some (k, ed) ->
             exists ev,
               EventNode.from_dict now (uuid j) ed = Ok ev
               /\ Dict.get events k = Some ev)
          /\ (forall k, ~ In k (Dict.keys records) ->
                Dict.get events k = Dict.get old k)).
Proof.
  intros now uuid dir gm r. subst r. unfold GraphManager.load_checkpoint.
  split; [| split; [| split; [| split; [| split; [| split; [| split]]]]]].
  - destruct (GraphManager.graph_state_json dir); simpl; tauto.
  - intros g -> H.
    destruct (GraphManager.themes_state_json dir); simpl in *; tauto.
  - intros g td themes -> -> Hr H.
    cbn [GraphManager.with_graph GraphManager.theme_nodes].
    rewrite Hr.
    destruct (GraphManager.events_json dir); simpl in *; tauto.
  - intros g td before k bad after themes e -> -> Hi Hr Hc Hb.
    cbn [GraphManager.with_graph GraphManager.theme_nodes].
    rewrite Hi, (restore_themes_bad _ _ _ after _ _ _ Hr Hc Hb).
    reflexivity.
  - intros g td themes ed before k bad after events e -> -> Hr -> Hi Hre Hb.
    cbn [GraphManager.with_graph GraphManager.theme_nodes].
    rewrite Hr.
    cbn [GraphManager.with_theme_nodes GraphManager.with_graph
         GraphManager.event_nodes].
    rewrite Hi, restore_events_app, Hre.
    cbn [GraphManager.restore_events Nat.add]. now rewrite Hb.
  - destruct (GraphManager.graph_state_json dir) as [| |g];
      [now left | now left |].
    destruct (GraphManager.themes_state_json dir) as [| |td];
      [intros _; right; now left | intros _; right; now left |].
    cbn [GraphManager.with_graph GraphManager.theme_nodes].
    destruct (GraphManager.restore_themes _ _) as [themes [e|]] eqn:Hr.
    + intros _. right. right. right. left.
      destruct (restore_themes_fails _ _ _ _ Hr)
        as (bf & k & bad & af & Hi & _ & Hc & Hb).
      exists td, bf, k, bad, af, e. auto.
    + cbn [GraphManager.with_theme_nodes GraphManager.event_nodes].
      destruct (GraphManager.events_json dir) as [| |ed];
        [intros _; right; right; now left
        | intros _; right; right; now left |].
      destruct (GraphManager.restore_events _ _ _ _ _) as [events [e|]] eqn:Hre;
        [| discriminate].
      intros _. right. right. right. right.
      destruct (restore_events_fails _ _ _ _ _ _ _ Hre)
        as (bf & k & bad & af & Hi & _ & Hb).
      exists ed, bf, k, bad, af, e. auto.
  - intros records old themes ND Hr. split.
    + pose proof (restore_themes_keys records old) as K. now rewrite Hr in K.
    + now apply restore_themes_get.
  - intros records old events ND Hr. split.
    + intros j k ed Hj.
      apply (restore_events_get now uuid records 0 old events ND Hr j k ed Hj).
    + intros k N. eapply restore_events_other; eauto.
Qed.

(** A checkpoint whose themes file has the record of ["X"], then a record
    of ["A"] without status, loaded into a session where ["X"] is
    exhausted. *)
Lemma load_checkpoint_failure_witness :
  let gm :=
    GraphManager.run [GraphManager.MarkThemeExhausted 1 "X"] Sample.fresh in
  let record status :=
    ThemeNode.mk_dict None None None None None status None None None None
      None None None None None None None None in
  let dir :=
    GraphManager.mk_checkpoint
      (Parsed (GraphManager.graph Sample.fresh))
      (Parsed [("X", record (Some "pending")); ("A", record None)])
      Missing in
  exists themes,
    GraphManager.load_checkpoint 2 Sample.uuid dir gm
    = (GraphManager.with_theme_nodes
         (GraphManager.with_graph gm (GraphManager.graph Sample.fresh))
         themes,
       false)
    /\ option_map ThemeNode.status (Dict.get themes "X") = Some PENDING.
Proof.
  intros gm record dir. eexists. split.
  - apply (proj1 (proj2 (proj2 (proj2
             (load_checkpoint_failure 2 Sample.uuid dir gm))))
             (GraphManager.graph Sample.fresh)
             [("X", record (Some "pending")); ("A", record None)]
             [("X", record (Some "pending"))] "A" (record None) []
             _ (KeyError "status"));
      reflexivity.
  - vm_compute. reflexivity.
Defined.

(** ** Serialization of a theme *)

Lemma NodeStatus_round_trip s : NodeStatus_of_value (NodeStatus_value s) = Ok s.
Proof. destruct s; reflexivity. Qed.



Lemma parses_ok (field : option isostring) :
  parses field <-> exists d, parse_timestamp field = Ok d.
Proof.
  destruct field as [[d|s]|]; simpl; try (split; eauto; fail).
  destruct (String.eqb_spec s ""); simpl; split; eauto; try tauto.
  intros [d H]. discriminate.
Qed.

Lemma parse_malformed (s : string) :
  s <> "" -> parse_timestamp (Some (Malformed s)) = Raise (ValueError s).
Proof.
  intros H. simpl. apply String.eqb_neq in H. now rewrite H.
Qed.




(** ** [ThemeLoader.load] and repeated theme ids *)

Section LoadFacts.
Variable now : datetime.

Lemma create_ok d dom :
  ThemeLoader.has_required d = true ->
  exists n id,
    ThemeLoader._create_theme_node now d dom = Ok n
    /\ ThemeLoader.def_theme_id d = Some id
    /\ ThemeNode.theme_id n = id.
Proof.
  unfold ThemeLoader.has_required, ThemeLoader._create_theme_node.
  destruct (ThemeLoader.def_theme_id d) as [id|]; [| discriminate].
  destruct (ThemeLoader.def_title d); [| discriminate].
  destruct (ThemeLoader.def_description d); [| discriminate].
  intros _. simpl. eauto.
Qed.

Lemma load_themes_spec dom defs : forall st,
  Forall (fun d => ThemeLoader.has_required d = true) defs ->
  ThemeLoader.load_themes now dom defs st
  = (ThemeLoader.mk_loop
       (insert_defs now (map (pair dom) defs) (ThemeLoader.ls_nodes st))
       (ThemeLoader.ls_theme_count st + Z.of_nat (List.length defs))
       (ThemeLoader.ls_log st),
     None).
Proof.
  induction defs as [|d r IH]; intros st H.
  - destruct st; simpl. now rewrite Z.add_0_r.
  - inversion H as [|? ? Hd Hr]; subst.
    destruct (create_ok d dom Hd) as (n & id & Hn & _ & _).
    cbn [ThemeLoader.load_themes]. rewrite Hn, IH by assumption.
    unfold insert_defs.
    cbn [map fold_left fst snd ThemeLoader.ls_nodes
         ThemeLoader.ls_theme_count ThemeLoader.ls_log List.length].
    rewrite Hn. do 2 f_equal. lia.
Qed.

Lemma insert_defs_app a b nodes :
  insert_defs now (a ++ b) nodes = insert_defs now b (insert_defs now a nodes).
Proof. apply fold_left_app. Qed.

Lemma load_domains_spec domains : forall st,
  let c := ThemeLoader.mk_catalog (Some domains) in
  Forall (fun pd => ThemeLoader.has_required (snd pd) = true)
    (ThemeLoader.processed_defs c) ->
  ThemeLoader.load_domains now domains st
  = (ThemeLoader.mk_loop
       (insert_defs now (ThemeLoader.processed_defs c) (ThemeLoader.ls_nodes st))
       (ThemeLoader.ls_theme_count st
        + Z.of_nat (List.length (ThemeLoader.processed_defs c)))
       (ThemeLoader.ls_log st
        ++ map (fun id => (WARNING, MsgUnknownDomain id))
             (ThemeLoader.unknown_domains c)),
     None).
Proof.
  unfold ThemeLoader.processed_defs, ThemeLoader.unknown_domains.
  cbn [get_default ThemeLoader.cat_domains].
  induction domains as [|[domain_id dd] r IH]; intros st H.
  - destruct st; simpl. now rewrite Z.add_0_r, app_nil_r.
  - cbn [flat_map] in H. apply Forall_app in H as [H1 H2].
    cbn [ThemeLoader.load_domains flat_map Dict.keys map fst filter].
    destruct (Domain_of_value domain_id) as [dom|e].
    + rewrite load_themes_spec.
      2: { rewrite Forall_map in H1. exact H1. }
      rewrite IH by assumption. cbn [ThemeLoader.ls_nodes
        ThemeLoader.ls_theme_count ThemeLoader.ls_log].
      rewrite insert_defs_app, length_app, length_map.
      do 2 f_equal. lia.
    + rewrite IH by assumption. cbn [ThemeLoader.ls_nodes
        ThemeLoader.ls_theme_count ThemeLoader.ls_log app].
      rewrite <- app_assoc. reflexivity.
Qed.

Lemma insert_defs_NoDup defs : forall nodes,
  NoDup (Dict.keys nodes) -> NoDup (Dict.keys (insert_defs now defs nodes)).
Proof.
  induction defs as [|pd r IH]; intros nodes H; simpl; auto.
  apply IH.
  destruct (ThemeLoader._create_theme_node now (snd pd) (fst pd)); auto.
  now apply keys_set_NoDup.
Qed.

Lemma insert_defs_keys defs : forall nodes id,
  Forall (fun pd => ThemeLoader.has_required (snd pd) = true) defs ->
  In id (Dict.keys (insert_defs now defs nodes)) <->
  In id (Dict.keys nodes)
  \/ exists pd, In pd defs /\ ThemeLoader.def_theme_id (snd pd) = Some id.
Proof.
  induction defs as [|pd r IH]; intros nodes id H; simpl.
  - split; [tauto | intros [? | (? & [] & _)]; auto].
  - inversion H as [|? ? Hd Hr]; subst.
    destruct (create_ok (snd pd) (fst pd) Hd) as (n & i & Hn & Hi & Hni).
    rewrite Hn, IH, keys_set_iff by assumption. rewrite Hni. split.
    + intros [[-> | Hin] | (pd' & Hin & E)]; eauto.
    + intros [Hin | (pd' & [<- | Hin] & E)]; eauto.
      left. left. congruence.
Qed.

Lemma find_snoc {A : Type} (f : A -> bool) (l : list A) (x : A) :
  find f (l ++ [x])
  = match find f l with
    | Some y => Some y
    | None => if f x then Some x else None
    end.
Proof.
  induction l as [|a r IH]; simpl; [reflexivity |].
  destruct (f a); auto.
Qed.

Lemma insert_defs_get defs : forall nodes id,
  Forall (fun pd => ThemeLoader.has_required (snd pd) = true) defs ->
  Dict.get (insert_defs now defs nodes) id
  = match ThemeLoader.last_definition id defs with
    | Some pd =>
        match ThemeLoader._create_theme_node now (snd pd) (fst pd) with
        | Ok n => Some n
        | Raise _ => None
        end
    | None => Dict.get nodes id
    end.
Proof.
  unfold ThemeLoader.last_definition.
  induction defs as [|pd r IH]; intros nodes id H; simpl; auto.
  inversion H as [|? ? Hd Hr]; subst.
  destruct (create_ok (snd pd) (fst pd) Hd) as (n & i & Hn & Hi & Hni).
  rewrite Hn, IH, find_snoc by assumption.
  destruct (find (ThemeLoader.defines id) (rev r)); auto.
  unfold ThemeLoader.defines. rewrite Hi, Hni.
  destruct (String.eqb i id) eqn:E.
  - apply String.eqb_eq in E. subst. now rewrite Hn, get_set_same.
  - apply String.eqb_neq in E. now apply get_set_other.
Qed.
End LoadFacts.

Lemma NoDup_map_Some {A : Type} (l : list A) : NoDup l -> NoDup (map Some l).
Proof.
  induction 1 as [|x l Hx H IH]; simpl; constructor; auto.
  rewrite in_map_iff. intros (y & E & Hy). injection E as ->. auto.
Qed.

Lemma shared_id_not_NoDup (defs : list (Domain * ThemeLoader.theme_def)) :
  Forall (fun pd => ThemeLoader.has_required (snd pd) = true) defs ->
  (exists i j d1 d2,
      i <> j /\ nth_error defs i = Some d1 /\ nth_error defs j = Some d2
      /\ ThemeLoader.def_theme_id (snd d1) = ThemeLoader.def_theme_id (snd d2)) ->
  ~ NoDup (map (fun pd => ThemeLoader.def_theme_id (snd pd)) defs).
Proof.
  intros _ (i & j & d1 & d2 & Hij & H1 & H2 & E) ND.
  rewrite NoDup_nth_error in ND. apply Hij, ND.
  - rewrite length_map. apply nth_error_Some. congruence.
  - rewrite !nth_error_map, H1, H2. simpl. now rewrite E.
Qed.

(** C10.  On a readable catalog whose definitions, under the domain keys
    that resolve, all have an id, a title and a description, [load] returns
    a map and keeps it in the loader.  The map has one entry per distinct
    [theme_id]; under an id that several definitions share it holds the node
    of the last of them in catalog order.  The only warnings are those for
    domain keys that do not resolve, and there is no error entry: a repeated
    id is not reported.  [get_theme_count()] is at most the number of
    definitions, and less when two of them share an id, while the INFO line
    of [load] counts every definition. *)
Theorem load_keeps_last_definition :
  forall (now : datetime) (c : ThemeLoader.catalog) (self : ThemeLoader.t),
    let defs := ThemeLoader.processed_defs c in
    Forall (fun pd => ThemeLoader.has_required (snd pd) = true) defs ->
    exists nodes log,
      ThemeLoader.load now (Parsed c) self
      = (ThemeLoader.mk c nodes, Ok nodes, log)
      /\ NoDup (Dict.keys nodes)
      /\ (forall id,
            In id (Dict.keys nodes) <->
            exists pd, In pd defs
                       /\ ThemeLoader.def_theme_id (snd pd) = Some id)
      /\ (forall id dom d,
            ThemeLoader.last_definition id defs = Some (dom, d) ->
            exists n,
              ThemeLoader._create_theme_node now d dom = Ok n
              /\ Dict.get nodes id = Some n)
      /\ filter is_warning_or_error log
         = map (fun id => (WARNING, MsgUnknownDomain id))
             (ThemeLoader.unknown_domains c)
      /\ In (INFO, MsgThemesLoaded (Z.of_nat (List.length defs))) log
      /\ ThemeLoader.get_theme_count (ThemeLoader.mk c nodes)
         <= Z.of_nat (List.length defs)
      /\ ((exists i j d1 d2,
              i <> j
              /\ nth_error defs i = Some d1 /\ nth_error defs j = Some d2
              /\ ThemeLoader.def_theme_id (snd d1)
                 = ThemeLoader.def_theme_id (snd d2)) ->
          ThemeLoader.get_theme_count (ThemeLoader.mk c nodes)
          < Z.of_nat (List.length defs)).
Proof.
  intros now c self defs Hreq.
  assert (Hc : c = ThemeLoader.mk_catalog
                     (Some (get_default (ThemeLoader.cat_domains c) Dict.empty))
               \/ ThemeLoader.cat_domains c = None).
  { destruct c as [[ds|]]; simpl; auto. }
  assert (Hload :
    ThemeLoader.load_domains now
      (Dict.items (get_default (ThemeLoader.cat_domains c) Dict.empty))
      (ThemeLoader.mk_loop Dict.empty 0 [])
    = (ThemeLoader.mk_loop (insert_defs now defs Dict.empty)
         (Z.of_nat (List.length defs))
         (map (fun id => (WARNING, MsgUnknownDomain id))
            (ThemeLoader.unknown_domains c)),
       None)).
  { subst defs. destruct c as [[ds|]]; [| reflexivity].
    apply (load_domains_spec now ds (ThemeLoader.mk_loop Dict.empty 0 [])).
    exact Hreq. }
  clear Hc.
  set (nodes := insert_defs now defs Dict.empty).
  assert (ND : NoDup (Dict.keys nodes))
    by (apply insert_defs_NoDup; constructor).
  assert (Hkeys : forall id,
            In id (Dict.keys nodes) <->
            exists pd, In pd defs
                       /\ ThemeLoader.def_theme_id (snd pd) = Some id).
  { intros id. subst nodes. rewrite insert_defs_keys by assumption.
    simpl. tauto. }
  set (ids := map (fun pd => ThemeLoader.def_theme_id (snd pd)) defs).
  assert (Hincl : incl (map Some (Dict.keys nodes)) ids).
  { intros x Hx. apply in_map_iff in Hx as (id & <- & Hid).
    apply Hkeys in Hid as (pd & Hin & E). subst ids.
    apply in_map_iff. eauto. }
  assert (NDs : NoDup (map Some (Dict.keys nodes))).
  { now apply NoDup_map_Some. }
  assert (Hlen : (List.length nodes <= List.length defs)%nat).
  { pose proof (NoDup_incl_length NDs Hincl) as L. subst ids.
    unfold Dict.keys in L. now rewrite !length_map in L. }
  exists nodes. eexists. unfold ThemeLoader.load. rewrite Hload.
  cbn [ThemeLoader.ls_nodes ThemeLoader.ls_theme_count ThemeLoader.ls_log].
  fold nodes.
  split; [reflexivity |]. split; [exact ND |]. split; [exact Hkeys |].
  split; [| split; [| split; [| split]]].
  - intros id dom d Hlast.
    pose proof (insert_defs_get now defs Dict.empty id Hreq) as G.
    fold nodes in G. rewrite Hlast in G. cbn [fst snd] in G.
    assert (Hd : ThemeLoader.has_required d = true).
    { unfold ThemeLoader.last_definition in Hlast.
      apply find_some in Hlast as [Hin _]. apply in_rev in Hin.
      rewrite Forall_forall in Hreq. exact (Hreq _ Hin). }
    destruct (create_ok now d dom Hd) as (n & i & Hn & _ & _).
    rewrite Hn in G. eauto.
  - rewrite filter_app. cbn [filter is_warning_or_error fst].
    rewrite app_nil_r. clear.
    induction (ThemeLoader.unknown_domains c) as [|x r IH];
      [reflexivity | cbn; now f_equal].
  - apply in_or_app. right. now left.
  - unfold ThemeLoader.get_theme_count, Dict.len. simpl. lia.
  - intros Hshared.
    unfold ThemeLoader.get_theme_count, Dict.len. simpl.
    apply (shared_id_not_NoDup defs Hreq) in Hshared.
    destruct (Nat.eq_dec (List.length nodes) (List.length defs)) as [E | N];
      [| lia].
    exfalso. apply Hshared. fold ids.
    apply (NoDup_incl_NoDup NDs); [| exact Hincl].
    subst ids. unfold Dict.keys. rewrite !length_map. lia.
Qed.

Lemma load_keeps_last_definition_witness :
  let c :=
    ThemeLoader.mk_catalog
      (Some [("key_scenes",
              ThemeLoader.mk_domain_data
                (Some [Sample.theme "A" 1 []; Sample.theme "B" 2 []]));
             ("side_notes",
              ThemeLoader.mk_domain_data (Some [Sample.theme "C" 1 []]));
             ("challenges",
              ThemeLoader.mk_domain_data (Some [Sample.theme "A" 7 ["B"]]))])
  in
  exists nodes log,
    ThemeLoader.load 0 (Parsed c) ThemeLoader.__init__
    = (ThemeLoader.mk c nodes, Ok nodes, log)
    /\ Dict.keys nodes = ["A"; "B"]
    /\ option_map ThemeNode.priority (Dict.get nodes "A") = Some 7
    /\ log = [(WARNING, MsgUnknownDomain "side_notes");
              (INFO, MsgThemesLoaded 3)]
    /\ ThemeLoader.get_theme_count (ThemeLoader.mk c nodes) < 3.
Proof.
  intros c.
  assert (Hreq : Forall (fun pd => ThemeLoader.has_required (snd pd) = true)
                   (ThemeLoader.processed_defs c))
    by (repeat constructor).
  destruct (load_keeps_last_definition 0 c ThemeLoader.__init__ Hreq)
    as (nodes & log & Hload & _ & _ & _ & _ & _ & _ & Hlt).
  exists nodes, log. split; [exact Hload |].
  assert (Hc : ThemeLoader.get_theme_count (ThemeLoader.mk c nodes) < 3).
  { apply Hlt. exists 0%nat, 2%nat. do 2 eexists.
    repeat split; try reflexivity. discriminate. }
  vm_compute in Hload. injection Hload as Hn Hl. subst nodes log.
  split; [reflexivity | split; [reflexivity | split; [reflexivity |]]].
  exact Hc.
Defined.

(** ** What the code does keep *)

(** [update_event_depth] fails on an unknown id only, and stores
    [min(new_depth, 5)]: never more than 5. *)
Lemma update_event_depth_effect event_id new_depth gm :
  let r := GraphManager.update_event_depth event_id new_depth gm in
  match Dict.get (GraphManager.event_nodes gm) event_id with
  | None => r = (gm, false)
  | Some _ =>
      snd r = true
      /\ exists e,
          Dict.get (GraphManager.event_nodes (fst r)) event_id = Some e
          /\ EventNode.depth_level e = Z.min new_depth 5
          /\ EventNode.depth_level e <= 5
  end.
Proof.
  unfold GraphManager.update_event_depth.
  destruct (Dict.get (GraphManager.event_nodes gm) event_id) as [e|];
    [| reflexivity].
  cbn [GraphManager.with_event_nodes GraphManager.graph
       GraphManager.event_nodes].
  destruct (Dict.get (GraphManager.nodes (GraphManager.graph gm)) event_id);
    cbn; (split; [reflexivity |]); eexists;
    (split; [apply get_set_same |]); cbn; split; lia.
Qed.

Lemma increment_depth_at_most_5 e :
  EventNode.depth_level e <= 5 ->
  EventNode.depth_level e
  <= EventNode.depth_level (EventNode.increment_depth e) <= 5.
Proof. cbn. lia. Qed.

Section Consistency.
Implicit Types (gm : GraphManager.t).

Lemma set_new {V : Type} (d : Dict.t V) k v :
  Dict.get d k = None -> Dict.set d k v = d ++ [(k, v)].
Proof.
  induction d as [|[k' v'] r IH]; simpl; auto.
  destruct (String.eqb k k'); [discriminate |].
  intros H. now rewrite IH.
Qed.

Lemma same_ids_spec a b :
  GraphManager.same_ids a b = true <-> (forall x, In x a <-> In x b).
Proof.
  unfold GraphManager.same_ids.
  rewrite andb_true_iff, !forallb_forall. split.
  - intros [H1 H2] x. split; intros Hx.
    + apply str_in_In, H1, Hx.
    + apply str_in_In, H2, Hx.
  - intros H. split; intros x Hx; apply str_in_In, H, Hx.
Qed.

Lemma add_event_node_event_nodes now event tid gm :
  GraphManager.event_nodes
    (fst (GraphManager.add_event_node now event tid gm))
  = if Dict.contains (GraphManager.theme_nodes gm) tid
    then Dict.set (GraphManager.event_nodes gm) (EventNode.event_id event)
           event
    else GraphManager.event_nodes gm.
Proof.
  unfold GraphManager.add_event_node, Dict.contains.
  destruct (Dict.get (GraphManager.theme_nodes gm) tid) as [theme|] eqn:E;
    cbn [negb]; [| reflexivity].
  cbn [GraphManager.with_event_nodes GraphManager.with_graph
       GraphManager.theme_nodes GraphManager.event_nodes GraphManager.graph].
  rewrite E. cbv zeta.
  destruct (NodeStatus_eqb _ PENDING); reflexivity.
Qed.

Lemma forallb_set {V : Type} (f : string * V -> bool) (d : Dict.t V) k v :
  NoDup (Dict.keys d) ->
  In k (Dict.keys d) ->
  (forall k' v', In (k', v') d -> k' <> k -> f (k', v') = true) ->
  f (k, v) = true ->
  forallb f (Dict.set d k v) = true.
Proof.
  induction d as [|[k0 v0] r IH]; simpl; [tauto |].
  intros ND Hin Hother Hk. inversion ND as [|? ? Hn ND']; subst.
  destruct (String.eqb k k0) eqn:E.
  - apply String.eqb_eq in E. subst k0. simpl. rewrite Hk. simpl.
    apply forallb_forall. intros [k' v'] Hx. apply Hother; auto.
    intros ->. apply Hn. apply in_map_iff. exists (k, v'). auto.
  - apply String.eqb_neq in E. simpl. rewrite Hother; auto. simpl.
    apply IH; auto.
    destruct Hin; [congruence | assumption].
Qed.

(** [add_event_node] keeps themes and events consistent when the event is
    new and is filed under the theme it names. *)
Lemma add_event_node_keeps_consistent now event tid gm :
  NoDup (Dict.keys (GraphManager.theme_nodes gm)) ->
  EventNode.theme_id event = tid ->
  Dict.get (GraphManager.event_nodes gm) (EventNode.event_id event) = None ->
  GraphManager.consistent gm = true ->
  GraphManager.consistent (fst (GraphManager.add_event_node now event tid gm))
  = true.
Proof.
  intros ND Hown Hnew Hc.
  unfold GraphManager.consistent, GraphManager.events_owned_by, Dict.items
    in *.
  rewrite add_event_node_theme_nodes, add_event_node_event_nodes.
  unfold Dict.contains.
  destruct (Dict.get (GraphManager.theme_nodes gm) tid) as [theme|] eqn:Et;
    [| exact Hc].
  cbv zeta. rewrite set_new by assumption.
  rewrite forallb_forall in Hc.
  apply forallb_set; auto.
  - eapply get_Some_in; eauto.
  - intros k' v' Hin Hk. specialize (Hc _ Hin). cbn beta iota in Hc.
    rewrite filter_app, map_app. cbn [filter].
    rewrite Hown.
    assert (E : String.eqb tid k' = false)
      by (apply String.eqb_neq; congruence).
    rewrite E. cbn [map]. now rewrite app_nil_r.
  - assert (Hin : In (tid, theme) (GraphManager.theme_nodes gm)).
    { clear - Et. induction (GraphManager.theme_nodes gm) as [|[k v] r IH];
        simpl in *; [discriminate |].
      destruct (String.eqb tid k) eqn:E.
      - apply String.eqb_eq in E. injection Et as ->. subst. now left.
      - right. auto. }
    specialize (Hc _ Hin). cbn beta iota in Hc.
    rewrite same_ids_spec in Hc. apply same_ids_spec. intros x.
    rewrite filter_app, map_app. cbn [filter]. rewrite Hown.
    rewrite String.eqb_refl. cbn [map fst]. rewrite in_app_iff, <- Hc.
    set (t1 := ThemeNode.increment_depth _).
    assert (Ex : forall y, In y (ThemeNode.extracted_events t1) <->
                           In y (ThemeNode.extracted_events theme)
                           \/ y = EventNode.event_id event).
    { intros y. subst t1. unfold ThemeNode.add_extracted_event.
      destruct (str_in _ _) eqn:Es; cbn.
      - apply str_in_In in Es. split; [tauto |].
        intros [H | ->]; auto.
      - rewrite in_app_iff. simpl. intuition. }
    assert (Ex' : ThemeNode.extracted_events
                    (if NodeStatus_eqb (ThemeNode.status t1) PENDING
                     then ThemeNode.mark_mentioned now t1 else t1)
                  = ThemeNode.extracted_events t1).
    { unfold ThemeNode.mark_mentioned.
      destruct (NodeStatus_eqb (ThemeNode.status t1) PENDING); reflexivity. }
    rewrite Ex', Ex. simpl. intuition.
Qed.
End Consistency.

(** * Further properties of the code

    Of the four files, [calculate_coverage] and [get_graph_state] are left
    out: they add floats up, and a sum of floats is not the sum of the
    rationals; so are [__repr__] and the [networkx] branches. *)

(** ** [ThemeNode] *)

Lemma Zpos_of_nat (n : nat) : n <> 0%nat -> Z.pos (Pos.of_nat n) = Z.of_nat n.
Proof.
  intros H. rewrite <- positive_nat_Z. now rewrite Nat2Pos.id.
Qed.

Lemma depth_ratio_le_1 n : (ThemeNode.depth_ratio n <= 1)%Q.
Proof. unfold ThemeNode.depth_ratio. apply Q.le_min_r. Qed.

Lemma depth_ratio_nonneg n :
  0 <= ThemeNode.exploration_depth n -> (0 <= ThemeNode.depth_ratio n)%Q.
Proof.
  intros H. unfold ThemeNode.depth_ratio. apply Q.min_glb.
  - unfold Qle. simpl. lia.
  - discriminate.
Qed.

Lemma filled_count_le n :
  (ThemeNode.filled_count n <= List.length (ThemeNode.slots_filled n))%nat.
Proof.
  unfold ThemeNode.filled_count, Dict.values.
  etransitivity; [apply filter_length_le |]. now rewrite length_map.
Qed.

Lemma ratio_bounds :
  forall n : ThemeNode.t,
    (ThemeNode.get_completion_ratio n <= 1)%Q
    /\ (0 <= ThemeNode.exploration_depth n ->
        (0 <= ThemeNode.get_completion_ratio n)%Q)
    /\ ((0 < ThemeNode.filled_count n)%nat ->
        (0 < ThemeNode.get_completion_ratio n)%Q).
Proof.
  intros n. pose proof (filled_count_le n) as L.
  unfold ThemeNode.get_completion_ratio.
  destruct (ThemeNode.slots_filled n) as [|kv r] eqn:Es; cbn [Dict.truthy negb].
  - repeat split.
    + apply depth_ratio_le_1.
    + apply depth_ratio_nonneg.
    + unfold ThemeNode.filled_count. rewrite Es. simpl. lia.
  - destruct (0 <? Z.of_nat (ThemeNode.filled_count n)) eqn:Ef.
    + apply Z.ltb_lt in Ef. repeat split; intros; unfold Qle, Qlt;
        cbn [Qnum Qden]; rewrite Zpos_of_nat by discriminate; lia.
    + apply Z.ltb_ge in Ef. repeat split.
      * apply depth_ratio_le_1.
      * apply depth_ratio_nonneg.
      * lia.
Qed.

(** X1.  The completion ratio of a theme is at most 1 whatever its fields;
    it is at least 0 as soon as the depth is not negative, and positive as
    soon as one slot is filled. *)
Theorem completion_ratio_bounds :
  forall n : ThemeNode.t,
    (ThemeNode.get_completion_ratio n <= 1)%Q
    /\ (0 <= ThemeNode.exploration_depth n ->
        (0 <= ThemeNode.get_completion_ratio n)%Q)
    /\ ((0 < ThemeNode.filled_count n)%nat ->
        (0 < ThemeNode.get_completion_ratio n)%Q).
Proof. exact ratio_bounds. Qed.

Lemma completion_ratio_bounds_witness :
  (0 <= ThemeNode.get_completion_ratio
          (ThemeNode.update_slot "time" true Sample.node_A))%Q
  /\ (0 < ThemeNode.get_completion_ratio
            (ThemeNode.update_slot "time" true Sample.node_A))%Q.
Proof.
  split.
  - apply (proj1 (proj2 (completion_ratio_bounds _))). simpl. lia.
  - apply (proj2 (proj2 (completion_ratio_bounds _))). vm_compute. lia.
Defined.

Lemma event_depth_iter (k : nat) (e : EventNode.t) :
  EventNode.depth_level (Nat.iter k EventNode.increment_depth e)
  = (if Nat.eqb k 0 then EventNode.depth_level e
     else Z.min (EventNode.depth_level e + Z.of_nat k) 5).
Proof.
  induction k as [|k IH]; [reflexivity |].
  rewrite Nat.iter_succ. cbn [Nat.eqb].
  remember (Nat.iter k EventNode.increment_depth e) as m.
  unfold EventNode.increment_depth.
  cbn [EventNode.depth_level EventNode.with_depth_level].
  rewrite IH. destruct (Nat.eqb k 0) eqn:E.
  - apply Nat.eqb_eq in E. subst. simpl. reflexivity.
  - lia.
Qed.

(** X2.  [k] calls of [increment_depth] take a depth [d] to
    [min(d + k, 5)] ([k > 0]), on a theme and on an event alike: the depth
    saturates at 5, and the status of the theme is not touched. *)
Theorem increment_depth_saturates :
  forall (k : nat),
    (forall n : ThemeNode.t,
        let n' := Nat.iter k ThemeNode.increment_depth n in
        ThemeNode.exploration_depth n'
        = (if Nat.eqb k 0 then ThemeNode.exploration_depth n
           else Z.min (ThemeNode.exploration_depth n + Z.of_nat k) 5)
        /\ ThemeNode.status n' = ThemeNode.status n)
    /\ (forall e : EventNode.t,
          EventNode.depth_level (Nat.iter k EventNode.increment_depth e)
          = (if Nat.eqb k 0 then EventNode.depth_level e
             else Z.min (EventNode.depth_level e + Z.of_nat k) 5)).
Proof.
  intros k. split; [| intros e; apply event_depth_iter].
  induction k as [|k IH]; intros n; [split; reflexivity |].
  destruct (IH n) as [D S]. cbv zeta in *. rewrite Nat.iter_succ.
  cbn [Nat.eqb]. remember (Nat.iter k ThemeNode.increment_depth n) as m.
  unfold ThemeNode.increment_depth.
  cbn [ThemeNode.exploration_depth ThemeNode.with_exploration_depth
       ThemeNode.status].
  rewrite D, S. split; [| reflexivity].
  destruct (Nat.eqb k 0) eqn:E.
  - apply Nat.eqb_eq in E. subst. simpl. reflexivity.
  - lia.
Qed.

Lemma skipn_nth_error {A : Type} (l : list A) : forall c,
  (c < List.length l)%nat ->
  exists x, nth_error l c = Some x /\ skipn c l = x :: skipn (S c) l.
Proof.
  induction l as [|a r IH]; intros c H; simpl in H; [lia |].
  destruct c as [|c].
  - exists a. split; reflexivity.
  - destruct (IH c) as (x & Hx & Hs); [lia |].
    exists x. split; [exact Hx | exact Hs].
Qed.

Lemma ask_from k : forall (n : ThemeNode.t) (c : nat),
  ThemeNode.current_question_index n = Z.of_nat c ->
  (c <= List.length (ThemeNode.seed_questions n))%nat ->
  let qs := ThemeNode.seed_questions n in
  fst (ask k n)
  = map Some (firstn k (skipn c qs))
    ++ repeat None (k - (List.length qs - c))
  /\ ThemeNode.current_question_index (snd (ask k n))
     = Z.of_nat (Nat.min (c + k) (List.length qs))
  /\ ThemeNode.seed_questions (snd (ask k n)) = qs.
Proof.
  induction k as [|k IH]; intros n c Hc Hle qs.
  - simpl. rewrite Nat.add_0_r, Nat.min_l by exact Hle. auto.
  - cbn [ask]. unfold ThemeNode.get_next_seed_question. rewrite Hc.
    fold qs.
    destruct (Nat.eq_dec c (List.length qs)) as [E | N].
    + assert (Hcond : (0 <=? Z.of_nat c) && (Z.of_nat c <? Z.of_nat (List.length qs))
                      = false).
      { apply andb_false_iff. right. apply Z.ltb_ge. lia. }
      rewrite Hcond. specialize (IH n c Hc Hle). fold qs in IH.
      destruct (ask k n) as [answers n'']. cbn [fst snd] in *.
      destruct IH as (Ha & Hi & Hq). rewrite Ha, Hi, Hq.
      rewrite E, skipn_all, !firstn_nil, Nat.sub_diag, !Nat.sub_0_r.
      repeat split. rewrite !Nat.min_r by apply Nat.le_add_r. reflexivity.
    + assert (Hlt : (c < List.length qs)%nat) by (fold qs in Hle; lia).
      assert (Hcond : (0 <=? Z.of_nat c) && (Z.of_nat c <? Z.of_nat (List.length qs))
                      = true).
      { apply andb_true_iff. split; [apply Z.leb_le | apply Z.ltb_lt]; lia. }
      rewrite Hcond, Nat2Z.id.
      destruct (skipn_nth_error qs c Hlt) as (x & Hx & Hs).
      set (n' := ThemeNode.with_current_question_index n (Z.of_nat c + 1)).
      assert (Hc' : ThemeNode.current_question_index n' = Z.of_nat (S c))
        by (subst n'; cbn; lia).
      specialize (IH n' (S c) Hc' Hlt).
      change (ThemeNode.seed_questions n') with qs in IH.
      destruct (ask k n') as [answers n'']. cbn [fst snd] in *.
      destruct IH as (Ha & Hi & Hq). rewrite Ha, Hi, Hq, Hx, Hs.
      cbn [firstn map app]. repeat split.
      * do 3 f_equal. lia.
      * f_equal. destruct (Nat.le_ge_cases (c + S k) (List.length qs));
          [rewrite !Nat.min_l by lia | rewrite !Nat.min_r by lia]; lia.
Qed.

(** X3.  Starting from the first seed question (a fresh theme, or after
    [reset_question_index]), [k] calls of [get_next_seed_question] give the
    first [k] questions in order and then [None] for every further call;
    the cursor stops at the length of the list, and [has_more_questions]
    says whether a question is left. *)
Theorem seed_questions_in_order :
  forall (n : ThemeNode.t) (k : nat),
    let qs := ThemeNode.seed_questions n in
    let r := ask k (ThemeNode.reset_question_index n) in
    fst r = map Some (firstn k qs) ++ repeat None (k - List.length qs)
    /\ ThemeNode.current_question_index (snd r)
       = Z.of_nat (Nat.min k (List.length qs))
    /\ ThemeNode.has_more_questions (snd r) = (k <? List.length qs)%nat.
Proof.
  intros n k qs r.
  destruct (ask_from k (ThemeNode.reset_question_index n) 0 eq_refl
              (Nat.le_0_l _)) as (Ha & Hi & Hq).
  fold r in Ha, Hi, Hq.
  change (ThemeNode.seed_questions (ThemeNode.reset_question_index n))
    with qs in *.
  rewrite Ha, Hi. cbn [skipn]. rewrite Nat.sub_0_r. repeat split.
  unfold ThemeNode.has_more_questions. rewrite Hi, Hq.
  destruct (k <? List.length qs)%nat eqn:E.
  - apply Nat.ltb_lt in E. apply Z.ltb_lt. lia.
  - apply Nat.ltb_ge in E. apply Z.ltb_ge. lia.
Qed.

(** X4.  [add_extracted_event] is an insertion into a set: the id is in the
    list afterwards, nothing else enters or leaves, a list without
    repetition stays so, and adding the same id again changes nothing. *)
Theorem add_extracted_event_set :
  forall (event_id : string) (n : ThemeNode.t),
    let n' := ThemeNode.add_extracted_event event_id n in
    (forall x, In x (ThemeNode.extracted_events n') <->
               x = event_id \/ In x (ThemeNode.extracted_events n))
    /\ (NoDup (ThemeNode.extracted_events n) ->
        NoDup (ThemeNode.extracted_events n'))
    /\ ThemeNode.add_extracted_event event_id n' = n'
    /\ (In event_id (ThemeNode.extracted_events n) -> n' = n).
Proof.
  intros event_id n n'. subst n'. unfold ThemeNode.add_extracted_event.
  destruct (str_in event_id (ThemeNode.extracted_events n)) eqn:E; cbn [negb].
  - rewrite E. cbn [negb]. apply str_in_In in E. repeat split; auto.
    + intros [-> | H]; auto.
  - assert (Hin : str_in event_id
                    (ThemeNode.extracted_events n ++ [event_id]) = true).
    { apply str_in_In, in_or_app. right. now left. }
    cbn [ThemeNode.extracted_events ThemeNode.with_extracted_events].
    rewrite Hin. cbn [negb]. repeat split.
    + rewrite in_app_iff. simpl. intuition.
    + rewrite in_app_iff. simpl. intuition.
    + intros ND. apply NoDup_app; auto.
      * constructor; [simpl; tauto | constructor].
      * intros x Hx [<- | []]. apply str_in_In in Hx. congruence.
    + intros H. apply str_in_In in H. congruence.
Qed.

Lemma add_extracted_event_set_witness :
  NoDup (ThemeNode.extracted_events
           (ThemeNode.add_extracted_event "e1"
              (ThemeNode.add_extracted_event "e1" Sample.node_A))).
Proof.
  apply (proj1 (proj2 (add_extracted_event_set "e1" _))).
  apply (proj1 (proj2 (add_extracted_event_set "e1" Sample.node_A))).
  constructor.
Defined.

Lemma in_values_set {V : Type} (d : Dict.t V) k v :
  In v (Dict.values (Dict.set d k v)).
Proof.
  induction d as [|[k' v'] r IH]; simpl; auto.
  destruct (String.eqb k k'); simpl; auto.
Qed.

Lemma set_truthy {V : Type} (d : Dict.t V) k v :
  Dict.truthy (Dict.set d k v) = true.
Proof. destruct d as [|[k' v'] r]; simpl; auto. destruct (String.eqb k k'); auto. Qed.

(** X5.  [update_slot] writes one entry of [slots_filled]: the slot reads
    back as written, every other slot reads as before, no slot disappears;
    and once a slot is written as filled the completion ratio is the slot
    ratio, positive and at most 1, whatever the depth. *)
Theorem update_slot_lookup :
  forall (slot_name : string) (filled : bool) (n : ThemeNode.t),
    let n' := ThemeNode.update_slot slot_name filled n in
    Dict.get (ThemeNode.slots_filled n') slot_name = Some filled
    /\ (forall other, other <> slot_name ->
          Dict.get (ThemeNode.slots_filled n') other
          = Dict.get (ThemeNode.slots_filled n) other)
    /\ (forall x, In x (Dict.keys (ThemeNode.slots_filled n)) ->
                  In x (Dict.keys (ThemeNode.slots_filled n')))
    /\ (filled = true ->
        ThemeNode.get_completion_ratio n'
        = Qmake (Z.of_nat (ThemeNode.filled_count n'))
            (Pos.of_nat (List.length (ThemeNode.slots_filled n')))
        /\ (0 < ThemeNode.get_completion_ratio n' <= 1)%Q).
Proof.
  intros slot_name filled n n'. subst n'. unfold ThemeNode.update_slot.
  cbn [ThemeNode.slots_filled ThemeNode.with_slots_filled].
  split; [apply get_set_same |].
  split; [intros other H; apply get_set_other; congruence |].
  split; [intros x H; apply keys_set_iff; auto |].
  intros ->.
  set (n' := ThemeNode.with_slots_filled n _).
  assert (Hf : (0 < ThemeNode.filled_count n')%nat).
  { unfold ThemeNode.filled_count. subst n'.
    cbn [ThemeNode.slots_filled ThemeNode.with_slots_filled].
    pose proof (in_values_set (ThemeNode.slots_filled n) slot_name true) as I.
    assert (I' : In true (filter (fun v : bool => v)
                            (Dict.values
                               (Dict.set (ThemeNode.slots_filled n)
                                  slot_name true))))
      by (apply filter_In; auto).
    destruct (filter _ _); [destruct I' | simpl; lia]. }
  assert (E : ThemeNode.get_completion_ratio n'
              = Qmake (Z.of_nat (ThemeNode.filled_count n'))
                  (Pos.of_nat (List.length (ThemeNode.slots_filled n')))).
  { unfold ThemeNode.get_completion_ratio.
    assert (T : Dict.truthy (ThemeNode.slots_filled n') = true)
      by apply set_truthy.
    rewrite T. cbn [negb].
    assert (P : (0 <? Z.of_nat (ThemeNode.filled_count n')) = true)
      by (apply Z.ltb_lt; lia).
    now rewrite P. }
  split; [exact E |].
  split.
  - apply ratio_bounds. exact Hf.
  - apply ratio_bounds.
Qed.

Lemma update_slot_lookup_witness :
  (0 < ThemeNode.get_completion_ratio
         (ThemeNode.update_slot "time" true Sample.node_A) <= 1)%Q.
Proof.
  apply (proj2 (proj2 (proj2 (update_slot_lookup "time" true Sample.node_A)))
           eq_refl).
Defined.

Lemma is_ready_spec (n : ThemeNode.t) (d : Dict.t ThemeNode.t) :
  ThemeNode.is_ready_to_explore n (Some d) = true <->
  (forall dep, In dep (ThemeNode.depends_on n) ->
     exists x, Dict.get d dep = Some x /\ ThemeNode.status x = EXHAUSTED).
Proof.
  unfold ThemeNode.is_ready_to_explore.
  destruct (ThemeNode.depends_on n) as [|a r] eqn:E.
  - split; [intros _ dep [] | reflexivity].
  - rewrite forallb_forall. split.
    + intros H dep Hd. specialize (H dep Hd).
      destruct (Dict.get d dep) as [x|]; [| discriminate].
      exists x. split; [reflexivity | now apply status_eqb_eq].
    + intros H dep Hd. destruct (H dep Hd) as (x & -> & Hs).
      now apply status_eqb_eq.
Qed.

(** X6.  [is_ready_to_explore]: a theme without dependencies is ready
    whatever is passed; one with dependencies is not ready when no graph
    state is passed; against a map it is ready exactly when every dependency
    is in the map and EXHAUSTED; and a ready theme stays ready when the
    themes of the map only move forward in status. *)
Theorem is_ready_to_explore_gate :
  forall (n : ThemeNode.t),
    (ThemeNode.depends_on n = [] ->
     forall gs, ThemeNode.is_ready_to_explore n gs = true)
    /\ (ThemeNode.depends_on n <> [] ->
        ThemeNode.is_ready_to_explore n None = false)
    /\ (forall d,
          ThemeNode.is_ready_to_explore n (Some d) = true <->
          (forall dep, In dep (ThemeNode.depends_on n) ->
             exists x, Dict.get d dep = Some x
                       /\ ThemeNode.status x = EXHAUSTED))
    /\ (forall d d',
          advanced d d' ->
          ThemeNode.is_ready_to_explore n (Some d) = true ->
          ThemeNode.is_ready_to_explore n (Some d') = true).
Proof.
  intros n. split; [| split; [| split]].
  - intros E gs. unfold ThemeNode.is_ready_to_explore. now rewrite E.
  - intros E. unfold ThemeNode.is_ready_to_explore.
    destruct (ThemeNode.depends_on n); [congruence | reflexivity].
  - apply is_ready_spec.
  - intros d d' Hadv H. rewrite is_ready_spec in *. intros dep Hd.
    destruct (H dep Hd) as (x & Hx & Hs).
    destruct (Hadv dep x Hx) as (x' & Hx' & Hr).
    exists x'. split; [exact Hx' |].
    rewrite Hs in Hr. destruct (ThemeNode.status x'); simpl in Hr; try lia.
    reflexivity.
Qed.

Lemma is_ready_to_explore_gate_witness :
  ThemeNode.is_ready_to_explore Sample.node_A None = true.
Proof.
  apply (proj1 (is_ready_to_explore_gate Sample.node_A) eq_refl).
Defined.

(** X7.  [ThemeNode.from_dict] returns a theme exactly when the ["domain"]
    and ["status"] entries are absent or name a member of their enumeration,
    the three timestamps are absent, empty or in ISO format, and
    ["theme_id"], ["title"] and ["description"] are there.  Otherwise it
    raises for the first thing that is wrong, in the order the code looks:
    a [ValueError] for the domain, then for the status, then for the first
    timestamp that is not in ISO format among ["created_at"],
    ["first_mentioned_at"] and ["exhausted_at"], all this before any
    required key is looked up; then the [KeyError] of the first key that is
    missing among ["theme_id"], ["title"] and ["description"]. *)
Theorem theme_from_dict_errors :
  forall (now : datetime) (data : ThemeNode.dict),
    let valid {A} (f : string -> result A) (v : option string) :=
      match v with
      | None => True
      | Some s => exists a, f s = Ok a
      end in
    let r := ThemeNode.from_dict now data in
    let enums :=
      valid Domain_of_value (ThemeNode.d_domain data)
      /\ valid NodeStatus_of_value (ThemeNode.d_status data) in
    let times :=
      parses (ThemeNode.d_created_at data)
      /\ parses (ThemeNode.d_first_mentioned_at data)
      /\ parses (ThemeNode.d_exhausted_at data) in
    ((exists n, r = Ok n) <->
     enums /\ times
     /\ ThemeNode.d_theme_id data <> None
     /\ ThemeNode.d_title data <> None
     /\ ThemeNode.d_description data <> None)
    /\ (forall v, ThemeNode.d_domain data = Some v ->
          Domain_of_value v = Raise (ValueError v) ->
          r = Raise (ValueError v))
    /\ (forall v, valid Domain_of_value (ThemeNode.d_domain data) ->
          ThemeNode.d_status data = Some v ->
          NodeStatus_of_value v = Raise (ValueError v) ->
          r = Raise (ValueError v))
    /\ (forall s, enums -> s <> "" ->
          ThemeNode.d_created_at data = Some (Malformed s)
          \/ (parses (ThemeNode.d_created_at data)
              /\ ThemeNode.d_first_mentioned_at data = Some (Malformed s))
          \/ (parses (ThemeNode.d_created_at data)
              /\ parses (ThemeNode.d_first_mentioned_at data)
              /\ ThemeNode.d_exhausted_at data = Some (Malformed s)) ->
          r = Raise (ValueError s))
    /\ (enums -> times ->
        match ThemeNode.d_theme_id data, ThemeNode.d_title data,
              ThemeNode.d_description data with
        | None, _, _ => r = Raise (KeyError "theme_id")
        | Some _, None, _ => r = Raise (KeyError "title")
        | Some _, Some _, None => r = Raise (KeyError "description")
        | Some _, Some _, Some _ => exists n, r = Ok n
        end).
Proof.
  intros now data valid r enums times. subst r enums times valid. cbv beta.
  unfold ThemeNode.from_dict.
  assert (VD : (match ThemeNode.d_domain data with
                | None => True
                | Some s => exists a, Domain_of_value s = Ok a
                end) ->
               exists dom,
                 (match ThemeNode.d_domain data with
                  | Some v => d <- Domain_of_value v ;; Ok (Some d)
                  | None => Ok None
                  end) = Ok dom).
  { destruct (ThemeNode.d_domain data) as [dv|]; [| eauto].
    intros [a ->]. simpl. eauto. }
  assert (VS : (match ThemeNode.d_status data with
                | None => True
                | Some s => exists a, NodeStatus_of_value s = Ok a
                end) ->
               exists st,
                 (match ThemeNode.d_status data with
                  | Some v => NodeStatus_of_value v
                  | None => Ok PENDING
                  end) = Ok st).
  { destruct (ThemeNode.d_status data) as [sv|]; [| eauto].
    intros [a ->]. eauto. }
  split; [split | split; [| split; [| split]]].
  - intros [n H].
    destruct (ThemeNode.d_domain data) as [dv|];
      [destruct (Domain_of_value dv) as [dom|e] eqn:Ed; [| discriminate H] |];
      (destruct (ThemeNode.d_status data) as [sv|];
       [destruct (NodeStatus_of_value sv) as [st|e] eqn:Es;
        [| discriminate H] |]);
      cbn [bind] in H;
      (destruct (parse_timestamp (ThemeNode.d_created_at data))
         as [c|e] eqn:Ec; [| discriminate H]);
      (destruct (parse_timestamp (ThemeNode.d_first_mentioned_at data))
         as [f|e] eqn:Ef; [| discriminate H]);
      (destruct (parse_timestamp (ThemeNode.d_exhausted_at data))
         as [x|e] eqn:Ex; [| discriminate H]);
      cbn [bind] in H;
      (destruct (ThemeNode.d_theme_id data); [| discriminate H]);
      (destruct (ThemeNode.d_title data); [| discriminate H]);
      (destruct (ThemeNode.d_description data); [| discriminate H]);
      repeat split; eauto; try discriminate; apply parses_ok; eauto.
  - intros ((Hd & Hs) & (Hc & Hf & Hx) & Ht & Hti & Hde).
    destruct (VD Hd) as [dom ->]. destruct (VS Hs) as [st ->].
    apply parses_ok in Hc as [c ->], Hf as [f ->], Hx as [x ->].
    destruct (ThemeNode.d_theme_id data); [| congruence].
    destruct (ThemeNode.d_title data); [| congruence].
    destruct (ThemeNode.d_description data); [| congruence].
    cbn [bind subscript]. eauto.
  - intros v -> ->. reflexivity.
  - intros v Hd -> Hr. destruct (VD Hd) as [dom ->]. cbn [bind].
    now rewrite Hr.
  - intros s [Hd Hs] Hne H.
    destruct (VD Hd) as [dom ->]. destruct (VS Hs) as [st ->]. cbn [bind].
    destruct H as [-> | [(Hc & ->) | (Hc & Hf & ->)]].
    + now rewrite parse_malformed.
    + apply parses_ok in Hc as [c ->]. cbn [bind].
      now rewrite parse_malformed.
    + apply parses_ok in Hc as [c ->], Hf as [f ->]. cbn [bind].
      now rewrite parse_malformed.
  - intros [Hd Hs] (Hc & Hf & Hx).
    destruct (VD Hd) as [dom ->]. destruct (VS Hs) as [st ->].
    apply parses_ok in Hc as [c ->], Hf as [f ->], Hx as [x ->].
    cbn [bind].
    destruct (ThemeNode.d_theme_id data); [| reflexivity].
    destruct (ThemeNode.d_title data); [| reflexivity].
    destruct (ThemeNode.d_description data); [| reflexivity].
    cbn [bind subscript]. eauto.
Qed.

Lemma theme_from_dict_errors_witness :
  ThemeNode.from_dict 0
    (ThemeNode.mk_dict None (Some "key_scenes") (Some "title")
       (Some "description") None (Some "pending") None None None None None
       None (Some (IsoFormat 3)) (Some (Malformed "yesterday")) None None
       None None)
  = Raise (ValueError "yesterday").
Proof.
  apply (proj1 (proj2 (proj2 (proj2 (theme_from_dict_errors 0 _))))).
  - split; eexists; reflexivity.
  - discriminate.
  - right. left. split; [exact I | reflexivity].
Defined.

(** ** [EventNode] *)

Lemma slot_filled_le (e : EventNode.t) :
  (List.length (filter EventNode.slot_truthy (Dict.values (EventNode.slots e)))
   <= List.length (EventNode.slots e))%nat.
Proof.
  etransitivity; [apply filter_length_le |].
  unfold Dict.values. now rewrite length_map.
Qed.

(** X8.  The slot completion ratio of an event lies in [0, 1].  An event is
    exhausted exactly when its depth is at least 4 or at least four fifths
    of its slots hold a non-empty text: either condition is enough by
    itself. *)
Theorem event_exhaustion :
  forall e : EventNode.t,
    let filled :=
      Z.of_nat (List.length
                  (filter EventNode.slot_truthy
                     (Dict.values (EventNode.slots e)))) in
    let total := Z.of_nat (List.length (EventNode.slots e)) in
    (0 <= EventNode.get_slot_completion_ratio e <= 1)%Q
    /\ (EventNode.is_exhausted e = true <->
        4 <= EventNode.depth_level e
        \/ (0 < total /\ 4 * total <= 5 * filled)).
Proof.
  intros e filled total. pose proof (slot_filled_le e) as L.
  unfold EventNode.is_exhausted, EventNode.get_slot_completion_ratio.
  subst filled total.
  destruct (EventNode.slots e) as [|kv r] eqn:Es; cbn [Dict.truthy negb].
  - split; [split; discriminate |].
    rewrite orb_true_iff, Z.leb_le. simpl. intuition (try discriminate; lia).
  - split.
    + unfold Qle. cbn [Qnum Qden]. rewrite Zpos_of_nat by discriminate.
      split; lia.
    + rewrite orb_true_iff, Z.leb_le, Qle_bool_iff. unfold Qle.
      cbn [Qnum Qden]. rewrite Zpos_of_nat by discriminate.
      cbn [List.length] in *. split; (intros [H | H]; [left; lia | right; lia]).
Qed.

(** X9.  Four calls of [increment_depth] on an event of non-negative depth
    make it exhausted, whatever its slots. *)
Theorem four_increments_exhaust :
  forall e : EventNode.t,
    0 <= EventNode.depth_level e ->
    EventNode.is_exhausted (Nat.iter 4 EventNode.increment_depth e) = true.
Proof.
  intros e H. unfold EventNode.is_exhausted.
  rewrite event_depth_iter. cbn [Nat.eqb].
  apply orb_true_iff. left. apply Z.leb_le. lia.
Qed.

Lemma four_increments_exhaust_witness :
  EventNode.is_exhausted
    (Nat.iter 4 EventNode.increment_depth (Sample.event "e1" "A")) = true.
Proof. apply four_increments_exhaust. simpl. lia. Defined.

Lemma post_init_fixed (uuid_hex : string) (e : EventNode.t) :
  EventNode.event_id e <> "" ->
  EventNode.slots e <> [] ->
  EventNode.__post_init__ uuid_hex e = e.
Proof.
  intros Hid Hs. unfold EventNode.__post_init__.
  destruct (String.eqb (EventNode.event_id e) "") eqn:E.
  - apply String.eqb_eq in E. congruence.
  - destruct (EventNode.slots e) eqn:Es; [congruence |].
    cbn [Dict.truthy negb]. rewrite <- Es. now destruct e.
Qed.

Lemma post_init_shape (uuid_hex : string) (e : EventNode.t) :
  EventNode.event_id (EventNode.__post_init__ uuid_hex e) <> ""
  /\ EventNode.slots (EventNode.__post_init__ uuid_hex e) <> [].
Proof.
  unfold EventNode.__post_init__. cbn [EventNode.event_id EventNode.slots].
  split.
  - destruct (String.eqb (EventNode.event_id e) "") eqn:E.
    + discriminate.
    + now apply String.eqb_neq in E.
  - destruct (EventNode.slots e); cbn [Dict.truthy negb]; discriminate.
Qed.

Lemma event_from_to_dict now uuid_hex (e : EventNode.t) :
  EventNode.from_dict now uuid_hex (EventNode.to_dict e)
  = Ok (EventNode.__post_init__ uuid_hex e).
Proof. destruct e. reflexivity. Qed.

(** X10.  The constructor step [__post_init__] gives every event a
    non-empty id and a non-empty slot map: a supplied id and a supplied
    non-empty slot map are kept, an empty id is replaced by a generated one
    and an empty slot map (also one passed on purpose) by the seven default
    slots, all unfilled.  Applying it again changes nothing. *)
Theorem post_init_normalises :
  forall (uuid_hex uuid_hex' : string) (e : EventNode.t),
    let e' := EventNode.__post_init__ uuid_hex e in
    EventNode.event_id e' <> ""
    /\ EventNode.slots e' <> []
    /\ (EventNode.event_id e <> "" ->
        EventNode.event_id e' = EventNode.event_id e)
    /\ (EventNode.event_id e = "" ->
        EventNode.event_id e' = ("evt_" ++ uuid_hex)%string)
    /\ (EventNode.slots e <> [] -> EventNode.slots e' = EventNode.slots e)
    /\ (EventNode.slots e = [] ->
        Dict.keys (EventNode.slots e')
        = ["time"; "location"; "people"; "cause"; "result"; "emotion";
           "reflection"]
        /\ (forall k v, Dict.get (EventNode.slots e') k = Some v ->
                        v = None)
        /\ EventNode.get_slot_completion_ratio e' = (0 # 7)%Q)
    /\ EventNode.__post_init__ uuid_hex' e' = e'.
Proof.
  intros u u' e e'. destruct (post_init_shape u e) as [Hid Hs].
  fold e' in Hid, Hs.
  split; [exact Hid |]. split; [exact Hs |].
  subst e'. unfold EventNode.__post_init__ at 1 2 3 4 5 6.
  cbn [EventNode.event_id EventNode.slots].
  split; [| split; [| split; [| split]]].
  - intros H. apply String.eqb_neq in H. now rewrite H.
  - intros ->. reflexivity.
  - intros H. destruct (EventNode.slots e); [congruence | reflexivity].
  - intros E. unfold EventNode.get_slot_completion_ratio.
    unfold EventNode.__post_init__. cbn [EventNode.event_id EventNode.slots].
    rewrite E. cbn [Dict.truthy negb]. split; [reflexivity |].
    split; [| reflexivity].
    intros k v. unfold EventNode.default_slots. cbn [Dict.get].
    repeat (destruct (String.eqb k _); [congruence |]). discriminate.
  - now apply post_init_fixed.
Qed.

Lemma post_init_normalises_witness :
  EventNode.event_id
    (EventNode.__post_init__ "0123456789ab"
       (EventNode.mk "" "A" "title" "description" None None [] Dict.empty
          0%Q 0%Q 0 [] 0))
  = "evt_0123456789ab".
Proof.
  apply (proj1 (proj2 (proj2 (proj2
           (post_init_normalises "0123456789ab" "" _))))).
  reflexivity.
Defined.

(** X11.  Serialization of an event round-trips: [from_dict] applied to
    the record of [to_dict] gives back the very event, for every event that
    has a non-empty id and a non-empty slot map, hence for every event the
    constructor built; the record also carries the computed slot ratio and
    exhaustion flag. *)
Theorem event_round_trip :
  forall (now : datetime) (uuid_hex uuid_hex' : string) (e : EventNode.t),
    (EventNode.event_id e <> "" -> EventNode.slots e <> [] ->
     EventNode.from_dict now uuid_hex (EventNode.to_dict e) = Ok e)
    /\ (let e' := EventNode.__post_init__ uuid_hex' e in
        EventNode.from_dict now uuid_hex (EventNode.to_dict e') = Ok e')
    /\ EventNode.d_slot_completion_ratio (EventNode.to_dict e)
       = Some (EventNode.get_slot_completion_ratio e)
    /\ EventNode.d_is_exhausted (EventNode.to_dict e)
       = Some (EventNode.is_exhausted e).
Proof.
  intros now u u' e. split; [| split; [| split; reflexivity]].
  - intros Hid Hs. rewrite event_from_to_dict. f_equal.
    now apply post_init_fixed.
  - cbv zeta. rewrite event_from_to_dict. f_equal.
    destruct (post_init_shape u' e). now apply post_init_fixed.
Qed.

Lemma event_round_trip_witness :
  EventNode.from_dict 7 "ffffffffffff"
    (EventNode.to_dict (Sample.event "e1" "A"))
  = Ok (Sample.event "e1" "A").
Proof.
  apply (proj1 (event_round_trip 7 "ffffffffffff" "" (Sample.event "e1" "A")));
    discriminate.
Defined.

(** X12.  [EventNode.from_dict] reads ["created_at"] first: a string there
    that is not in ISO format raises [ValueError], whatever else the record
    holds.  With a timestamp that is absent, empty or in ISO format it
    returns an event exactly when the record has ["event_id"],
    ["theme_id"], ["title"] and ["description"], and otherwise raises the
    [KeyError] of the first of these keys that is missing.  Every other key
    may be absent. *)
Theorem event_from_dict_errors :
  forall (now : datetime) (uuid_hex : string) (data : EventNode.dict),
    let r := EventNode.from_dict now uuid_hex data in
    (forall s, EventNode.d_created_at data = Some (Malformed s) -> s <> "" ->
        r = Raise (ValueError s))
    /\ (parses (EventNode.d_created_at data) ->
        match EventNode.d_event_id data, EventNode.d_theme_id data,
              EventNode.d_title data, EventNode.d_description data with
        | None, _, _, _ => r = Raise (KeyError "event_id")
        | Some _, None, _, _ => r = Raise (KeyError "theme_id")
        | Some _, Some _, None, _ => r = Raise (KeyError "title")
        | Some _, Some _, Some _, None => r = Raise (KeyError "description")
        | Some i, Some t, Some ti, Some de =>
            exists e,
              r = Ok e
              /\ EventNode.theme_id e = t
              /\ EventNode.title e = ti
              /\ EventNode.description e = de
              /\ EventNode.event_id e
                 = (if String.eqb i "" then ("evt_" ++ uuid_hex)%string
                    else i)
              /\ (EventNode.d_depth_level data = None ->
                  EventNode.depth_level e = 0)
              /\ (EventNode.d_slots data = None ->
                  EventNode.slots e = EventNode.default_slots)
              /\ EventNode.created_at e
                 = match EventNode.d_created_at data with
                   | Some (IsoFormat d) => d
                   | _ => now
                   end
        end).
Proof.
  intros now u data r. subst r. unfold EventNode.from_dict. split.
  - intros s -> Hs. now rewrite parse_malformed.
  - intros Hc.
    assert (E : parse_timestamp (EventNode.d_created_at data)
                = Ok match EventNode.d_created_at data with
                     | Some (IsoFormat d) => Some d
                     | _ => None
                     end).
    { destruct (EventNode.d_created_at data) as [[d|s]|];
        simpl in *; subst; reflexivity. }
    rewrite E. cbn [bind].
    destruct (EventNode.d_event_id data) as [i|]; [| reflexivity].
    destruct (EventNode.d_theme_id data) as [t|]; [| reflexivity].
    destruct (EventNode.d_title data) as [ti|]; [| reflexivity].
    destruct (EventNode.d_description data) as [de|]; [| reflexivity].
    cbn [bind subscript]. eexists. split; [reflexivity |].
    cbn. repeat split; auto; try (intros ->; reflexivity).
    destruct (EventNode.d_created_at data) as [[d|s]|]; reflexivity.
Qed.

Lemma append_new_spec (x : string) (l : list string) :
  let l' := if negb (str_in x l) then l ++ [x] else l in
  (forall y, In y l' <-> y = x \/ In y l)
  /\ (NoDup l -> NoDup l')
  /\ str_in x l' = true.
Proof.
  destruct (str_in x l) eqn:E; cbn [negb]; cbv zeta.
  - pose proof E as I. apply str_in_In in I. repeat split; auto.
    intros [-> | H]; auto.
  - repeat split.
    + rewrite in_app_iff. simpl. intuition.
    + rewrite in_app_iff. simpl. intuition.
    + intros ND. apply NoDup_app; auto.
      * constructor; [simpl; tauto | constructor].
      * intros y Hy [<- | []]. apply str_in_In in Hy. congruence.
    + apply str_in_In, in_or_app. right. now left.
Qed.

(** X13.  [add_person] and [add_related_event] are insertions into a set
    kept as a list: the new name goes last unless it is there already, what
    was there stays, a list without repetition stays so, and a second call
    with the same argument changes nothing.  [add_person] ignores the empty
    name. *)
Theorem event_lists_are_sets :
  forall (x : string) (e : EventNode.t),
    let p := EventNode.add_person x e in
    let r := EventNode.add_related_event x e in
    (x = "" -> p = e)
    /\ (x <> "" ->
        forall y, In y (EventNode.people_involved p) <->
                  y = x \/ In y (EventNode.people_involved e))
    /\ (NoDup (EventNode.people_involved e) ->
        NoDup (EventNode.people_involved p))
    /\ EventNode.add_person x p = p
    /\ (forall y, In y (EventNode.related_events r) <->
                  y = x \/ In y (EventNode.related_events e))
    /\ (NoDup (EventNode.related_events e) ->
        NoDup (EventNode.related_events r))
    /\ EventNode.add_related_event x r = r.
Proof.
  intros x e p r. subst p r.
  unfold EventNode.add_person, EventNode.add_related_event.
  destruct (append_new_spec x (EventNode.people_involved e)) as (P1 & P2 & P3).
  destruct (append_new_spec x (EventNode.related_events e)) as (R1 & R2 & R3).
  cbv zeta in *.
  destruct (String.eqb x "") eqn:Ex; cbn [negb andb].
  - apply String.eqb_eq in Ex.
    split; [reflexivity |]. split; [congruence |]. split; [auto |].
    rewrite Ex. cbn [String.eqb negb andb]. split; [reflexivity |].
    rewrite <- Ex.
    destruct (str_in x (EventNode.related_events e)) eqn:Er; cbn [negb] in *.
    + rewrite Er. cbn [negb]. auto.
    + cbn [EventNode.related_events EventNode.with_related_events].
      rewrite R3. cbn [negb]. auto.
  - apply String.eqb_neq in Ex. split; [congruence |].
    destruct (str_in x (EventNode.people_involved e)) eqn:Ep;
      destruct (str_in x (EventNode.related_events e)) eqn:Er;
      cbn [negb] in *;
      cbn [EventNode.related_events EventNode.with_related_events
           EventNode.people_involved EventNode.with_people_involved];
      rewrite ?Ep, ?Er, ?P3, ?R3;
      assert (Ex' : String.eqb x "" = false) by (now apply String.eqb_neq);
      rewrite ?Ex'; cbn [negb andb]; auto 10.
Qed.

Lemma event_lists_are_sets_witness :
  EventNode.add_person "" (Sample.event "e1" "A") = Sample.event "e1" "A"
  /\ NoDup (EventNode.people_involved
              (EventNode.add_person "Li" (Sample.event "e1" "A"))).
Proof.
  split.
  - apply (proj1 (event_lists_are_sets "" (Sample.event "e1" "A"))).
    reflexivity.
  - apply (proj1 (proj2 (proj2
             (event_lists_are_sets "Li" (Sample.event "e1" "A"))))).
    constructor.
Defined.

(** X14.  [EventNode.update_slot] records the value under the name, a
    known name in place and an unknown name as a new last slot; the slot
    reads back as written, every other slot reads as before, and the slot
    map is not empty afterwards. *)
Theorem event_update_slot_lookup :
  forall (slot_name : string) (value : option string) (e : EventNode.t),
    let e' := EventNode.update_slot slot_name value e in
    Dict.get (EventNode.slots e') slot_name = Some value
    /\ (forall other, other <> slot_name ->
          Dict.get (EventNode.slots e') other
          = Dict.get (EventNode.slots e) other)
    /\ Dict.keys (EventNode.slots e')
       = (if Dict.contains (EventNode.slots e) slot_name
          then Dict.keys (EventNode.slots e)
          else Dict.keys (EventNode.slots e) ++ [slot_name])
    /\ EventNode.slots e' <> [].
Proof.
  intros slot_name value e e'. subst e'. unfold EventNode.update_slot.
  assert (K : Dict.keys (Dict.set (EventNode.slots e) slot_name value)
              = if Dict.contains (EventNode.slots e) slot_name
                then Dict.keys (EventNode.slots e)
                else Dict.keys (EventNode.slots e) ++ [slot_name]).
  { unfold Dict.contains.
    destruct (Dict.get (EventNode.slots e) slot_name) eqn:G.
    - apply keys_set_in. eapply get_Some_in; eauto.
    - apply keys_set_notin. now apply get_None_notin. }
  assert (N : Dict.set (EventNode.slots e) slot_name value <> []).
  { intros H. pose proof (set_truthy (EventNode.slots e) slot_name value) as T.
    rewrite H in T. discriminate. }
  destruct (Dict.contains (EventNode.slots e) slot_name);
    cbn [EventNode.slots EventNode.with_slots];
    (split; [apply get_set_same |]);
    (split; [intros other H; apply get_set_other; congruence |]);
    (split; [exact K | exact N]).
Qed.

(** ** [ThemeLoader] *)

Lemma in_set {V : Type} (d : Dict.t V) k v x :
  In x (Dict.set d k v) -> x = (k, v) \/ In x d.
Proof.
  induction d as [|[k' v'] r IH]; simpl.
  - intros [<- | []]. now left.
  - destruct (String.eqb k k') eqn:E; simpl.
    + apply String.eqb_eq in E. subst. intros [<- | H]; auto.
    + intros [<- | H]; auto. destruct (IH H); auto.
Qed.

Lemma in_get {V : Type} (d : Dict.t V) k v :
  Dict.get d k = Some v -> In (k, v) d.
Proof.
  induction d as [|[k' v'] r IH]; simpl; [discriminate |].
  destruct (String.eqb k k') eqn:E.
  - apply String.eqb_eq in E. intros H. injection H as ->. subst. now left.
  - auto.
Qed.

Lemma get_in_NoDup {V : Type} (d : Dict.t V) k v :
  NoDup (Dict.keys d) -> In (k, v) d -> Dict.get d k = Some v.
Proof.
  induction d as [|[k' v'] r IH]; simpl; [tauto |].
  intros ND [H | H]; inversion ND as [|? ? Hn ND']; subst.
  - injection H as -> ->. now rewrite String.eqb_refl.
  - destruct (String.eqb k k') eqn:E; auto.
    apply String.eqb_eq in E. subst. exfalso. apply Hn.
    apply in_map_iff. exists (k', v). auto.
Qed.

Lemma values_set {V : Type} (d : Dict.t V) k v x :
  In x (Dict.values (Dict.set d k v)) -> x = v \/ In x (Dict.values d).
Proof.
  unfold Dict.values. rewrite in_map_iff. intros ([k' v'] & <- & H).
  apply in_set in H as [H | H].
  - injection H as _ ->. now left.
  - right. apply in_map_iff. exists (k', v'). auto.
Qed.

Lemma all_false_values (slot_names : list string) v :
  In v (Dict.values (ThemeLoader.all_false slot_names)) -> v = false.
Proof.
  unfold ThemeLoader.all_false.
  assert (G : forall l (d : Dict.t bool),
            (forall b, In b (Dict.values d) -> b = false) ->
            forall b,
              In b (Dict.values (fold_left (fun d x => Dict.set d x false) l d))
              -> b = false).
  { induction l as [|x r IH]; intros d Hd b; simpl; [apply Hd |].
    apply IH. intros b' Hb'. apply values_set in Hb' as [-> | Hb']; auto. }
  apply G. intros b [].
Qed.

Lemma no_slot_filled (n : ThemeNode.t) :
  (forall v, In v (Dict.values (ThemeNode.slots_filled n)) -> v = false) ->
  ThemeNode.get_completion_ratio n = ThemeNode.depth_ratio n.
Proof.
  intros H. unfold ThemeNode.get_completion_ratio.
  destruct (negb (Dict.truthy (ThemeNode.slots_filled n))); [reflexivity |].
  assert (F : ThemeNode.filled_count n = 0%nat).
  { unfold ThemeNode.filled_count.
    destruct (filter (fun v : bool => v)
                (Dict.values (ThemeNode.slots_filled n))) as [|b r] eqn:E;
      [reflexivity |].
    assert (I : In b (filter (fun v : bool => v)
                        (Dict.values (ThemeNode.slots_filled n))))
      by (rewrite E; now left).
    apply filter_In in I as [I Hb]. apply H in I. congruence. }
  now rewrite F.
Qed.

Lemma create_fresh now d dom n :
  ThemeLoader._create_theme_node now d dom = Ok n ->
  fresh_theme now (ThemeNode.theme_id n) n /\ ThemeNode.domain n = Some dom.
Proof.
  unfold ThemeLoader._create_theme_node.
  destruct (ThemeLoader.def_theme_id d) as [id|]; [| discriminate].
  destruct (ThemeLoader.def_title d) as [ti|]; [| discriminate].
  destruct (ThemeLoader.def_description d) as [de|]; [| discriminate].
  cbn [bind subscript]. intros H. injection H as <-.
  split; [| reflexivity].
  unfold fresh_theme.
  cbn [ThemeNode.theme_id ThemeNode.domain ThemeNode.status
       ThemeNode.exploration_depth ThemeNode.current_question_index
       ThemeNode.extracted_events ThemeNode.slots_filled ThemeNode.created_at
       ThemeNode.first_mentioned_at ThemeNode.exhausted_at].
  repeat split; try discriminate.
  - apply all_false_values.
  - rewrite no_slot_filled by apply all_false_values. reflexivity.
Qed.

Lemma load_themes_built now dom defs : forall st,
  built now (ThemeLoader.ls_nodes st) ->
  built now (ThemeLoader.ls_nodes (fst (ThemeLoader.load_themes now dom defs st))).
Proof.
  induction defs as [|d r IH]; intros st H; simpl; auto.
  destruct (ThemeLoader._create_theme_node now d dom) as [n|e] eqn:E; auto.
  apply IH. cbn [ThemeLoader.ls_nodes]. intros k m Hin.
  apply in_set in Hin as [Hin | Hin]; auto.
  injection Hin as -> ->. now apply create_fresh in E.
Qed.

Lemma load_domains_built now domains : forall st,
  built now (ThemeLoader.ls_nodes st) ->
  built now (ThemeLoader.ls_nodes (fst (ThemeLoader.load_domains now domains st))).
Proof.
  induction domains as [|[domain_id dd] r IH]; intros st H; simpl; auto.
  destruct (Domain_of_value domain_id) as [dom|e].
  - pose proof (load_themes_built now dom
                  (get_default (ThemeLoader.dd_themes dd) []) st H) as B.
    destruct (ThemeLoader.load_themes now dom _ st) as [st' [e|]];
      cbn [fst] in *; auto.
  - apply IH. exact H.
Qed.

Lemma load_gives_fresh_themes_aux now c self loader nodes log :
  ThemeLoader.load now (Parsed c) self = (loader, Ok nodes, log) ->
  ThemeLoader._theme_nodes loader = nodes
  /\ forall k n, In (k, n) nodes -> fresh_theme now k n.
Proof.
  intros H'. unfold ThemeLoader.load in H'.
  pose proof (load_domains_built now
                (Dict.items (get_default (ThemeLoader.cat_domains c) Dict.empty))
                (ThemeLoader.mk_loop Dict.empty 0 [])) as B.
  destruct (ThemeLoader.load_domains now _ _) as [st [e|]]; [discriminate |].
  injection H' as <- <- _. split; [reflexivity |].
  apply B. intros k n [].
Qed.

(** X15.  Whatever the catalog says, every theme that [load] (or [reload])
    returns is new: filed under its own id, in a domain, PENDING, at depth 0
    with the cursor on the first seed question, without events, with every
    declared slot unfilled, a completion ratio of 0 and no mention or
    completion time.  A ["status"] entry of a definition is not read. *)
Theorem load_gives_fresh_themes :
  forall (now : datetime) (c : ThemeLoader.catalog)
         (self loader : ThemeLoader.t) (nodes : Dict.t ThemeNode.t) log,
    ThemeLoader.load now (Parsed c) self = (loader, Ok nodes, log)
    \/ ThemeLoader.reload now (Parsed c) self = (loader, Ok nodes, log) ->
    ThemeLoader._theme_nodes loader = nodes
    /\ forall k n, In (k, n) nodes -> fresh_theme now k n.
Proof.
  intros now c self loader nodes log [H | H];
    eapply load_gives_fresh_themes_aux; exact H.
Qed.

Lemma load_gives_fresh_themes_witness : fresh_theme 0 "A" Sample.node_A.
Proof.
  eapply (proj2 (load_gives_fresh_themes 0 Sample.catalog ThemeLoader.__init__
                   _ _ _ (or_introl eq_refl))).
  vm_compute. auto.
Defined.

Lemma create_raises now d dom :
  ThemeLoader.has_required d = false ->
  exists k,
    ThemeLoader._create_theme_node now d dom = Raise (KeyError k)
    /\ In k ["theme_id"; "title"; "description"].
Proof.
  unfold ThemeLoader.has_required, ThemeLoader._create_theme_node.
  destruct (ThemeLoader.def_theme_id d);
    [| intros _; exists "theme_id"; simpl; auto].
  destruct (ThemeLoader.def_title d);
    [| intros _; exists "title"; simpl; auto].
  destruct (ThemeLoader.def_description d);
    [discriminate | intros _; exists "description"; simpl; auto].
Qed.

Lemma load_themes_raises now dom defs : forall st,
  Exists (fun d => ThemeLoader.has_required d = false) defs ->
  exists st' k,
    ThemeLoader.load_themes now dom defs st = (st', Some (KeyError k))
    /\ In k ["theme_id"; "title"; "description"].
Proof.
  induction defs as [|d r IH]; intros st H; [inversion H |].
  cbn [ThemeLoader.load_themes].
  destruct (ThemeLoader.has_required d) eqn:Ed.
  - destruct (create_ok now d dom Ed) as (n & id & Hn & _). rewrite Hn.
    apply IH. inversion H; [congruence | assumption].
  - destruct (create_raises now d dom Ed) as (k & -> & Hk). eauto.
Qed.

Lemma load_domains_raises now domains : forall st,
  Exists (fun pd => ThemeLoader.has_required (snd pd) = false)
    (ThemeLoader.processed_defs (ThemeLoader.mk_catalog (Some domains))) ->
  exists st' k,
    ThemeLoader.load_domains now domains st = (st', Some (KeyError k))
    /\ In k ["theme_id"; "title"; "description"].
Proof.
  unfold ThemeLoader.processed_defs. cbn [get_default ThemeLoader.cat_domains].
  induction domains as [|[domain_id dd] r IH]; intros st H; [inversion H |].
  cbn [flat_map] in H. cbn [ThemeLoader.load_domains].
  destruct (Domain_of_value domain_id) as [dom|e]; [| now apply IH].
  apply Exists_app in H.
  set (defs := get_default (ThemeLoader.dd_themes dd) []) in *.
  destruct (Forall_Exists_dec (fun d => ThemeLoader.has_required d = true)
              (fun d => bool_dec (ThemeLoader.has_required d) true) defs)
    as [F | E].
  - rewrite load_themes_spec by exact F.
    destruct H as [H | H]; [| now apply IH].
    exfalso. rewrite Exists_exists in H. destruct H as (pd & Hin & Hf).
    apply in_map_iff in Hin as (d & <- & Hd).
    rewrite Forall_forall in F. specialize (F d Hd). simpl in Hf. congruence.
  - assert (E' : Exists (fun d => ThemeLoader.has_required d = false) defs).
    { rewrite Exists_exists in *. destruct E as (d & Hd & Hf).
      exists d. split; auto. now destruct (ThemeLoader.has_required d). }
    destruct (load_themes_raises now dom defs st E') as (st' & k & -> & Hk).
    eauto.
Qed.

Lemma create_missing now d dom k :
  missing_key d = Some k ->
  ThemeLoader._create_theme_node now d dom = Raise (KeyError k).
Proof.
  unfold missing_key, ThemeLoader._create_theme_node.
  destruct (ThemeLoader.def_theme_id d);
    [| intros H; injection H as <-; reflexivity].
  destruct (ThemeLoader.def_title d);
    [| intros H; injection H as <-; reflexivity].
  destruct (ThemeLoader.def_description d);
    [discriminate | intros H; injection H as <-; reflexivity].
Qed.

Lemma load_themes_first now dom before d after k : forall st,
  Forall (fun d => ThemeLoader.has_required d = true) before ->
  missing_key d = Some k ->
  exists st',
    ThemeLoader.load_themes now dom (before ++ d :: after) st
    = (st', Some (KeyError k))
    /\ ThemeLoader.ls_nodes st'
       = insert_defs now (map (pair dom) before) (ThemeLoader.ls_nodes st)
    /\ ThemeLoader.ls_log st' = ThemeLoader.ls_log st.
Proof.
  induction before as [|b r IH]; intros st F M.
  - cbn [app ThemeLoader.load_themes]. rewrite (create_missing _ _ _ _ M).
    exists st. repeat split.
  - inversion F as [|? ? Hb Hr]; subst.
    destruct (create_ok now b dom Hb) as (n & id & Hn & _ & _).
    cbn [app ThemeLoader.load_themes]. rewrite Hn.
    destruct (IH (ThemeLoader.mk_loop
                    (Dict.set (ThemeLoader.ls_nodes st)
                       (ThemeNode.theme_id n) n)
                    (ThemeLoader.ls_theme_count st + 1)
                    (ThemeLoader.ls_log st)) Hr M)
      as (st' & -> & Hnodes & Hlog).
    exists st'. split; [reflexivity |]. split; [| exact Hlog].
    rewrite Hnodes. unfold insert_defs.
    cbn [map fold_left fst snd ThemeLoader.ls_nodes]. now rewrite Hn.
Qed.

(** [load] stops at the first definition that lacks a required key. *)
Lemma load_domains_first now domains : forall st before dom d after k,
  ThemeLoader.processed_defs (ThemeLoader.mk_catalog (Some domains))
  = before ++ (dom, d) :: after ->
  Forall (fun pd => ThemeLoader.has_required (snd pd) = true) before ->
  missing_key d = Some k ->
  exists st',
    ThemeLoader.load_domains now domains st = (st', Some (KeyError k))
    /\ ThemeLoader.ls_nodes st'
       = insert_defs now before (ThemeLoader.ls_nodes st).
Proof.
  unfold ThemeLoader.processed_defs. cbn [get_default ThemeLoader.cat_domains].
  induction domains as [|[domain_id dd] r IH];
    intros st before dom d after k E F M.
  - destruct before; discriminate.
  - cbn [flat_map] in E. cbn [ThemeLoader.load_domains].
    destruct (Domain_of_value domain_id) as [dom'|e].
    + set (defs := get_default (ThemeLoader.dd_themes dd) []) in *.
      apply app_eq_app in E as [l [[E1 E2] | [E1 E2]]].
      * destruct l as [|x l].
        -- rewrite app_nil_r in E1. cbn [app] in E2. subst before.
           rewrite load_themes_spec by (now rewrite Forall_map in F).
           destruct (IH (ThemeLoader.mk_loop
                           (insert_defs now (map (pair dom') defs)
                              (ThemeLoader.ls_nodes st))
                           (ThemeLoader.ls_theme_count st
                            + Z.of_nat (List.length defs))
                           (ThemeLoader.ls_log st))
                       [] dom d after k (eq_sym E2) (Forall_nil _) M)
             as (st' & -> & Hn).
           exists st'. split; [reflexivity |]. exact Hn.
        -- cbn [app] in E2. injection E2 as <- ->.
           apply map_eq_app in E1 as (b & a & Ed & Hb & Ha).
           apply map_eq_cons in Ha as (d' & a' & -> & Hd & _).
           injection Hd as <- <-. subst before. rewrite Ed.
           rewrite Forall_map in F.
           destruct (load_themes_first now dom' b d' a' k st F M)
             as (st' & -> & Hn & _).
           exists st'. split; [reflexivity | exact Hn].
      * subst before. apply Forall_app in F as [F1 F2].
        rewrite load_themes_spec by (now rewrite Forall_map in F1).
        destruct (IH (ThemeLoader.mk_loop
                        (insert_defs now (map (pair dom') defs)
                           (ThemeLoader.ls_nodes st))
                        (ThemeLoader.ls_theme_count st
                         + Z.of_nat (List.length defs))
                        (ThemeLoader.ls_log st))
                    l dom d after k E2 F2 M)
          as (st' & -> & Hn).
        exists st'. split; [reflexivity |].
        rewrite Hn. cbn [ThemeLoader.ls_nodes].
        now rewrite insert_defs_app.
    + cbn [app] in E.
      destruct (IH (ThemeLoader.mk_loop (ThemeLoader.ls_nodes st)
                      (ThemeLoader.ls_theme_count st)
                      (ThemeLoader.ls_log st
                       ++ [(WARNING, MsgUnknownDomain domain_id)]))
                  before dom d after k E F M)
        as (st' & -> & Hn).
      exists st'. split; [reflexivity | exact Hn].
Qed.

Lemma load_domains_log now domains : forall st0 st1 r,
  ThemeLoader.load_domains now domains st0 = (st1, r) ->
  no_error (ThemeLoader.ls_log st0) = true ->
  no_error (ThemeLoader.ls_log st1) = true.
Proof.
  induction domains as [|[domain_id dd] r IH]; intros st0 st1 res;
    cbn [ThemeLoader.load_domains].
  - intros E. now injection E as <- _.
  - destruct (Domain_of_value domain_id) as [dom|e].
    + assert (L : forall defs s,
                ThemeLoader.ls_log
                  (fst (ThemeLoader.load_themes now dom defs s))
                = ThemeLoader.ls_log s).
      { induction defs as [|d ds IHd]; intros s; simpl; auto.
        destruct (ThemeLoader._create_theme_node now d dom); auto.
        now rewrite IHd. }
      specialize (L (get_default (ThemeLoader.dd_themes dd) []) st0).
      destruct (ThemeLoader.load_themes now dom _ st0) as [s' [e|]];
        cbn [fst] in L.
      * intros E. injection E as <- _. now rewrite L.
      * intros E Hlog. eapply IH; eauto. now rewrite L.
    + intros E Hlog. eapply IH; eauto.
      cbn [ThemeLoader.ls_log]. unfold no_error. rewrite forallb_app.
      apply andb_true_iff. split; [exact Hlog | reflexivity].
Qed.

(** X16.  [load] raises at the first definition, in the order it goes
    through the catalog, that lacks ["theme_id"], ["title"] or
    ["description"] under a domain key that resolves: the exception is the
    [KeyError] of the first of these three keys that the definition lacks.
    No map is returned; the catalog is kept in the loader, whose own map
    holds the themes defined before that definition; nothing is logged as
    an error. *)
Theorem load_raises_on_incomplete_definition :
  forall (now : datetime) (c : ThemeLoader.catalog) (self : ThemeLoader.t)
         (before after : list (Domain * ThemeLoader.theme_def))
         (dom : Domain) (d : ThemeLoader.theme_def) (k : string),
    ThemeLoader.processed_defs c = before ++ (dom, d) :: after ->
    Forall (fun pd => ThemeLoader.has_required (snd pd) = true) before ->
    missing_key d = Some k ->
    exists loader log,
      ThemeLoader.load now (Parsed c) self = (loader, Raise (KeyError k), log)
      /\ ThemeLoader._theme_definitions loader = c
      /\ ThemeLoader._theme_nodes loader = insert_defs now before Dict.empty
      /\ no_error log = true.
Proof.
  intros now c self before after dom d k E F M. unfold ThemeLoader.load.
  assert (Hd : exists st,
             ThemeLoader.load_domains now
               (Dict.items (get_default (ThemeLoader.cat_domains c) Dict.empty))
               (ThemeLoader.mk_loop Dict.empty 0 [])
             = (st, Some (KeyError k))
             /\ ThemeLoader.ls_nodes st = insert_defs now before Dict.empty).
  { destruct c as [[ds|]].
    - exact (load_domains_first now ds (ThemeLoader.mk_loop Dict.empty 0 [])
               before dom d after k E F M).
    - destruct before; discriminate. }
  destruct Hd as (st & Hl & Hn). rewrite Hl.
  do 2 eexists. split; [reflexivity |]. split; [reflexivity |].
  split; [exact Hn |].
  eapply load_domains_log; eauto.
Qed.

Lemma load_raises_on_incomplete_definition_witness :
  exists loader log,
    ThemeLoader.load 0
      (Parsed
         (ThemeLoader.mk_catalog
            (Some [("key_scenes",
                    ThemeLoader.mk_domain_data
                      (Some [Sample.theme "A" 1 [];
                             ThemeLoader.mk_def (Some "B") None None None
                               None None None None None]))])))
      ThemeLoader.__init__
    = (loader, Raise (KeyError "title"), log)
    /\ Dict.keys (ThemeLoader._theme_nodes loader) = ["A"].
Proof.
  destruct (load_raises_on_incomplete_definition 0
              (ThemeLoader.mk_catalog
                 (Some [("key_scenes",
                         ThemeLoader.mk_domain_data
                           (Some [Sample.theme "A" 1 [];
                                  ThemeLoader.mk_def (Some "B") None None
                                    None None None None None None]))]))
              ThemeLoader.__init__
              [(KEY_SCENES, Sample.theme "A" 1 [])] [] KEY_SCENES
              (ThemeLoader.mk_def (Some "B") None None None None None None
                 None None)
              "title")
    as (loader & log & H & _ & Hn & _).
  - reflexivity.
  - repeat constructor.
  - reflexivity.
  - exists loader, log. split; [exact H |]. rewrite Hn. reflexivity.
Defined.

(** X17.  [reload] on a readable catalog gives what [load] gives, whatever
    the loader held before, so calling it again gives the same again.  On a
    catalog that cannot be read it raises like [load], but the loader is
    left with an empty theme map, where [load] leaves the loader as it
    was. *)
Theorem reload_behaviour :
  forall (now : datetime) (self other : ThemeLoader.t),
    (forall c,
        ThemeLoader.reload now (Parsed c) self
        = ThemeLoader.load now (Parsed c) other
        /\ ThemeLoader.reload now (Parsed c)
             (fst (fst (ThemeLoader.reload now (Parsed c) self)))
           = ThemeLoader.reload now (Parsed c) self)
    /\ (forall f, read_fails f ->
          exists e log,
            ThemeLoader.load now f self = (self, Raise e, log)
            /\ ThemeLoader.reload now f self
               = (ThemeLoader.mk (ThemeLoader._theme_definitions self)
                    Dict.empty,
                  Raise e, log)
            /\ ThemeLoader.get_theme_count
                 (fst (fst (ThemeLoader.reload now f self))) = 0).
Proof.
  intros now self other. split.
  - intros c. split; reflexivity.
  - intros f Hf. destruct f as [|e|c]; [| | destruct Hf].
    + do 2 eexists. repeat split.
    + destruct e; do 2 eexists; repeat split.
Qed.

Lemma reload_behaviour_witness :
  exists e log,
    ThemeLoader.reload 0 Missing
      (fst (fst (ThemeLoader.load 0 (Parsed Sample.catalog)
                   ThemeLoader.__init__)))
    = (ThemeLoader.mk Sample.catalog Dict.empty, Raise e, log).
Proof.
  destruct (proj2 (reload_behaviour 0
                     (fst (fst (ThemeLoader.load 0 (Parsed Sample.catalog)
                                  ThemeLoader.__init__)))
                     ThemeLoader.__init__) Missing I)
    as (e & log & _ & H & _).
  exists e, log. exact H.
Defined.

Lemma tuple_ltb_lt a b : ThemeLoader.tuple_ltb a b = true <-> tuple_lt a b.
Proof.
  unfold ThemeLoader.tuple_ltb, tuple_lt.
  rewrite orb_true_iff, andb_true_iff, !Z.ltb_lt, Z.eqb_eq. tauto.
Qed.

Lemma tuple_ltb_ge a b : ThemeLoader.tuple_ltb a b = false <-> tuple_le b a.
Proof.
  unfold ThemeLoader.tuple_ltb, tuple_le.
  rewrite orb_false_iff, andb_false_iff, !Z.ltb_ge, Z.eqb_neq. lia.
Qed.

(** X18.  [ThemeLoader.get_next_priority_theme] picks among the themes of
    the loader that are PENDING or MENTIONED and ready to explore: the first
    one with the least priority number, a MENTIONED theme going before a
    PENDING one of the same priority.  Readiness is judged against the map
    the caller gives when that map is not empty, so the statuses found there
    decide, not the loader's; and against the loader's own map when none or
    an empty one is given.  It returns [None] exactly when no theme
    qualifies, and never an EXHAUSTED or a dependency-blocked theme,
    MENTIONED ones included. *)
Theorem get_next_priority_theme_policy :
  forall (self : ThemeLoader.t) (graph_state : option (Dict.t ThemeNode.t)),
    let live := ThemeLoader.state_or_own self graph_state in
    let candidates := ThemeLoader.candidates self graph_state in
    let next := ThemeLoader.get_next_priority_theme self graph_state in
    (forall n, In n candidates <->
        In n (Dict.values (ThemeLoader._theme_nodes self))
        /\ ThemeNode.status n <> EXHAUSTED
        /\ ThemeNode.is_ready_to_explore n (Some live) = true)
    /\ (next = None <-> candidates = [])
    /\ (forall n, next = Some n ->
          first_min tuple_lt tuple_le ThemeLoader.sort_key candidates n
          /\ forall m, In m candidates ->
               ThemeNode.priority n <= ThemeNode.priority m
               /\ (ThemeNode.priority n = ThemeNode.priority m ->
                   ThemeNode.status m = MENTIONED ->
                   ThemeNode.status n = MENTIONED))
    /\ (graph_state = None \/ graph_state = Some [] ->
        live = ThemeLoader._theme_nodes self)
    /\ (forall gs, graph_state = Some gs -> gs <> [] ->
          live = gs
          /\ forall n, In n candidates <->
                In n (Dict.values (ThemeLoader._theme_nodes self))
                /\ ThemeNode.status n <> EXHAUSTED
                /\ (forall dep, In dep (ThemeNode.depends_on n) ->
                      exists m, Dict.get gs dep = Some m
                                /\ ThemeNode.status m = EXHAUSTED)).
Proof.
  intros self graph_state live candidates next.
  assert (C : forall n, In n candidates <->
                In n (Dict.values (ThemeLoader._theme_nodes self))
                /\ ThemeNode.status n <> EXHAUSTED
                /\ ThemeNode.is_ready_to_explore n (Some live) = true).
  { intros n. subst candidates. unfold ThemeLoader.candidates.
    fold live. rewrite filter_In, andb_true_iff, orb_true_iff, !status_eqb_eq.
    destruct (ThemeNode.status n); intuition congruence. }
  split; [exact C |]. split; [| split; [| split]].
  - subst next. unfold ThemeLoader.get_next_priority_theme. fold candidates.
    destruct candidates; split; congruence.
  - intros n Hn. subst next.
    unfold ThemeLoader.get_next_priority_theme in Hn. fold candidates in Hn.
    destruct candidates as [|c cs]; [discriminate |]. injection Hn as <-.
    assert (FM : first_min tuple_lt tuple_le ThemeLoader.sort_key (c :: cs)
                   (min_from ThemeLoader.tuple_ltb ThemeLoader.sort_key c cs)).
    { apply (min_from_first_min ThemeLoader.tuple_ltb tuple_lt tuple_le).
      - apply tuple_ltb_lt.
      - apply tuple_ltb_ge.
      - unfold tuple_lt. intros; lia.
      - unfold tuple_lt, tuple_le. intros; lia. }
    split; [exact FM |].
    set (n := min_from _ _ c cs) in *.
    destruct FM as (bf & af & Heq & Hbf & Haf).
    intros m Hm. rewrite Heq in Hm.
    assert (Hle : tuple_le (ThemeLoader.sort_key n) (ThemeLoader.sort_key m)).
    { apply in_app_or in Hm as [Hm | [<- | Hm]].
      - specialize (Hbf m Hm). unfold tuple_lt, tuple_le in *. lia.
      - unfold tuple_le. lia.
      - auto. }
    unfold tuple_le, ThemeLoader.sort_key in Hle. cbn [fst snd] in Hle.
    split; [lia |]. intros Hp Hs. rewrite Hs in Hle. cbn in Hle.
    destruct (ThemeNode.status n); cbn in Hle; try lia. reflexivity.
  - subst live. unfold ThemeLoader.state_or_own.
    intros [-> | ->]; reflexivity.
  - intros gs -> Hgs.
    assert (L : live = gs).
    { subst live. unfold ThemeLoader.state_or_own.
      destruct gs; [congruence | reflexivity]. }
    split; [exact L |]. intros n. rewrite C, L.
    assert (R : ThemeNode.is_ready_to_explore n (Some gs) = true <->
                forall dep, In dep (ThemeNode.depends_on n) ->
                  exists m, Dict.get gs dep = Some m
                            /\ ThemeNode.status m = EXHAUSTED).
    { unfold ThemeNode.is_ready_to_explore.
      destruct (ThemeNode.depends_on n) as [|dep deps] eqn:Ed.
      - split; [intros _ dep [] | reflexivity].
      - rewrite forallb_forall. split.
        + intros H dep' Hin. specialize (H dep' Hin).
          destruct (Dict.get gs dep') as [m|]; [| discriminate].
          exists m. split; [reflexivity |]. now apply status_eqb_eq.
        + intros H dep' Hin. destruct (H dep' Hin) as (m & -> & Hm).
          now apply status_eqb_eq. }
    rewrite R. tauto.
Qed.

(** The loader's own themes are all PENDING, so ["T"], which depends on
    ["X"], is blocked there; the caller's map has ["X"] EXHAUSTED. *)
Lemma get_next_priority_theme_policy_witness :
  let self :=
    ThemeLoader.mk Sample.catalog (GraphManager.theme_nodes Sample.fresh) in
  let gs :=
    GraphManager.theme_nodes
      (GraphManager.run [GraphManager.MarkThemeExhausted 1 "X"]
         Sample.fresh) in
  ThemeLoader.state_or_own self (Some gs) = gs
  /\ List.length (ThemeLoader.candidates self None) = 2%nat
  /\ List.length (ThemeLoader.candidates self (Some gs)) = 3%nat.
Proof.
  intros self gs.
  split; [| split; vm_compute; reflexivity].
  apply (proj2 (proj2 (proj2 (proj2
           (get_next_priority_theme_policy self (Some gs))))) gs eq_refl).
  discriminate.
Defined.

Lemma one_domain (n : ThemeNode.t) :
  ThemeNode.domain n <> None ->
  fold_right Z.add 0
    (map (fun d => if ThemeLoader.in_domain d n then 1 else 0) all_domains)
  = 1.
Proof.
  unfold ThemeLoader.in_domain.
  destruct (ThemeNode.domain n) as [[]|]; [reflexivity .. | congruence].
Qed.

Lemma domain_counts (l : list ThemeNode.t) :
  (forall n, In n l -> ThemeNode.domain n <> None) ->
  fold_right Z.add 0
    (map (fun d => Z.of_nat (List.length (filter (ThemeLoader.in_domain d) l)))
       all_domains)
  = Z.of_nat (List.length l).
Proof.
  induction l as [|n r IH]; intros H; [reflexivity |].
  assert (Hr : forall m, In m r -> ThemeNode.domain m <> None)
    by (intros m Hm; apply H; now right).
  specialize (IH Hr).
  pose proof (one_domain n (H n (or_introl eq_refl))) as O.
  unfold all_domains in *. cbn [map fold_right filter] in *.
  repeat match goal with
         | |- context [ThemeLoader.in_domain ?d n] =>
             destruct (ThemeLoader.in_domain d n)
         end; cbn [List.length] in *; lia.
Qed.

(** X19.  [get_domains_summary] has one entry per domain of the
    enumeration, in its order, also for a domain without themes; the entry
    of a domain holds the number and the ids of the themes of that domain,
    in map order.  When every theme has a domain, as after [load], the
    counts add up to [get_theme_count()]. *)
Theorem domains_summary_partitions :
  forall (self : ThemeLoader.t),
    let summary := ThemeLoader.get_domains_summary self in
    Dict.keys summary = map Domain_value all_domains
    /\ (forall d,
          Dict.get summary (Domain_value d)
          = Some (ThemeLoader.mk_summary (Domain_value d)
                    (Z.of_nat
                       (List.length (ThemeLoader.get_themes_by_domain self d)))
                    (map ThemeNode.theme_id
                       (ThemeLoader.get_themes_by_domain self d))))
    /\ (forall d n,
          In n (ThemeLoader.get_themes_by_domain self d) <->
          In n (Dict.values (ThemeLoader._theme_nodes self))
          /\ ThemeNode.domain n = Some d)
    /\ ((forall n, In n (Dict.values (ThemeLoader._theme_nodes self)) ->
                   ThemeNode.domain n <> None) ->
        fold_right Z.add 0 (map ThemeLoader.count (Dict.values summary))
        = ThemeLoader.get_theme_count self).
Proof.
  intros self summary. subst summary.
  unfold ThemeLoader.get_domains_summary, all_domains.
  cbn [fold_left Domain_value Dict.set Dict.empty String.eqb Ascii.eqb
       Bool.eqb map Dict.keys Dict.values fst snd].
  split; [reflexivity |]. split; [| split].
  - intros []; reflexivity.
  - intros d n. unfold ThemeLoader.get_themes_by_domain, ThemeLoader.in_domain.
    rewrite filter_In. destruct (ThemeNode.domain n) as [d'|].
    + unfold Domain_eqb. split; intros [H1 H2]; split; auto.
      * apply String.eqb_eq in H2. destruct d', d; (reflexivity || discriminate).
      * injection H2 as ->. apply String.eqb_refl.
    + intuition discriminate.
  - intros H.
    pose proof (domain_counts (Dict.values (ThemeLoader._theme_nodes self)) H)
      as C.
    unfold all_domains in C. cbn [map fold_right] in C.
    cbn [ThemeLoader.count fold_right].
    unfold ThemeLoader.get_themes_by_domain,  ThemeLoader.get_theme_count,
      Dict.len.
    rewrite C. unfold Dict.values. now rewrite length_map.
Qed.

Lemma domains_summary_partitions_witness :
  fold_right Z.add 0
    (map ThemeLoader.count
       (Dict.values
          (ThemeLoader.get_domains_summary
             (ThemeLoader.mk Sample.catalog
                (GraphManager.theme_nodes Sample.fresh)))))
  = 3.
Proof.
  apply (proj2 (proj2 (proj2 (domains_summary_partitions
           (ThemeLoader.mk Sample.catalog
              (GraphManager.theme_nodes Sample.fresh)))))).
  intros n H. vm_compute in H.
  destruct H as [<- | [<- | [<- | []]]]; discriminate.
Defined.

(** ** [GraphManager]: construction and reset *)

Lemma load_ok_required now c self loader nodes log :
  ThemeLoader.load now (Parsed c) self = (loader, Ok nodes, log) ->
  Forall (fun pd => ThemeLoader.has_required (snd pd) = true)
    (ThemeLoader.processed_defs c).
Proof.
  intros H.
  destruct (Forall_Exists_dec
              (fun pd => ThemeLoader.has_required (snd pd) = true)
              (fun pd => bool_dec (ThemeLoader.has_required (snd pd)) true)
              (ThemeLoader.processed_defs c)) as [F | E]; [exact F |].
  exfalso.
  assert (E' : Exists (fun pd => ThemeLoader.has_required (snd pd) = false)
                 (ThemeLoader.processed_defs c)).
  { rewrite Exists_exists in *. destruct E as (pd & Hin & Hf).
    exists pd. split; auto. now destruct (ThemeLoader.has_required (snd pd)). }
  unfold ThemeLoader.load in H.
  assert (Hd : exists st k,
             ThemeLoader.load_domains now
               (Dict.items (get_default (ThemeLoader.cat_domains c) Dict.empty))
               (ThemeLoader.mk_loop Dict.empty 0 [])
             = (st, Some (KeyError k))).
  { destruct c as [[ds|]]; [| inversion E'].
    destruct (load_domains_raises now ds (ThemeLoader.mk_loop Dict.empty 0 [])
                E') as (st & k & Hl & _). eauto. }
  destruct Hd as (st & k & Hl). rewrite Hl in H. discriminate.
Qed.

Lemma load_ok_NoDup now c self loader nodes log :
  ThemeLoader.load now (Parsed c) self = (loader, Ok nodes, log) ->
  NoDup (Dict.keys nodes) /\ loader = ThemeLoader.mk c nodes.
Proof.
  intros H. pose proof (load_ok_required _ _ _ _ _ _ H) as F.
  unfold ThemeLoader.load in H.
  assert (Hl : ThemeLoader.load_domains now
                 (Dict.items (get_default (ThemeLoader.cat_domains c)
                                Dict.empty))
                 (ThemeLoader.mk_loop Dict.empty 0 [])
               = (ThemeLoader.mk_loop
                    (insert_defs now (ThemeLoader.processed_defs c) Dict.empty)
                    (0 + Z.of_nat (List.length (ThemeLoader.processed_defs c)))
                    ([] ++ map (fun id => (WARNING, MsgUnknownDomain id))
                             (ThemeLoader.unknown_domains c)),
                  None)).
  { destruct c as [[ds|]]; [| reflexivity].
    apply (load_domains_spec now ds (ThemeLoader.mk_loop Dict.empty 0 [])).
    exact F. }
  rewrite Hl in H. injection H as <- <- _.
  cbn [ThemeLoader.ls_nodes]. split; [| reflexivity].
  apply insert_defs_NoDup. constructor.
Qed.

Lemma to_dict_ok (n : ThemeNode.t) :
  ThemeNode.domain n <> None -> exists d, ThemeNode.to_dict n = Ok d.
Proof.
  unfold ThemeNode.to_dict. destruct (ThemeNode.domain n); [| congruence].
  intros _. cbn [bind]. eauto.
Qed.

Lemma dependency_edges k deps : forall es src dst,
  In dst (get_default
            (Dict.get
               (fold_left
                  (fun es dep_id => GraphManager.add_dependency_edge es dep_id k)
                  deps es)
               src) [])
  <-> In dst (get_default (Dict.get es src) []) \/ (dst = k /\ In src deps).
Proof.
  induction deps as [|dep r IH]; intros es src dst; simpl; [tauto |].
  rewrite IH. unfold GraphManager.add_dependency_edge.
  destruct (string_dec dep src) as [<- | N].
  - rewrite get_set_same. cbn [get_default]. rewrite in_app_iff. simpl.
    intuition.
  - rewrite get_set_other by assumption. intuition congruence.
Qed.

Lemma initialize_nodes_other r : forall g g' k,
  ~ In k (Dict.keys r) ->
  GraphManager.initialize_nodes r g = (g', None) ->
  Dict.get (GraphManager.nodes g') k = Dict.get (GraphManager.nodes g) k.
Proof.
  induction r as [|[k2 n2] r IH]; intros g g' k Hk Hinit.
  - simpl in Hinit. now injection Hinit as <-.
  - cbn [GraphManager.initialize_nodes] in Hinit.
    destruct (ThemeNode.to_dict n2) as [d2|e2]; [| discriminate].
    rewrite (IH _ _ k (fun H => Hk (or_intror H)) Hinit).
    cbn [GraphManager.nodes]. apply get_set_other.
    intros ->. apply Hk. now left.
Qed.

Lemma initialize_nodes_spec themes : forall g,
  (forall k n, In (k, n) themes -> ThemeNode.domain n <> None) ->
  NoDup (Dict.keys themes) ->
  (forall k, In k (Dict.keys themes) ->
             ~ In k (Dict.keys (GraphManager.nodes g))) ->
  exists g',
    GraphManager.initialize_nodes themes g = (g', None)
    /\ Dict.keys (GraphManager.nodes g')
       = Dict.keys (GraphManager.nodes g) ++ Dict.keys themes
    /\ (forall k n, In (k, n) themes ->
          Dict.get (GraphManager.nodes g') k = theme_graph_node n)
    /\ (forall src dst,
          has_edge g' src dst <->
          has_edge g src dst
          \/ exists n, In (dst, n) themes /\ In src (ThemeNode.depends_on n)).
Proof.
  induction themes as [|[k n] r IH]; intros g Hdom ND Hnew.
  - exists g. simpl. rewrite app_nil_r. repeat split; try tauto.
    intros [H | (m & [] & _)]; exact H.
  - cbn [GraphManager.initialize_nodes].
    destruct (to_dict_ok n (Hdom k n (or_introl eq_refl))) as (d & Hd).
    rewrite Hd. inversion ND as [|? ? Hk ND']; subst.
    set (g1 := GraphManager.mk_graph _ _).
    assert (K1 : Dict.keys (GraphManager.nodes g1)
                 = Dict.keys (GraphManager.nodes g) ++ [k]).
    { subst g1. cbn [GraphManager.nodes]. apply keys_set_notin.
      apply Hnew. simpl. now left. }
    destruct (IH g1) as (g' & Hinit & Hkeys & Hget & Hedges).
    + intros k' n' Hin. apply (Hdom k' n'). now right.
    + exact ND'.
    + intros k' Hin. rewrite K1, in_app_iff. simpl.
      intros [H | [<- | []]]; [| contradiction].
      apply (Hnew k'); [simpl; now right | exact H].
    + exists g'. split; [exact Hinit |]. split; [| split].
      * rewrite Hkeys, K1, <- app_assoc. reflexivity.
      * intros k' n' [H | H]; [| now apply Hget].
        injection H as <- <-.
        assert (G : Dict.get (GraphManager.nodes g') k
                    = Dict.get (GraphManager.nodes g1) k)
          by (eapply initialize_nodes_other; eauto).
        rewrite G. subst g1. cbn [GraphManager.nodes].
        rewrite get_set_same. unfold theme_graph_node. now rewrite Hd.
      * intros src dst. rewrite Hedges. unfold has_edge. subst g1.
        cbn [GraphManager.edges]. rewrite dependency_edges. split.
        -- intros [[H | [-> H]] | (m & Hin & Hdep)]; auto.
           ++ right. exists n. split; [now left | exact H].
           ++ right. exists m. split; [now right | exact Hdep].
        -- intros [H | (m & [Hin | Hin] & Hdep)]; auto.
           ++ injection Hin as -> ->. auto.
           ++ right. exists m. auto.
Qed.

(** X20.  A manager that [GraphManager(theme_loader)] built on a readable
    catalog holds no event; its themes are the map of the loader, with
    distinct ids, each theme new (PENDING, depth 0, ratio 0); the graph has
    one node per theme, in the same order, typed "theme" with status
    "pending" and the record of the theme as data; and [dst] is in the
    adjacency list of [src] exactly when theme [dst] declares [src] in
    [depends_on], also when [src] is not a theme. *)
Theorem constructed_manager :
  forall (now : datetime) (c : ThemeLoader.catalog) (loader : ThemeLoader.t)
         (gm : GraphManager.t),
    GraphManager.__init__ now (Parsed c) loader = Ok gm ->
    GraphManager.event_nodes gm = []
    /\ GraphManager.theme_loader gm
       = ThemeLoader.mk c (GraphManager.theme_nodes gm)
    /\ NoDup (Dict.keys (GraphManager.theme_nodes gm))
    /\ (forall k n, In (k, n) (GraphManager.theme_nodes gm) ->
                    fresh_theme now k n)
    /\ Dict.keys (GraphManager.nodes (GraphManager.graph gm))
       = Dict.keys (GraphManager.theme_nodes gm)
    /\ (forall k n, In (k, n) (GraphManager.theme_nodes gm) ->
          Dict.get (GraphManager.nodes (GraphManager.graph gm)) k
          = theme_graph_node n
          /\ theme_graph_node n <> None)
    /\ (forall src dst,
          has_edge (GraphManager.graph gm) src dst <->
          exists n, In (dst, n) (GraphManager.theme_nodes gm)
                    /\ In src (ThemeNode.depends_on n)).
Proof.
  intros now c loader gm H.
  unfold GraphManager.__init__, GraphManager._initialize_graph in H.
  destruct (ThemeLoader.load now (Parsed c) _) as [[l [themes|e]] log] eqn:El;
    [| discriminate].
  cbn [GraphManager.theme_loader] in El.
  destruct (load_ok_NoDup _ _ _ _ _ _ El) as [ND ->].
  destruct (load_gives_fresh_themes_aux now c loader _ themes log El)
    as [_ Hfresh].
  destruct (initialize_nodes_spec (Dict.items themes)
              (GraphManager.mk_graph Dict.empty Dict.empty))
    as (g' & Hinit & Hkeys & Hget & Hedges).
  - intros k n Hin. apply (Hfresh k n Hin).
  - exact ND.
  - intros k _ [].
  - rewrite Hinit in H. injection H as <-.
    cbn [GraphManager.event_nodes GraphManager.theme_loader
         GraphManager.theme_nodes GraphManager.graph
         GraphManager.with_graph GraphManager.with_theme_nodes
         GraphManager.with_theme_loader].
    split; [reflexivity |]. split; [reflexivity |]. split; [exact ND |].
    split; [exact Hfresh |]. split; [exact Hkeys |]. split.
    + intros k n Hin. split; [now apply Hget |].
      unfold theme_graph_node.
      destruct (to_dict_ok n) as (d & ->); [| discriminate].
      apply (Hfresh k n Hin).
    + intros src dst. rewrite Hedges. unfold has_edge. simpl. tauto.
Qed.

Lemma constructed_manager_witness :
  GraphManager.event_nodes Sample.fresh = []
  /\ Dict.keys (GraphManager.nodes (GraphManager.graph Sample.fresh))
     = Dict.keys (GraphManager.theme_nodes Sample.fresh).
Proof.
  destruct (constructed_manager 0 Sample.catalog ThemeLoader.__init__
              Sample.fresh sample_fresh_constructed)
    as (He & _ & _ & _ & Hk & _).
  split; assumption.
Defined.

(** X21.  With the plain graph structure ([use_networkx = False]), where
    [_initialize_graph] assigns new node and edge maps, [reset] on a
    readable catalog gives the manager that a fresh construction on that
    catalog gives, whatever the manager held: events, statuses, depths and
    the graph of the session are gone. *)
Theorem reset_is_fresh_construction :
  forall (now : datetime) (c : ThemeLoader.catalog) (loader : ThemeLoader.t)
         (gm gm0 : GraphManager.t),
    GraphManager.__init__ now (Parsed c) loader = Ok gm0 ->
    GraphManager.reset now (Parsed c) gm = (gm0, None).
Proof.
  intros now c loader gm gm0 H.
  unfold GraphManager.__init__, GraphManager.reset,
    GraphManager._initialize_graph in *.
  cbn [GraphManager.theme_loader GraphManager.with_event_nodes] in *.
  unfold ThemeLoader.load in *.
  destruct (ThemeLoader.load_domains now _ _) as [st [e|]]; [discriminate |].
  cbn [GraphManager.with_theme_loader GraphManager.with_theme_nodes
       GraphManager.with_graph GraphManager.theme_loader GraphManager.graph
       GraphManager.theme_nodes GraphManager.event_nodes] in *.
  destruct (GraphManager.initialize_nodes _ _) as [g [e|]]; [discriminate |].
  cbn [GraphManager.with_theme_loader GraphManager.with_theme_nodes
       GraphManager.with_graph GraphManager.theme_loader GraphManager.graph
       GraphManager.theme_nodes GraphManager.event_nodes] in *.
  now injection H as <-.
Qed.

Lemma reset_is_fresh_construction_witness :
  GraphManager.reset 0 (Parsed Sample.catalog)
    (GraphManager.run
       [GraphManager.AddEventNode 1 (Sample.event "e1" "A") "A";
        GraphManager.MarkThemeExhausted 2 "X"]
       Sample.fresh)
  = (Sample.fresh, None).
Proof.
  apply (reset_is_fresh_construction 0 Sample.catalog ThemeLoader.__init__).
  vm_compute. reflexivity.
Defined.

(** X22.  When the catalog cannot be read, construction raises and there
    is no manager; [reset] raises the same exception after it has emptied
    the event collection: the themes and the graph are those of before, the
    events are lost. *)
Theorem reset_on_unreadable_catalog :
  forall (now : datetime) (f : file_read ThemeLoader.catalog)
         (loader : ThemeLoader.t) (gm : GraphManager.t),
    read_fails f ->
    exists e,
      GraphManager.__init__ now f loader = Raise e
      /\ snd (GraphManager.reset now f gm) = Some e
      /\ GraphManager.event_nodes (fst (GraphManager.reset now f gm)) = []
      /\ GraphManager.theme_nodes (fst (GraphManager.reset now f gm))
         = GraphManager.theme_nodes gm
      /\ GraphManager.graph (fst (GraphManager.reset now f gm))
         = GraphManager.graph gm
      /\ (f = Missing -> e = FileNotFoundError).
Proof.
  intros now f loader gm Hf.
  destruct f as [|e|c]; [| | destruct Hf].
  - exists FileNotFoundError. repeat split.
  - exists e. destruct e; repeat split; discriminate.
Qed.

Lemma reset_on_unreadable_catalog_witness :
  exists e,
    snd (GraphManager.reset 9 Missing
           (GraphManager.run
              [GraphManager.AddEventNode 1 (Sample.event "e1" "A") "A"]
              Sample.fresh)) = Some e
    /\ GraphManager.event_nodes
         (fst (GraphManager.reset 9 Missing
                 (GraphManager.run
                    [GraphManager.AddEventNode 1 (Sample.event "e1" "A") "A"]
                    Sample.fresh))) = [].
Proof.
  destruct (reset_on_unreadable_catalog 9 Missing ThemeLoader.__init__
              (GraphManager.run
                 [GraphManager.AddEventNode 1 (Sample.event "e1" "A") "A"]
                 Sample.fresh) I)
    as (e & _ & H1 & H2 & _).
  exists e. split; assumption.
Defined.

(** ** [GraphManager]: what a session keeps *)

Lemma restore_events_keys now uuid evs : forall i d k,
  In k (Dict.keys d) ->
  In k (Dict.keys (fst (GraphManager.restore_events now uuid i evs d))).
Proof.
  induction evs as [|[k0 ed] r IH]; intros i d k H; [exact H |].
  cbn [GraphManager.restore_events].
  destruct (EventNode.from_dict now (uuid i) ed); [| exact H].
  apply IH. apply keys_set_iff. now right.
Qed.

Lemma load_checkpoint_keys now uuid dir gm :
  Dict.keys (GraphManager.theme_nodes
               (fst (GraphManager.load_checkpoint now uuid dir gm)))
  = Dict.keys (GraphManager.theme_nodes gm)
  /\ incl (Dict.keys (GraphManager.event_nodes gm))
       (Dict.keys (GraphManager.event_nodes
                     (fst (GraphManager.load_checkpoint now uuid dir gm)))).
Proof.
  unfold GraphManager.load_checkpoint.
  destruct (GraphManager.graph_state_json dir) as [| |g];
    try (split; [reflexivity | apply incl_refl]).
  destruct (GraphManager.themes_state_json dir) as [| |td];
    try (split; [reflexivity | apply incl_refl]).
  cbn [GraphManager.with_graph GraphManager.theme_nodes
       GraphManager.event_nodes].
  pose proof (restore_themes_keys (Dict.items td) (GraphManager.theme_nodes gm))
    as K.
  destruct (GraphManager.restore_themes _ _) as [themes [e|]]; cbn [fst] in K;
    cbn [GraphManager.with_theme_nodes GraphManager.theme_nodes
         GraphManager.event_nodes fst];
    try (split; [exact K | apply incl_refl]).
  destruct (GraphManager.events_json dir) as [| |evs];
    try (split; [exact K | apply incl_refl]).
  pose proof (restore_events_keys now uuid (Dict.items evs) 0
                (GraphManager.event_nodes gm)) as E.
  destruct (GraphManager.restore_events _ _ _ _ _) as [events [e|]];
    cbn [fst] in E;
    cbn [GraphManager.with_event_nodes GraphManager.theme_nodes
         GraphManager.event_nodes fst];
    (split; [exact K | intros k Hk; now apply E]).
Qed.

Lemma step_keys gm o :
  is_reset o = false ->
  Dict.keys (GraphManager.theme_nodes (GraphManager.step gm o))
  = Dict.keys (GraphManager.theme_nodes gm)
  /\ incl (Dict.keys (GraphManager.event_nodes gm))
       (Dict.keys (GraphManager.event_nodes (GraphManager.step gm o))).
Proof.
  intros R. destruct o; try discriminate; cbn [GraphManager.step].
  - rewrite add_event_node_theme_nodes, add_event_node_event_nodes.
    unfold Dict.contains.
    destruct (Dict.get (GraphManager.theme_nodes gm) theme_id) eqn:G.
    + split.
      * cbv zeta. apply keys_set_in. eapply get_Some_in; eauto.
      * intros k Hk. apply keys_set_iff. now right.
    + split; [reflexivity | apply incl_refl].
  - unfold GraphManager.update_event_depth.
    destruct (Dict.get (GraphManager.event_nodes gm) event_id) eqn:G;
      [| split; [reflexivity | apply incl_refl]].
    cbn [GraphManager.with_event_nodes GraphManager.graph
         GraphManager.event_nodes].
    destruct (Dict.get (GraphManager.nodes (GraphManager.graph gm)) event_id);
      cbn; (split; [reflexivity |]);
      intros k Hk; apply keys_set_iff; now right.
  - unfold GraphManager.mark_theme_exhausted.
    destruct (Dict.get (GraphManager.theme_nodes gm) theme_id) eqn:G;
      [| split; [reflexivity | apply incl_refl]].
    cbn. split; [| apply incl_refl].
    apply keys_set_in. eapply get_Some_in; eauto.
  - split; [reflexivity | apply incl_refl].
  - apply load_checkpoint_keys.
  - destruct (Dict.get (GraphManager.theme_nodes gm) theme_id) eqn:G;
      [| split; [reflexivity | apply incl_refl]].
    cbn. split; [| apply incl_refl].
    apply keys_set_in. eapply get_Some_in; eauto.
Qed.

(** X23.  Along any sequence of calls without [reset] (event filing, depth
    updates, marking, theme methods, saving and loading checkpoints) the
    theme map keeps exactly its ids, in their order, and no event id leaves
    the event collection: themes are neither added nor removed, events are
    never deleted. *)
Theorem collections_are_stable :
  forall (ops : list GraphManager.op) (gm : GraphManager.t),
    forallb (fun o => negb (is_reset o)) ops = true ->
    Dict.keys (GraphManager.theme_nodes (GraphManager.run ops gm))
    = Dict.keys (GraphManager.theme_nodes gm)
    /\ (forall event_id,
          Dict.contains (GraphManager.event_nodes gm) event_id = true ->
          Dict.contains (GraphManager.event_nodes (GraphManager.run ops gm))
            event_id = true).
Proof.
  assert (C : forall (d : Dict.t EventNode.t) k,
            Dict.contains d k = true <-> In k (Dict.keys d)).
  { intros d k. rewrite contains_true. split.
    - intros [v Hv]. eapply get_Some_in; eauto.
    - intros Hin. destruct (Dict.get d k) eqn:G; eauto.
      apply get_None_notin in G. contradiction. }
  induction ops as [|o ops IH]; intros gm H; [split; auto |].
  simpl in H. apply andb_true_iff in H as [Ho Hops].
  apply negb_true_iff in Ho.
  destruct (step_keys gm o Ho) as [K E].
  destruct (IH (GraphManager.step gm o) Hops) as [K' E'].
  cbn [GraphManager.run fold_left]. fold (GraphManager.run ops (GraphManager.step gm o)).
  split; [now rewrite K', K |].
  intros k Hk. apply E'. apply C. apply E. now apply C.
Qed.

Lemma collections_are_stable_witness :
  Dict.keys
    (GraphManager.theme_nodes
       (GraphManager.run
          [GraphManager.AddEventNode 1 (Sample.event "e1" "A") "A";
           GraphManager.LoadCheckpoint 2 Sample.uuid GraphManager.no_checkpoint]
          Sample.fresh))
  = Dict.keys (GraphManager.theme_nodes Sample.fresh).
Proof.
  apply (proj1 (collections_are_stable
                  [GraphManager.AddEventNode 1 (Sample.event "e1" "A") "A";
                   GraphManager.LoadCheckpoint 2 Sample.uuid
                     GraphManager.no_checkpoint]
                  Sample.fresh eq_refl)).
Defined.

(** ** Checkpoints *)

Lemma get_app {V : Type} (a b : Dict.t V) k :
  Dict.get (a ++ b) k
  = match Dict.get a k with
    | Some v => Some v
    | None => Dict.get b k
    end.
Proof.
  induction a as [|[k' v'] r IH]; simpl; auto.
  destruct (String.eqb k k'); auto.
Qed.

Lemma to_dict_fields (n : ThemeNode.t) (d : ThemeNode.dict) :
  ThemeNode.to_dict n = Ok d ->
  ThemeNode.d_status d = Some (NodeStatus_value (ThemeNode.status n))
  /\ ThemeNode.d_exploration_depth d = Some (ThemeNode.exploration_depth n)
  /\ ThemeNode.d_slots_filled d = Some (ThemeNode.slots_filled n).
Proof.
  unfold ThemeNode.to_dict. destruct (ThemeNode.domain n); [| discriminate].
  cbn [bind]. intros H. injection H as <-. repeat split.
Qed.

Lemma themes_data_spec items : forall acc,
  (forall k n, In (k, n) items -> ThemeNode.domain n <> None) ->
  NoDup (Dict.keys items) ->
  (forall k, In k (Dict.keys items) -> Dict.get acc k = None) ->
  exists l,
    GraphManager.themes_data items acc = Ok (acc ++ l)
    /\ Forall2 serialized items l.
Proof.
  induction items as [|[k n] r IH]; intros acc Hdom ND Hnew.
  - exists []. simpl. now rewrite app_nil_r.
  - cbn [GraphManager.themes_data].
    destruct (to_dict_ok n (Hdom k n (or_introl eq_refl))) as (d & Hd).
    rewrite Hd. cbn [bind]. inversion ND as [|? ? Hk ND']; subst.
    rewrite set_new by (apply Hnew; simpl; now left).
    destruct (IH (acc ++ [(k, d)])) as (l & Hl & HF).
    + intros k' n' Hin. apply (Hdom k' n'). now right.
    + exact ND'.
    + intros k' Hin. rewrite get_app, Hnew by (simpl; now right).
      simpl. destruct (String.eqb k' k) eqn:E; auto.
      apply String.eqb_eq in E. subst. contradiction.
    + exists ((k, d) :: l). rewrite Hl, <- app_assoc. split; [reflexivity |].
      constructor; [split; [reflexivity | exact Hd] | exact HF].
Qed.

Lemma restore_themes_spec src l :
  Forall2 serialized src l ->
  NoDup (Dict.keys src) ->
  forall d0,
  exists d',
    GraphManager.restore_themes l d0 = (d', None)
    /\ forall k,
        Dict.get d' k
        = match Dict.get d0 k with
          | None => None
          | Some n' =>
              Some (match Dict.get src k with
                    | Some n => restored n n'
                    | None => n'
                    end)
          end.
Proof.
  induction 1 as [|[k n] [k' d] src l [Hk Hd] HF IH]; intros ND d0.
  - exists d0. split; [reflexivity |]. intros k.
    destruct (Dict.get d0 k); reflexivity.
  - cbn [fst snd] in Hk, Hd. subst k'.
    inversion ND as [|? ? Hnk ND']; subst.
    destruct (to_dict_fields n d Hd) as (Hs & He & Hsl).
    cbn [GraphManager.restore_themes].
    assert (Gsrc : Dict.get src k = None) by now apply get_None_notin.
    destruct (Dict.get d0 k) as [theme|] eqn:G.
    + rewrite Hs, He, Hsl. cbn [bind subscript get_default].
      rewrite NodeStatus_round_trip.
      destruct (IH ND' (Dict.set d0 k (restored n theme))) as (d' & Hr & Hg).
      exists d'. split; [exact Hr |]. intros k'. rewrite Hg.
      cbn [Dict.get]. destruct (String.eqb k' k) eqn:E.
      * apply String.eqb_eq in E. subst k'.
        now rewrite get_set_same, G, Gsrc.
      * apply String.eqb_neq in E.
        rewrite get_set_other by congruence. reflexivity.
    + destruct (IH ND' d0) as (d' & Hr & Hg).
      exists d'. split; [exact Hr |]. intros k'. rewrite Hg.
      cbn [Dict.get]. destruct (String.eqb k' k) eqn:E; [| reflexivity].
      apply String.eqb_eq in E. subst k'. now rewrite G.
Qed.

Lemma events_data_spec items : forall acc,
  NoDup (Dict.keys items) ->
  (forall k, In k (Dict.keys items) -> Dict.get acc k = None) ->
  fold_left (fun acc '(event_id, node) =>
               Dict.set acc event_id (EventNode.to_dict node))
    items acc
  = acc ++ map (fun '(k, e) => (k, EventNode.to_dict e)) items.
Proof.
  induction items as [|[k e] r IH]; intros acc ND Hnew; simpl.
  - now rewrite app_nil_r.
  - inversion ND as [|? ? Hk ND']; subst.
    rewrite set_new by (apply Hnew; simpl; now left).
    rewrite IH; [now rewrite <- app_assoc | exact ND' |].
    intros k' Hin. rewrite get_app, Hnew by (simpl; now right).
    simpl. destruct (String.eqb k' k) eqn:E; auto.
    apply String.eqb_eq in E. subst. contradiction.
Qed.

Lemma restore_events_spec now uuid items : forall i d0,
  (forall k e, In (k, e) items -> constructed e) ->
  GraphManager.restore_events now uuid i
    (map (fun '(k, e) => (k, EventNode.to_dict e)) items) d0
  = (fold_left (fun acc '(k, e) => Dict.set acc k e) items d0, None).
Proof.
  induction items as [|[k e] r IH]; intros i d0 H; [reflexivity |].
  cbn [map GraphManager.restore_events fold_left].
  rewrite event_from_to_dict.
  destruct (H k e (or_introl eq_refl)) as [Hid Hs].
  rewrite post_init_fixed by assumption.
  apply IH. intros k' e' Hin. apply (H k' e'). now right.
Qed.

Lemma fold_set_get (items : Dict.t EventNode.t) : forall d0 k,
  NoDup (Dict.keys items) ->
  Dict.get (fold_left (fun acc '(k, e) => Dict.set acc k e) items d0) k
  = match Dict.get items k with
    | Some e => Some e
    | None => Dict.get d0 k
    end.
Proof.
  induction items as [|[k0 e0] r IH]; intros d0 k ND; [reflexivity |].
  inversion ND as [|? ? Hk ND']; subst. cbn [fold_left Dict.get].
  rewrite IH by assumption.
  destruct (String.eqb k k0) eqn:E.
  - apply String.eqb_eq in E. subst k0.
    assert (G : Dict.get r k = None) by now apply get_None_notin.
    now rewrite G, get_set_same.
  - apply String.eqb_neq in E.
    destruct (Dict.get r k); [reflexivity |].
    apply get_set_other. congruence.
Qed.

Lemma fold_set_new (items : Dict.t EventNode.t) : forall d0,
  NoDup (Dict.keys items) ->
  (forall k, In k (Dict.keys items) -> Dict.get d0 k = None) ->
  fold_left (fun acc '(k, e) => Dict.set acc k e) items d0 = d0 ++ items.
Proof.
  induction items as [|[k e] r IH]; intros d0 ND Hnew; simpl.
  - now rewrite app_nil_r.
  - inversion ND as [|? ? Hk ND']; subst.
    rewrite set_new by (apply Hnew; simpl; now left).
    rewrite IH; [now rewrite <- app_assoc | exact ND' |].
    intros k' Hin. rewrite get_app, Hnew by (simpl; now right).
    simpl. destruct (String.eqb k' k) eqn:E; auto.
    apply String.eqb_eq in E. subst. contradiction.
Qed.

(** X24.  A checkpoint round-trips.  Take a manager whose theme ids and
    event ids are distinct, whose themes have a domain and whose events are
    as the constructor leaves them, and let every write succeed: then
    [save_checkpoint] returns [True], and [load_checkpoint] of what it wrote,
    into any manager, returns [True], installs the saved graph, gives every
    theme that both managers know the saved status, depth and slots (its
    other fields stay, themes known to one side only are left alone or
    ignored), and puts every saved event back, unchanged, under its id.
    Into a manager without events the event collection is the saved one. *)
Theorem checkpoint_round_trip :
  forall (now : datetime) (uuid : nat -> string)
         (dir : GraphManager.checkpoint) (gm gm' : GraphManager.t),
    NoDup (Dict.keys (GraphManager.theme_nodes gm)) ->
    (forall k n, In (k, n) (GraphManager.theme_nodes gm) ->
                 ThemeNode.domain n <> None) ->
    NoDup (Dict.keys (GraphManager.event_nodes gm)) ->
    (forall k e, In (k, e) (GraphManager.event_nodes gm) -> constructed e) ->
    let saved :=
      GraphManager.save_checkpoint GraphManager.all_written dir gm in
    let r := GraphManager.load_checkpoint now uuid (snd saved) gm' in
    fst saved = GraphManager.Returns true
    /\ snd r = true
    /\ GraphManager.graph (fst r) = GraphManager.graph gm
    /\ (forall k,
          Dict.get (GraphManager.theme_nodes (fst r)) k
          = match Dict.get (GraphManager.theme_nodes gm') k with
            | None => None
            | Some n' =>
                Some (match Dict.get (GraphManager.theme_nodes gm) k with
                      | Some n => restored n n'
                      | None => n'
                      end)
            end)
    /\ (forall k,
          Dict.get (GraphManager.event_nodes (fst r)) k
          = match Dict.get (GraphManager.event_nodes gm) k with
            | Some e => Some e
            | None => Dict.get (GraphManager.event_nodes gm') k
            end)
    /\ (GraphManager.event_nodes gm' = [] ->
        GraphManager.event_nodes (fst r) = GraphManager.event_nodes gm).
Proof.
  intros now uuid dir gm gm' NDt Hdom NDe Hev saved r.
  destruct (themes_data_spec (Dict.items (GraphManager.theme_nodes gm))
              Dict.empty Hdom NDt (fun _ _ => eq_refl))
    as (td & Htd & HF).
  cbn [app Dict.empty] in Htd.
  pose proof (events_data_spec (Dict.items (GraphManager.event_nodes gm))
                Dict.empty NDe (fun _ _ => eq_refl)) as Hed.
  cbn [app Dict.empty] in Hed.
  assert (Hsaved : saved
                   = (GraphManager.Returns true,
                      GraphManager.mk_checkpoint
                        (Parsed (GraphManager.graph gm)) (Parsed td)
                        (Parsed (map (fun '(k, e) => (k, EventNode.to_dict e))
                                   (GraphManager.event_nodes gm))))).
  { subst saved. unfold GraphManager.save_checkpoint, GraphManager.all_written.
    cbn [GraphManager.mkdir GraphManager.write_graph_state
         GraphManager.write_themes_state GraphManager.write_events
         GraphManager.write_file].
    rewrite Htd. unfold GraphManager.events_data. now rewrite Hed. }
  destruct (restore_themes_spec _ _ HF NDt (GraphManager.theme_nodes gm'))
    as (themes & Hrt & Hget).
  pose proof (restore_events_spec now uuid
                (Dict.items (GraphManager.event_nodes gm)) 0
                (GraphManager.event_nodes gm') Hev) as Hre.
  assert (Hr : r = (GraphManager.with_event_nodes
                      (GraphManager.with_theme_nodes
                         (GraphManager.with_graph gm' (GraphManager.graph gm))
                         themes)
                      (fold_left (fun acc '(k, e) => Dict.set acc k e)
                         (GraphManager.event_nodes gm)
                         (GraphManager.event_nodes gm')),
                    true)).
  { subst r. rewrite Hsaved. unfold GraphManager.load_checkpoint.
    cbn [snd GraphManager.graph_state_json GraphManager.themes_state_json
         GraphManager.events_json GraphManager.with_graph
         GraphManager.theme_nodes Dict.items].
    unfold Dict.items in *. rewrite Hrt.
    cbn [GraphManager.with_theme_nodes GraphManager.with_graph
         GraphManager.event_nodes].
    rewrite Hre. reflexivity. }
  rewrite Hsaved, Hr.
  cbn [fst snd GraphManager.graph GraphManager.theme_nodes
       GraphManager.event_nodes GraphManager.with_event_nodes
       GraphManager.with_theme_nodes GraphManager.with_graph].
  split; [reflexivity |]. split; [reflexivity |]. split; [reflexivity |].
  split; [exact Hget |]. split.
  - intros k. now apply fold_set_get.
  - intros ->. now apply (fold_set_new (GraphManager.event_nodes gm) []).
Qed.

Lemma checkpoint_round_trip_witness :
  let gm :=
    GraphManager.run
      [GraphManager.AddEventNode 1 (Sample.event "e1" "A") "A";
       GraphManager.MarkThemeExhausted 2 "X"]
      Sample.fresh in
  let saved :=
    GraphManager.save_checkpoint GraphManager.all_written
      GraphManager.no_checkpoint gm in
  let r := GraphManager.load_checkpoint 3 Sample.uuid (snd saved) Sample.fresh in
  snd r = true
  /\ GraphManager.event_nodes (fst r) = GraphManager.event_nodes gm.
Proof.
  intros gm saved r.
  destruct (checkpoint_round_trip 3 Sample.uuid GraphManager.no_checkpoint
              gm Sample.fresh) as (_ & H1 & _ & _ & _ & H2).
  - vm_compute. repeat constructor; simpl; intuition discriminate.
  - intros k n H. vm_compute in H.
    destruct H as [H | [H | [H | []]]]; injection H as _ <-; discriminate.
  - vm_compute. repeat constructor; simpl; intuition discriminate.
  - intros k e H. vm_compute in H.
    destruct H as [H | []]. injection H as _ <-. split; discriminate.
  - split; [exact H1 | exact (H2 eq_refl)].
Defined.

(** ** [GraphManager]: the end of an interview, and failures *)

Lemma filter_nil {A : Type} (f : A -> bool) (l : list A) :
  (forall x, In x l -> f x = false) -> filter f l = [].
Proof.
  induction l as [|a r IH]; intros H; simpl; auto.
  rewrite (H a) by now left. apply IH. intros x Hx. apply H. now right.
Qed.

Lemma all_exhausted_none current_focus gm :
  (forall n, In n (Dict.values (GraphManager.theme_nodes gm)) ->
             ThemeNode.status n = EXHAUSTED) ->
  GraphManager.get_next_candidate_theme current_focus gm = None.
Proof.
  intros H. unfold GraphManager.get_next_candidate_theme,
    GraphManager.get_mentioned_theme_nodes, GraphManager.nodes_with_status,
    GraphManager.ready_pending.
  rewrite !filter_nil; auto; intros n Hn; rewrite (H n Hn); reflexivity.
Qed.

Lemma mark_exhausted_in now k0 gm :
  In k0 (Dict.keys (GraphManager.theme_nodes gm)) ->
  let gm1 := GraphManager.step gm (GraphManager.MarkThemeExhausted now k0) in
  exhausted_in gm1 k0
  /\ (forall k, exhausted_in gm k -> exhausted_in gm1 k)
  /\ Dict.keys (GraphManager.theme_nodes gm1)
     = Dict.keys (GraphManager.theme_nodes gm).
Proof.
  intros Hin gm1. subst gm1. cbn [GraphManager.step].
  unfold GraphManager.mark_theme_exhausted.
  destruct (Dict.get (GraphManager.theme_nodes gm) k0) as [n0|] eqn:G.
  2: { apply get_None_notin in G. contradiction. }
  unfold exhausted_in.
  cbn [fst GraphManager.theme_nodes GraphManager.with_graph
       GraphManager.with_theme_nodes].
  split; [| split].
  - eexists. rewrite get_set_same. split; reflexivity.
  - intros k (n & Hn & Hs).
    destruct (string_dec k0 k) as [<- | N].
    + eexists. rewrite get_set_same. split; reflexivity.
    + exists n. rewrite get_set_other by assumption. auto.
  - apply keys_set_in. exact Hin.
Qed.

Lemma run_marks now ks : forall gm,
  (forall k, In k ks -> In k (Dict.keys (GraphManager.theme_nodes gm))) ->
  let gm' :=
    GraphManager.run (map (GraphManager.MarkThemeExhausted now) ks) gm in
  (forall k, In k ks \/ exhausted_in gm k -> exhausted_in gm' k)
  /\ Dict.keys (GraphManager.theme_nodes gm')
     = Dict.keys (GraphManager.theme_nodes gm).
Proof.
  induction ks as [|k0 r IH]; intros gm Hks; cbv zeta.
  - split; [intros k [[] | H]; exact H | reflexivity].
  - destruct (mark_exhausted_in now k0 gm (Hks k0 (or_introl eq_refl)))
      as (H0 & Hkeep & Hkeys).
    cbv zeta in *.
    set (gm1 := GraphManager.step gm (GraphManager.MarkThemeExhausted now k0))
      in *.
    destruct (IH gm1) as (Hall & Hkeys').
    { intros k Hk. rewrite Hkeys. apply Hks. now right. }
    cbv zeta in *. cbn [map GraphManager.run fold_left].
    fold gm1.
    fold (GraphManager.run (map (GraphManager.MarkThemeExhausted now) r) gm1).
    split; [| now rewrite Hkeys', Hkeys].
    intros k [[<- | Hk] | Hk]; apply Hall; auto.
Qed.

(** X25.  An interview ends: once [mark_theme_exhausted] was called for
    every theme, every theme is EXHAUSTED and [get_next_candidate_theme]
    returns [None]; it returns [None] whenever every theme is EXHAUSTED. *)
Theorem exhausting_every_theme_ends :
  forall (now : datetime) (current_focus : option string)
         (gm : GraphManager.t),
    ((forall n, In n (Dict.values (GraphManager.theme_nodes gm)) ->
                ThemeNode.status n = EXHAUSTED) ->
     GraphManager.get_next_candidate_theme current_focus gm = None)
    /\ (NoDup (Dict.keys (GraphManager.theme_nodes gm)) ->
        let gm' :=
          GraphManager.run
            (map (GraphManager.MarkThemeExhausted now)
               (Dict.keys (GraphManager.theme_nodes gm)))
            gm in
        (forall n, In n (Dict.values (GraphManager.theme_nodes gm')) ->
                   ThemeNode.status n = EXHAUSTED)
        /\ GraphManager.get_next_candidate_theme current_focus gm' = None).
Proof.
  intros now current_focus gm. split; [apply all_exhausted_none |].
  intros ND gm'.
  destruct (run_marks now (Dict.keys (GraphManager.theme_nodes gm)) gm
              (fun _ H => H)) as (Hall & Hkeys).
  cbv zeta in *. fold gm' in Hall, Hkeys.
  assert (A : forall n, In n (Dict.values (GraphManager.theme_nodes gm')) ->
                        ThemeNode.status n = EXHAUSTED).
  { intros n Hn. unfold Dict.values in Hn.
    apply in_map_iff in Hn as ([k m] & <- & Hin).
    assert (Hk : In k (Dict.keys (GraphManager.theme_nodes gm))).
    { rewrite <- Hkeys. apply in_map_iff. exists (k, m). auto. }
    destruct (Hall k (or_introl Hk)) as (n0 & Hn0 & Hs).
    rewrite (get_in_NoDup _ k m) in Hn0; [| now rewrite Hkeys | exact Hin].
    injection Hn0 as <-. exact Hs. }
  split; [exact A | now apply all_exhausted_none].
Qed.

Lemma exhausting_every_theme_ends_witness :
  GraphManager.get_next_candidate_theme None
    (GraphManager.run
       (map (GraphManager.MarkThemeExhausted 5)
          (Dict.keys (GraphManager.theme_nodes Sample.fresh)))
       Sample.fresh)
  = None.
Proof.
  apply (proj2 (exhausting_every_theme_ends 5 None Sample.fresh)).
  vm_compute. repeat constructor; simpl; intuition discriminate.
Defined.

(** X26.  [add_event_node], [mark_theme_exhausted] and
    [update_event_depth] return [True] exactly when the id they are given
    is known, and a call that returns [False] leaves the manager as it was.
    On a known theme, [mark_theme_exhausted] makes the status EXHAUSTED
    from any status, PENDING included, records the time, touches no other
    theme, and sets the status of the theme's graph node to "exhausted". *)
Theorem mutators_fail_on_unknown_ids :
  forall (now : datetime) (event : EventNode.t) (id : string) (depth : Z)
         (gm : GraphManager.t),
    let a := GraphManager.add_event_node now event id gm in
    let m := GraphManager.mark_theme_exhausted now id gm in
    let u := GraphManager.update_event_depth id depth gm in
    snd a = Dict.contains (GraphManager.theme_nodes gm) id
    /\ snd m = Dict.contains (GraphManager.theme_nodes gm) id
    /\ snd u = Dict.contains (GraphManager.event_nodes gm) id
    /\ (snd a = false -> fst a = gm)
    /\ (snd m = false -> fst m = gm)
    /\ (snd u = false -> fst u = gm)
    /\ (forall n, Dict.get (GraphManager.theme_nodes gm) id = Some n ->
          Dict.get (GraphManager.theme_nodes (fst m)) id
          = Some (ThemeNode.with_exhausted_at
                    (ThemeNode.with_status n EXHAUSTED) (Some now))
          /\ (forall other, other <> id ->
                Dict.get (GraphManager.theme_nodes (fst m)) other
                = Dict.get (GraphManager.theme_nodes gm) other)
          /\ (forall node,
                Dict.get (GraphManager.nodes (GraphManager.graph gm)) id
                = Some node ->
                option_map GraphManager.status
                  (Dict.get (GraphManager.nodes (GraphManager.graph (fst m)))
                     id)
                = Some "exhausted")
          /\ GraphManager.event_nodes (fst m) = GraphManager.event_nodes gm).
Proof.
  intros now event id depth gm a m u.
  assert (A : snd a = Dict.contains (GraphManager.theme_nodes gm) id
              /\ (snd a = false -> fst a = gm)).
  { subst a. unfold GraphManager.add_event_node, Dict.contains.
    destruct (Dict.get (GraphManager.theme_nodes gm) id) as [n|] eqn:G;
      cbn [negb]; [| split; reflexivity].
    cbn [GraphManager.with_event_nodes GraphManager.with_graph
         GraphManager.theme_nodes GraphManager.event_nodes GraphManager.graph].
    rewrite G. cbv zeta.
    destruct (NodeStatus_eqb _ PENDING); cbn [snd]; split;
      (reflexivity || discriminate). }
  assert (M : snd m = Dict.contains (GraphManager.theme_nodes gm) id
              /\ (snd m = false -> fst m = gm)).
  { subst m. unfold GraphManager.mark_theme_exhausted, Dict.contains.
    destruct (Dict.get (GraphManager.theme_nodes gm) id); cbn [snd]; split;
      (reflexivity || discriminate). }
  assert (U : snd u = Dict.contains (GraphManager.event_nodes gm) id
              /\ (snd u = false -> fst u = gm)).
  { subst u. unfold GraphManager.update_event_depth, Dict.contains.
    destruct (Dict.get (GraphManager.event_nodes gm) id);
      [| split; reflexivity].
    cbn [GraphManager.with_event_nodes GraphManager.graph
         GraphManager.event_nodes].
    destruct (Dict.get (GraphManager.nodes (GraphManager.graph gm)) id);
      cbn [snd]; split; (reflexivity || discriminate). }
  destruct A as [A1 A2], M as [M1 M2], U as [U1 U2].
  split; [exact A1 |]. split; [exact M1 |]. split; [exact U1 |].
  split; [exact A2 |]. split; [exact M2 |]. split; [exact U2 |].
  intros n Hn. subst m. unfold GraphManager.mark_theme_exhausted.
  rewrite Hn.
  cbn [fst GraphManager.theme_nodes GraphManager.with_graph
       GraphManager.with_theme_nodes GraphManager.event_nodes
       GraphManager.graph].
  split; [apply get_set_same |].
  split; [intros other Ho; apply get_set_other; congruence |].
  split; [| reflexivity].
  intros node Hnode. unfold GraphManager._update_node_status.
  rewrite Hnode. cbn [GraphManager.nodes]. rewrite get_set_same. reflexivity.
Qed.

Lemma mutators_fail_on_unknown_ids_witness :
  fst (GraphManager.mark_theme_exhausted 1 "UNKNOWN" Sample.fresh)
  = Sample.fresh.
Proof.
  apply (proj1 (proj2 (proj2 (proj2 (proj2
           (mutators_fail_on_unknown_ids 1 (Sample.event "e1" "A") "UNKNOWN" 0
              Sample.fresh)))))).
  reflexivity.
Defined.

Section Related.
Variable R : ThemeNode.t -> ThemeNode.t -> Prop.
Hypothesis R_refl : forall n, R n n.
Hypothesis R_trans : forall a b c, R a b -> R b c -> R a c.
Hypothesis R_method : forall m n, R n (GraphManager.call_theme_method m n).

Lemma related_refl d : related R d d.
Proof. intros k n H. eauto. Qed.

Lemma related_trans d1 d2 d3 :
  related R d1 d2 -> related R d2 d3 -> related R d1 d3.
Proof.
  intros H12 H23 k n H.
  destruct (H12 k n H) as (n2 & G2 & L2).
  destruct (H23 k n2 G2) as (n3 & G3 & L3). eauto.
Qed.

Lemma related_set d tid old new :
  Dict.get d tid = Some old -> R old new -> related R d (Dict.set d tid new).
Proof.
  intros Hold Hle k n H. destruct (string_dec tid k) as [<- | N].
  - exists new. rewrite get_set_same. split; [reflexivity | congruence].
  - exists n. rewrite get_set_other by assumption. auto.
Qed.

Lemma step_related gm o :
  GraphManager.restores o = false ->
  related R (GraphManager.theme_nodes gm)
    (GraphManager.theme_nodes (GraphManager.step gm o)).
Proof.
  intros Hr. destruct o; try discriminate; cbn [GraphManager.step].
  - rewrite add_event_node_theme_nodes.
    destruct (Dict.get (GraphManager.theme_nodes gm) theme_id)
      as [theme|] eqn:E; [| apply related_refl].
    cbv zeta. eapply related_set; [exact E |].
    pose proof (R_method
                  (GraphManager.AddExtractedEvent (EventNode.event_id event))
                  theme) as H1.
    cbn [GraphManager.call_theme_method] in H1.
    set (t0 := ThemeNode.add_extracted_event _ theme) in *.
    pose proof (R_method GraphManager.IncrementDepth t0) as H2.
    cbn [GraphManager.call_theme_method] in H2.
    set (t1 := ThemeNode.increment_depth t0) in *.
    pose proof (R_method (GraphManager.MarkMentioned now) t1) as H3.
    cbn [GraphManager.call_theme_method] in H3.
    destruct (NodeStatus_eqb (ThemeNode.status t1) PENDING); eauto.
  - unfold GraphManager.update_event_depth.
    destruct (Dict.get (GraphManager.event_nodes gm) event_id);
      [| apply related_refl].
    cbn. destruct (Dict.get _ event_id); apply related_refl.
  - unfold GraphManager.mark_theme_exhausted.
    destruct (Dict.get (GraphManager.theme_nodes gm) theme_id)
      as [theme|] eqn:E; [| apply related_refl].
    cbn. eapply related_set; [exact E |].
    apply (R_method (GraphManager.MarkExhausted now)).
  - apply related_refl.
  - destruct (Dict.get (GraphManager.theme_nodes gm) theme_id)
      as [theme|] eqn:E; [| apply related_refl].
    cbn. eapply related_set; [exact E |]. apply R_method.
Qed.

Lemma run_related ops : forall gm,
  forallb (fun o => negb (GraphManager.restores o)) ops = true ->
  related R (GraphManager.theme_nodes gm)
    (GraphManager.theme_nodes (GraphManager.run ops gm)).
Proof.
  induction ops as [|o ops IH]; intros gm H; simpl.
  - apply related_refl.
  - simpl in H. apply andb_true_iff in H as [Ho Hops].
    apply negb_true_iff in Ho.
    eapply related_trans; [apply step_related, Ho | apply IH, Hops].
Qed.
End Related.

Lemma method_deepens m n : deepened n (GraphManager.call_theme_method m n).
Proof.
  unfold deepened. destruct m; simpl; try lia.
  - unfold ThemeNode.mark_mentioned.
    destruct (NodeStatus_eqb _ _); simpl; lia.
  - unfold ThemeNode.get_next_seed_question.
    destruct (_ && _); simpl; lia.
  - unfold ThemeNode.add_extracted_event.
    destruct (negb _); simpl; lia.
Qed.

(** X27.  The depth of a theme that is at most 5 stays at most 5 and never
    goes down, along any sequence of calls of [add_event_node],
    [update_event_depth], [mark_theme_exhausted], [save_checkpoint] and of
    theme methods; only [load_checkpoint] and [reset] can lower it or store
    a depth above 5. *)
Theorem theme_depth_is_kept :
  forall (ops : list GraphManager.op) (gm : GraphManager.t) (k : string)
         (n : ThemeNode.t),
    forallb (fun o => negb (GraphManager.restores o)) ops = true ->
    Dict.get (GraphManager.theme_nodes gm) k = Some n ->
    ThemeNode.exploration_depth n <= 5 ->
    exists n',
      Dict.get (GraphManager.theme_nodes (GraphManager.run ops gm)) k = Some n'
      /\ ThemeNode.exploration_depth n
         <= ThemeNode.exploration_depth n' <= 5.
Proof.
  intros ops gm k n Hops Hget Hd.
  destruct (run_related deepened) with (ops := ops) (gm := gm) (k := k) (n := n)
    as (n' & Hn' & Hdeep); auto.
  - intros a. unfold deepened. lia.
  - unfold deepened. intros a b c H1 H2 H. specialize (H1 H). 
    assert (ThemeNode.exploration_depth b <= 5) by lia. specialize (H2 H0). lia.
  - apply method_deepens.
  - exists n'. split; [exact Hn' | now apply Hdeep].
Qed.

Lemma theme_depth_is_kept_witness :
  exists n',
    Dict.get
      (GraphManager.theme_nodes
         (GraphManager.run
            [GraphManager.AddEventNode 1 (Sample.event "e1" "A") "A";
             GraphManager.OnTheme "A" GraphManager.IncrementDepth]
            Sample.fresh))
      "A" = Some n'
    /\ ThemeNode.exploration_depth Sample.node_A
       <= ThemeNode.exploration_depth n' <= 5.
Proof.
  apply (theme_depth_is_kept
           [GraphManager.AddEventNode 1 (Sample.event "e1" "A") "A";
            GraphManager.OnTheme "A" GraphManager.IncrementDepth]
           Sample.fresh "A" Sample.node_A).
  - reflexivity.
  - vm_compute. reflexivity.
  - simpl. lia.
Defined.

(** X28.  [get_theme_status] returns [None] exactly for an unknown theme
    id.  Right after a successful [add_event_node(event, id)] it reports,
    for that theme, a status other than "pending", at least one extracted
    event, and the depth [min(d + 1, 5)] for the former depth [d]. *)
Theorem theme_status_after_event :
  forall (now : datetime) (event : EventNode.t) (id : string)
         (gm : GraphManager.t),
    (GraphManager.get_theme_status id gm = None <->
     Dict.contains (GraphManager.theme_nodes gm) id = false)
    /\ (forall n,
          Dict.get (GraphManager.theme_nodes gm) id = Some n ->
          exists s,
            GraphManager.get_theme_status id
              (fst (GraphManager.add_event_node now event id gm)) = Some s
            /\ GraphManager.ts_theme_id s = ThemeNode.theme_id n
            /\ GraphManager.ts_status s <> "pending"
            /\ (GraphManager.ts_status s = "exhausted" <->
                ThemeNode.status n = EXHAUSTED)
            /\ 1 <= GraphManager.ts_extracted_events_count s
            /\ GraphManager.ts_exploration_depth s
               = Z.min (ThemeNode.exploration_depth n + 1) 5).
Proof.
  intros now event id gm. split.
  - unfold GraphManager.get_theme_status, Dict.contains.
    destruct (Dict.get (GraphManager.theme_nodes gm) id);
      split; (reflexivity || discriminate).
  - intros n Hn. unfold GraphManager.get_theme_status.
    rewrite add_event_node_theme_nodes, Hn. cbv zeta. rewrite get_set_same.
    eexists. split; [reflexivity |].
    cbn [GraphManager.ts_theme_id GraphManager.ts_status
         GraphManager.ts_extracted_events_count
         GraphManager.ts_exploration_depth].
    remember (ThemeNode.add_extracted_event (EventNode.event_id event) n)
      as t0 eqn:Ht0.
    assert (H0 : ThemeNode.theme_id t0 = ThemeNode.theme_id n
                 /\ ThemeNode.status t0 = ThemeNode.status n
                 /\ ThemeNode.exploration_depth t0
                    = ThemeNode.exploration_depth n
                 /\ (1 <= List.length (ThemeNode.extracted_events t0))%nat).
    { subst t0. unfold ThemeNode.add_extracted_event.
      destruct (str_in _ _) eqn:E; cbn [negb]; repeat split.
      - apply str_in_In in E.
        destruct (ThemeNode.extracted_events n); [destruct E | simpl; lia].
      - cbn. rewrite length_app. simpl. lia. }
    clear Ht0. destruct H0 as (Hi & Hs & Hd & Hl).
    remember (ThemeNode.increment_depth t0) as t1 eqn:Ht1.
    assert (H1 : ThemeNode.theme_id t1 = ThemeNode.theme_id n
                 /\ ThemeNode.status t1 = ThemeNode.status n
                 /\ ThemeNode.exploration_depth t1
                    = Z.min (ThemeNode.exploration_depth n + 1) 5
                 /\ (1 <= List.length (ThemeNode.extracted_events t1))%nat).
    { subst t1. cbn. rewrite Hd. auto. }
    clear Ht1. destruct H1 as (Hi1 & Hs1 & Hd1 & Hl1).
    unfold ThemeNode.mark_mentioned. rewrite Hs1.
    destruct (ThemeNode.status n) eqn:Es; cbn; rewrite ?Hs1, ?Hi1, ?Hd1;
      repeat split; intros; try discriminate; try congruence; lia.
Qed.

Lemma theme_status_after_event_witness :
  exists s,
    GraphManager.get_theme_status "A"
      (fst (GraphManager.add_event_node 1 (Sample.event "e1" "A") "A"
              Sample.fresh)) = Some s
    /\ GraphManager.ts_status s <> "pending".
Proof.
  destruct (proj2 (theme_status_after_event 1 (Sample.event "e1" "A") "A"
                     Sample.fresh) Sample.node_A eq_refl)
    as (s & Hs & _ & Hp & _).
  exists s. split; assumption.
Defined.

Lemma status_count (l : list ThemeNode.t) :
  (List.length
     (filter (fun n => NodeStatus_eqb (ThemeNode.status n) PENDING) l)
   + List.length
       (filter (fun n => NodeStatus_eqb (ThemeNode.status n) MENTIONED) l)
   + List.length
       (filter (fun n => NodeStatus_eqb (ThemeNode.status n) EXHAUSTED) l)
   = List.length l)%nat.
Proof.
  induction l as [|n r IH]; [reflexivity |].
  cbn [filter]. destruct (ThemeNode.status n); cbn [NodeStatus_eqb List.length];
    lia.
Qed.

(** X29.  The three status lists of a manager split its themes: every
    theme is in exactly one of [get_pending_theme_nodes],
    [get_mentioned_theme_nodes] and [get_exhausted_theme_nodes], so their
    sizes add up to the number of themes; and the PENDING themes that
    [get_next_candidate_theme] considers are among the first list. *)
Theorem status_lists_partition :
  forall gm : GraphManager.t,
    let pending := GraphManager.get_pending_theme_nodes gm in
    let mentioned := GraphManager.get_mentioned_theme_nodes gm in
    let exhausted := GraphManager.get_exhausted_theme_nodes gm in
    (List.length pending + List.length mentioned + List.length exhausted
     = List.length (GraphManager.theme_nodes gm))%nat
    /\ (forall n, In n (Dict.values (GraphManager.theme_nodes gm)) <->
          In n pending \/ In n mentioned \/ In n exhausted)
    /\ (forall n, ~ (In n pending /\ In n mentioned)
                  /\ ~ (In n pending /\ In n exhausted)
                  /\ ~ (In n mentioned /\ In n exhausted))
    /\ incl (GraphManager.ready_pending gm) pending.
Proof.
  intros gm pending mentioned exhausted.
  subst pending mentioned exhausted.
  unfold GraphManager.get_pending_theme_nodes,
    GraphManager.get_mentioned_theme_nodes,
    GraphManager.get_exhausted_theme_nodes.
  split; [| split; [| split]].
  - unfold GraphManager.nodes_with_status. rewrite status_count.
    unfold Dict.values. apply length_map.
  - intros n. rewrite !nodes_with_status_In.
    destruct (ThemeNode.status n); intuition congruence.
  - intros n. rewrite !nodes_with_status_In. intuition congruence.
  - intros n. unfold GraphManager.ready_pending.
    rewrite filter_In, andb_true_iff, status_eqb_eq, nodes_with_status_In.
    tauto.
Qed.

Lemma event_from_dict_errors_witness :
  EventNode.from_dict 0 "0123456789ab"
    (EventNode.mk_dict None (Some "A") (Some "title") (Some "description")
       None None None None None None None None None None
       (Some (Malformed "last week")))
  = Raise (ValueError "last week").
Proof.
  apply (proj1 (event_from_dict_errors 0 "0123456789ab" _) "last week").
  - reflexivity.
  - discriminate.
Defined.

Lemma event_update_slot_lookup_witness :
  Dict.get
    (EventNode.slots
       (EventNode.update_slot "weather" (Some "snow") (Sample.event "e1" "A")))
    "time"
  = Dict.get (EventNode.slots (Sample.event "e1" "A")) "time".
Proof.
  apply (proj1 (proj2 (event_update_slot_lookup "weather" (Some "snow")
                         (Sample.event "e1" "A")))).
  discriminate.
Defined.
